(** * The ingestion job of dod-etl-script, embedded in Rocq

    The repository holds two scripts with the same layout:
    [etl_api_runner.py] (the later one: download with progress, duplicate
    check, error handling) and [upload_from_space1.py] (the earlier one).
    Both are embedded here, each in a module of its own, over one shared
    model of the process-wide globals, of the S3 bucket and of the Mongo
    database.

    Conventions of the embedding:
    - Python [int] is [Z]; [len] is [Z.of_nat (length _)].
    - [float] values coming from outside (clock, CPU and memory samples)
      and the quotient [inserted_count/total_count*100] are rationals
      [Q]: the model keeps the value and leaves out binary rounding and
      the [.2f] rendering.
    - A function of the scripts is a computation [M A]: it takes the
      globals and the database, and gives back a result or a raised
      exception, the new globals and database, and the events it emitted
      (prints, lock operations, loads and stores of globals, S3 and Mongo
      calls), in program order.
    - What the network does is an input: the [Env] record says what the
      bucket lists and how each object downloads; [mongo_faults] in the
      world says which of the coming Mongo calls raise. *)

From Stdlib Require Import ZArith QArith Qround Lia Ascii String.
From stdpp Require Import base option list strings gmap.

Local Open Scope Z_scope.

(** ** Data *)

Definition bytes := list Byte.byte.

(** [{"url_id": row[0], "input_url": row[1], "status": "pending"}] *)
Record Doc := mkDoc { url_id : string; input_url : string; status : string }.

(** The module-level globals of the scripts. *)
Inductive Var := VInsertedCount | VTotalCount | VJobRunning | VStartTime.

Inductive S3Call :=
| ListObjectsV2
| HeadObject (key : string)
| GetObject (key : string)
| ReadBody (key : string).

Inductive MongoCall :=
| FindOne (collection_name : string) (uid : string)
| InsertOne (collection_name : string) (doc : Doc).

(** One constructor per [print] of the scripts, with the values the
    f-string interpolates (the text of a caught exception is left out). *)
Inductive Msg :=
| MsgDownloading (filename : string) (total_size : Z)
| MsgChunk (downloaded total_size : Z)
| MsgFinishedDownloading (filename : string)
| MsgFailedDownload (filename : string)
| MsgFailedReadCsv (collection_name : string)
| MsgStartingInsert (collection_name : string) (n : Z)
| MsgSkippingMalformed (i : Z) (row : list string)
| MsgSkippedDuplicate (uid : string)
| MsgErrorInserting (i : Z) (collection_name : string)
| MsgErrorInsertingRow
| MsgInsertedSoFar (i n : Z) (collection_name : string)
| MsgFinished (collection_name : string) (inserted total : Z)
| MsgScanning
| MsgFailedList
| MsgNoCsvFiles
| MsgNoFiles
| MsgFound (n : Z)
| MsgProcessing (filename : string) (collection_name : option string)
| MsgDownloadingFrom (filename : string) (collection_name : option string)
| MsgCritical (filename : string)
| MsgAllComplete (duration inserted total : Z)
| MsgAllUploadsComplete.

Inductive Event :=
| EvPrint (m : Msg)
| EvAcquire
| EvRelease
| EvRead (x : Var)
| EvWrite (x : Var)
| EvS3 (c : S3Call)
| EvMongo (c : MongoCall).

Inductive Exn :=
| ClientError        (* botocore: any failure of an S3 call *)
| PyMongoError       (* pymongo: any failure of a Mongo call *)
| DecodeError        (* UnicodeDecodeError or csv.Error *)
| ZeroDivisionError
| TypeError
| InvalidName.       (* pymongo: a collection name the driver refuses *)

(** The globals ([inserted_count], [total_count], [job_running],
    [start_time]), the database [db], and the two oracles: [now] is what
    [time.time()] returns, [mongo_faults] says for the coming Mongo calls,
    one boolean a call, whether the call raises (none raises once the list
    is used up). *)
Record World := mkWorld {
  inserted_count : Z;
  total_count : Z;
  job_running : bool;
  start_time : option Q;
  db : gmap string (list Doc);
  mongo_faults : list bool;
  now : Q
}.

Definition set_inserted_count (v : Z) (w : World) : World :=
  mkWorld v (total_count w) (job_running w) (start_time w) (db w) (mongo_faults w) (now w).
Definition set_total_count (v : Z) (w : World) : World :=
  mkWorld (inserted_count w) v (job_running w) (start_time w) (db w) (mongo_faults w) (now w).
Definition set_job_running (v : bool) (w : World) : World :=
  mkWorld (inserted_count w) (total_count w) v (start_time w) (db w) (mongo_faults w) (now w).
Definition set_start_time (v : option Q) (w : World) : World :=
  mkWorld (inserted_count w) (total_count w) (job_running w) v (db w) (mongo_faults w) (now w).
Definition set_db (v : gmap string (list Doc)) (w : World) : World :=
  mkWorld (inserted_count w) (total_count w) (job_running w) (start_time w) v (mongo_faults w) (now w).
Definition set_mongo_faults (v : list bool) (w : World) : World :=
  mkWorld (inserted_count w) (total_count w) (job_running w) (start_time w) (db w) v (now w).

(** An object of the bucket, as the S3 calls see it: [head_object] gives
    the content length or raises ([None]); [get_object] gives a body or
    raises ([None]); each [read] of the body gives the next chunk or raises
    ([None]), and no data once the chunks are used up. *)
Record S3Object := mkS3Object {
  content_length : option Z;
  body : option (list (option bytes))
}.

(** The configuration read from the environment and the behaviour of the
    collaborators during one run. [list_objects_v2] is the answer of the
    listing call: raised exception, or the keys under ['Contents'], [None]
    when the answer has no ['Contents']. [csv_rows] is
    [list(csv.reader(io.StringIO(data.decode("utf-8"))))], [None] when it
    raises. [FIXED_COLLECTION] is [os.getenv("COLLECTION_NAME")]: [None]
    when the variable is not set. *)
Record Env := mkEnv {
  MODE : string;
  FIXED_COLLECTION : option string;
  list_objects_v2 : Exn + option (list string);
  s3_object : string → S3Object;
  csv_rows : bytes → option (list (list string))
}.

(** ** The computation monad *)

Definition M (A : Type) : Type := World → (Exn + A) * World * list Event.

Definition ret {A} (a : A) : M A := λ w, (inr a, w, []).

Definition bind {A B} (m : M A) (f : A → M B) : M B := λ w,
  match m w with
  | (inl e, w1, ev1) => (inl e, w1, ev1)
  | (inr a, w1, ev1) =>
      match f a w1 with
      | (r, w2, ev2) => (r, w2, ev1 ++ ev2)
      end
  end.

Definition raise {A} (e : Exn) : M A := λ w, (inl e, w, []).

(** [try: m  except Exception as e: h e] *)
Definition try_except {A} (m : M A) (h : Exn → M A) : M A := λ w,
  match m w with
  | (inl e, w1, ev1) =>
      match h e w1 with
      | (r, w2, ev2) => (r, w2, ev1 ++ ev2)
      end
  | (inr a, w1, ev1) => (inr a, w1, ev1)
  end.

Declare Scope py_scope.
Delimit Scope py_scope with py.
Notation "'let*' x ':=' m 'in' k" := (bind m (λ x, k))
  (at level 10, x name, m at level 100, k at level 200, only parsing) : py_scope.
Notation "m ;;; k" := (bind m (λ _, k))
  (at level 100, k at level 200, right associativity, only parsing) : py_scope.
Local Open Scope py_scope.

Definition result {A} (o : (Exn + A) * World * list Event) : Exn + A := o.1.1.
Definition world {A} (o : (Exn + A) * World * list Event) : World := o.1.2.
Definition events {A} (o : (Exn + A) * World * list Event) : list Event := o.2.

Definition emit (e : Event) : M unit := λ w, (inr tt, w, [e]).
Definition print (m : Msg) : M unit := emit (EvPrint m).

(** Loads and stores of the globals. *)
Definition load_inserted_count : M Z := λ w, (inr (inserted_count w), w, [EvRead VInsertedCount]).
Definition load_total_count : M Z := λ w, (inr (total_count w), w, [EvRead VTotalCount]).
Definition load_job_running : M bool := λ w, (inr (job_running w), w, [EvRead VJobRunning]).
Definition load_start_time : M (option Q) := λ w, (inr (start_time w), w, [EvRead VStartTime]).
Definition store_inserted_count (v : Z) : M unit := λ w, (inr tt, set_inserted_count v w, [EvWrite VInsertedCount]).
Definition store_total_count (v : Z) : M unit := λ w, (inr tt, set_total_count v w, [EvWrite VTotalCount]).
Definition store_job_running (v : bool) : M unit := λ w, (inr tt, set_job_running v w, [EvWrite VJobRunning]).
Definition store_start_time (v : option Q) : M unit := λ w, (inr tt, set_start_time v w, [EvWrite VStartTime]).

(** [time.time()] *)
Definition time_time : M Q := λ w, (inr (now w), w, []).

(** [with lock: m]: the lock is released on the way out, also when [m]
    raises. *)
Definition with_lock {A} (m : M A) : M A :=
  emit EvAcquire ;;;
  try_except (let* a := m in emit EvRelease ;;; ret a)
             (λ e, emit EvRelease ;;; raise e).

(** ** The Mongo database *)

(** The documents of a collection, oldest first; a collection that was
    never written is empty. *)
Definition collection (collection_name : string) (d : gmap string (list Doc)) : list Doc :=
  default [] (d !! collection_name).

(** The next entry of [mongo_faults] decides whether the call raises; a
    call that raises leaves the database as it was. *)
Definition mongo_fault : M unit := λ w,
  match mongo_faults w with
  | true :: fs => (inl PyMongoError, set_mongo_faults fs w, [])
  | false :: fs => (inr tt, set_mongo_faults fs w, [])
  | [] => (inr tt, w, [])
  end.

Definition db_find (collection_name uid : string) : M (option Doc) := λ w,
  (inr (List.find (λ d, String.eqb (url_id d) uid) (collection collection_name (db w))), w, []).

Definition db_append (collection_name : string) (doc : Doc) : M unit := λ w,
  (inr tt,
   set_db (<[collection_name := collection collection_name (db w) ++ [doc]]> (db w)) w,
   []).

(** [collection.find_one({"url_id": uid})]: the oldest document whose
    [url_id] is [uid]. *)
Definition find_one (collection_name uid : string) : M (option Doc) :=
  emit (EvMongo (FindOne collection_name uid)) ;;;
  mongo_fault ;;;
  db_find collection_name uid.

(** [collection.insert_one(doc)] *)
Definition insert_one (collection_name : string) (doc : Doc) : M unit :=
  emit (EvMongo (InsertOne collection_name doc)) ;;;
  mongo_fault ;;;
  db_append collection_name doc.

(** ** Python library functions on strings *)

(** [s.endswith(suffix)] *)
Definition endswith (s suffix : string) : bool :=
  let n := String.length s in
  let m := String.length suffix in
  (m <=? n)%nat && String.eqb (String.substring (n - m) m s) suffix.

(** [s.rfind(c)] for a one-character [c]; [None] stands for [-1]. *)
Fixpoint rfind (c : ascii) (s : string) : option nat :=
  match s with
  | EmptyString => None
  | String a r =>
      match rfind c r with
      | Some i => Some (S i)
      | None => if Ascii.eqb a c then Some 0%nat else None
      end
  end.

(** [os.path.basename(p)] (posixpath): [p[p.rfind('/') + 1:]]. *)
Definition basename (p : string) : string :=
  match rfind "/" p with
  | None => p
  | Some i => String.substring (S i) (String.length p - S i) p
  end.

Fixpoint all_dots (s : string) : bool :=
  match s with
  | EmptyString => true
  | String a r => Ascii.eqb a "." && all_dots r
  end.

(** [os.path.splitext(p)[0]] (posixpath, [genericpath._splitext]): the
    extension starts at the last dot, when that dot lies after the last
    slash and some character between the two is not a dot. *)
Definition splitext_root (p : string) : string :=
  match rfind "." p with
  | None => p
  | Some dotIndex =>
      let filenameIndex := match rfind "/" p with None => 0%nat | Some sepIndex => S sepIndex end in
      if (filenameIndex <=? dotIndex)%nat
      then if all_dots (String.substring filenameIndex (dotIndex - filenameIndex) p)
           then p
           else String.substring 0 dotIndex p
      else p
  end.

Definition len {A} (l : list A) : Z := Z.of_nat (length l).

(** [int(x)] on a float: truncation towards zero. *)
Definition py_int (x : Q) : Z := Z.quot (Qnum x) (Z.pos (Qden x)).

(** [s.startswith(prefix)] *)
Definition startswith (s prefix : string) : bool := String.prefix prefix s.

(** [sub in s] on strings *)
Fixpoint contains (sub s : string) : bool :=
  String.prefix sub s
  || match s with
     | EmptyString => false
     | String _ r => contains sub r
     end.

(** [s[0] == "."], false on the empty string. *)
Definition first_is_dot (s : string) : bool :=
  match s with
  | String a _ => Ascii.eqb a "."
  | EmptyString => false
  end.

(** [s[-1] == "."], false on the empty string. *)
Fixpoint last_is_dot (s : string) : bool :=
  match s with
  | EmptyString => false
  | String a EmptyString => Ascii.eqb a "."
  | String _ r => last_is_dot r
  end.

(** The names pymongo refuses when [db[name]] makes the collection object
    ([Collection.__init__]): the empty name, a name holding [..], a name
    holding [$] that does not start with [oplog.$main] or [$cmd], a name
    that starts or ends with a dot, a name holding the null character. *)
Definition name_refused (name : string) : bool :=
  String.eqb name EmptyString
  || contains ".." name
  || (contains "$" name && negb (startswith name "oplog.$main" || startswith name "$cmd"))
  || first_is_dot name
  || last_is_dot name
  || contains (String "000" EmptyString) name.

(** [db[collection_name]]: the collection, which the model names by its
    name. pymongo raises [TypeError] when the name is not a string (here:
    [None]) and [InvalidName] when it refuses the name; no request goes to
    the server. *)
Definition db_getitem (collection_name : option string) : M string :=
  match collection_name with
  | None => raise TypeError
  | Some name => if name_refused name then raise InvalidName else ret name
  end.

(** [collection_name = os.path.splitext(filename)[0] if MODE == "per_file"
    else FIXED_COLLECTION] *)
Definition collection_name_of (env : Env) (filename : string) : option string :=
  if String.eqb (MODE env) "per_file" then Some (splitext_root filename)
  else FIXED_COLLECTION env.

(** [[obj["Key"] for obj in objects["Contents"] if obj["Key"].endswith(".csv")]] *)
Definition csv_files_of (contents : list string) : list string :=
  List.filter (λ key, endswith key ".csv") contents.

(** The three S3 calls of the scripts. *)
Definition s3_list_objects_v2 (env : Env) : M (option (list string)) :=
  emit (EvS3 ListObjectsV2) ;;;
  match list_objects_v2 env with
  | inl e => raise e
  | inr objects => ret objects
  end.

Definition s3_head_object (env : Env) (key : string) : M Z :=
  emit (EvS3 (HeadObject key)) ;;;
  match content_length (s3_object env key) with
  | None => raise ClientError
  | Some n => ret n
  end.

Definition s3_get_object (env : Env) (key : string) : M (list (option bytes)) :=
  emit (EvS3 (GetObject key)) ;;;
  match body (s3_object env key) with
  | None => raise ClientError
  | Some chunks => ret chunks
  end.

(** ** The report of [/stats] *)

(** The [progress] string: the literal ["0%"], or the quotient rendered
    with two decimals and a percent sign. *)
Inductive Progress :=
| ProgressZero
| ProgressPercent (q : Q).

Record Report := mkReport {
  rep_inserted : Z;
  rep_total : Z;
  rep_progress : Progress;
  rep_cpu_usage : Q;
  rep_memory_usage : Q;
  rep_uptime_seconds : Z;
  rep_job_running : bool;
  rep_healthy : bool
}.

(** [x < y] on floats *)
Definition Qltb (x y : Q) : bool := negb (Qle_bool y x).

(** [int(time.time() - start_time) if start_time else 0] *)
Definition uptime_of : M Z :=
  let* s := load_start_time in
  match s with
  | None => ret 0
  | Some s0 =>
      if Qeq_bool s0 0 then ret 0
      else
        let* t := time_time in
        let* s := load_start_time in
        match s with
        | None => raise TypeError
        | Some s1 => ret (py_int (t - s1)%Q)
        end
  end.

(** [f"{(inserted_count/total_count*100):.2f}%" if total_count else "0%"] *)
Definition progress_of : M Progress :=
  let* c := load_total_count in
  if c =? 0 then ret ProgressZero
  else
    let* a := load_inserted_count in
    let* b := load_total_count in
    if b =? 0 then raise ZeroDivisionError
    else ret (ProgressPercent (inject_Z a / inject_Z b * 100)%Q).

(** ** Threads, step by step

    [Thread(target=process_all_csv_from_spaces)] runs beside the requests
    of the control surface, and Flask serves each request on a thread of
    its own. What the threads share are the globals and the database. A
    thread is modelled by its position in its function, with the values of
    its local variables, and by a step function: a step makes at most one
    access to what is shared (one load or one store of a global, one call
    of Mongo, or the increment of [inserted_count] with the lock held, which
    no other thread can interleave with since every store of
    [inserted_count] holds the lock) and the local work around it: prints,
    calls of S3, parsing. The steps are the grain at which the threads
    interleave.

    [advance dead m k]: the step that runs [m]; the thread goes on at
    [k a] when [m] gives [a], and has ended at [dead e] when [m] raises [e]
    and nothing catches it. *)
Definition advance {A T} (dead : Exn → T) (m : M A) (k : A → T) (w : World) :
    T * World * list Event :=
  match m w with
  | (inr a, w1, ev) => (k a, w1, ev)
  | (inl e, w1, ev) => (dead e, w1, ev)
  end.

(** ** etl_api_runner.py *)

Module EtlApiRunner.
Section WithEnv.
Variable env : Env.

(** The [while True] loop of [download_with_progress]: one [body.read]
    a round, until a read gives no data. [percent = (downloaded /
    total_size) * 100] raises when [total_size] is 0. *)
Fixpoint read_chunks (key : string) (total_size : Z) (chunks : list (option bytes))
    (downloaded : Z) (buffer : bytes) : M bytes :=
  emit (EvS3 (ReadBody key)) ;;;
  match chunks with
  | [] => ret buffer
  | None :: _ => raise ClientError
  | Some data :: rest =>
      match data with
      | [] => ret buffer
      | _ :: _ =>
          let buffer := buffer ++ data in
          let downloaded := downloaded + len data in
          if total_size =? 0 then raise ZeroDivisionError
          else
            print (MsgChunk downloaded total_size) ;;;
            read_chunks key total_size rest downloaded buffer
      end
  end.

(** [download_with_progress(bucket, key, filename)]: the buffer, or [None]
    when anything raised. *)
Definition download_with_progress (key filename : string) : M (option bytes) :=
  try_except
    (let* total_size := s3_head_object env key in
     print (MsgDownloading filename total_size) ;;;
     let* chunks := s3_get_object env key in
     let* buffer := read_chunks key total_size chunks 0 [] in
     print (MsgFinishedDownloading filename) ;;;
     ret (Some buffer))
    (λ e, print (MsgFailedDownload filename) ;;; ret None).

(** The body of the [try] in the row loop: look the key up, insert and
    count when it is absent, report the duplicate otherwise. *)
Definition dedup_insert (collection_name : string) (doc : Doc) : M unit :=
  let* found := find_one collection_name (url_id doc) in
  match found with
  | None =>
      insert_one collection_name doc ;;;
      with_lock (let* v := load_inserted_count in store_inserted_count (v + 1))
  | Some _ => print (MsgSkippedDuplicate (url_id doc))
  end.

(** The [try] statement of the row loop, with its [except]: one attempt
    of the writer on the document of row [i]. *)
Definition try_insert (collection_name : string) (i : Z) (doc : Doc) : M unit :=
  try_except (dedup_insert collection_name doc)
             (λ e, print (MsgErrorInserting i collection_name)).

(** One round of [for i, row in enumerate(rows, start=1)]; [n] is
    [len(rows)] of the whole file. *)
Definition process_row (collection_name : string) (n i : Z) (row : list string) : M unit :=
  if len row <? 2 then print (MsgSkippingMalformed i row)
  else
    let doc := mkDoc (nth 0 row EmptyString) (nth 1 row EmptyString) "pending" in
    try_insert collection_name i doc ;;;
    if i mod 1000 =? 0 then print (MsgInsertedSoFar i n collection_name) else ret tt.

Fixpoint insert_rows (collection_name : string) (n i : Z) (rows : list (list string)) : M unit :=
  match rows with
  | [] => ret tt
  | row :: rest =>
      process_row collection_name n i row ;;;
      insert_rows collection_name n (i + 1) rest
  end.

Definition read_rows (stream : bytes) : M (list (list string)) :=
  match csv_rows env stream with
  | None => raise DecodeError
  | Some rows => ret rows
  end.

(** [insert_csv_from_stream] from its [try] statement on, with the
    collection in hand. *)
Definition insert_csv_into (stream : bytes) (collection_name : string) : M unit :=
  let* r := try_except (let* rows := read_rows stream in ret (Some rows))
                       (λ e, print (MsgFailedReadCsv collection_name) ;;; ret None) in
  match r with
  | None => ret tt
  | Some rows =>
      let* t := load_total_count in
      store_total_count (t + len rows) ;;;
      print (MsgStartingInsert collection_name (len rows)) ;;;
      insert_rows collection_name (len rows) 1 rows ;;;
      let* a := load_inserted_count in
      let* b := load_total_count in
      print (MsgFinished collection_name a b)
  end.

(** [collection = db[collection_name]] comes first, outside the [try]:
    when the driver refuses the name the call raises before the stream is
    read and before anything is counted. *)
Definition insert_csv_from_stream (stream : bytes) (collection_name : option string) : M unit :=
  let* collection := db_getitem collection_name in
  insert_csv_into stream collection.

(** The two halves of the body of [for key in csv_files]: up to the
    download, and the insertion of what was downloaded. *)
Definition loop_download (key : string) : M (string * option string * option bytes) :=
  let filename := basename key in
  let collection_name := collection_name_of env filename in
  print (MsgProcessing filename collection_name) ;;;
  let* buffer := download_with_progress key filename in
  ret (filename, collection_name, buffer).

Definition loop_insert (filename : string) (collection_name : option string)
    (buffer : option bytes) : M unit :=
  match buffer with
  | Some b =>
      try_except (insert_csv_from_stream b collection_name)
                 (λ e, print (MsgCritical filename))
  | None => ret tt
  end.

Definition loop_body (key : string) : M unit :=
  let* d := loop_download key in
  loop_insert d.1.1 d.1.2 d.2.

Fixpoint for_csv_files (csv_files : list string) : M unit :=
  match csv_files with
  | [] => ret tt
  | key :: rest => loop_body key ;;; for_csv_files rest
  end.

(** What follows the loop: [job_running = False], the duration, the last
    print. *)
Definition after_loop : M unit :=
  store_job_running false ;;;
  let* t := time_time in
  let* s := load_start_time in
  match s with
  | None => raise TypeError
  | Some s =>
      let duration := py_int (t - s)%Q in
      let* a := load_inserted_count in
      let* b := load_total_count in
      print (MsgAllComplete duration a b)
  end.

Definition process_all_csv_from_spaces : M unit :=
  store_job_running true ;;;
  let* t := time_time in
  store_start_time (Some t) ;;;
  print MsgScanning ;;;
  let* r := try_except (let* objects := s3_list_objects_v2 env in ret (Some objects))
                       (λ e, print MsgFailedList ;;; store_job_running false ;;; ret None) in
  match r with
  | None => ret tt
  | Some None => print MsgNoCsvFiles ;;; store_job_running false
  | Some (Some contents) =>
      let csv_files := csv_files_of contents in
      print (MsgFound (len csv_files)) ;;;
      for_csv_files csv_files ;;;
      after_loop
  end.

(** [/stats]: [cpu] and [mem] are the samples [psutil.cpu_percent] and
    [psutil.virtual_memory().percent]. The page shows the fields of the
    report. *)
Definition stats (cpu mem : Q) : M Report :=
  let* uptime := uptime_of in
  let* progress := progress_of in
  let healthy := Qltb cpu 80 && Qltb mem 80 in
  let* a := load_inserted_count in
  let* b := load_total_count in
  let* j := load_job_running in
  ret (mkReport a b progress cpu mem uptime j healthy).

(** *** The run loop as a thread *)

(** The positions of the thread in [process_all_csv_from_spaces] and in
    the call of [insert_csv_from_stream] it makes, each before the
    statement named:
    - [PcStart]: [job_running = True];
    - [PcStartTime]: [start_time = time.time()];
    - [PcList]: the listing;
    - [PcClear]: [job_running = False] before an early [return];
    - [PcLoop todo]: the head of [for key in csv_files], [todo] still to do;
    - [PcInsert]: [if buffer:] after the download;
    - [PcCount]: the load of [total_count] in [total_count += len(rows)];
    - [PcCountStore]: its store, [t] being the value loaded;
    - [PcRow]: the head of the row loop, row [i] next; after the last
      row, the load of [inserted_count] for the last print;
    - [PcRowInsert]: [collection.insert_one(doc)], the lookup having found
      nothing;
    - [PcRowCount]: [with lock: inserted_count += 1];
    - [PcFinished]: the load of [total_count] for the last print of the
      file;
    - [PcDuration], [PcSummary], [PcSummaryTotal]: the loads of
      [start_time], [inserted_count] and [total_count] after the loop;
    - [PcDone]: returned; [PcDead e]: ended by an exception nothing
      caught. *)
Inductive Pc :=
| PcStart
| PcStartTime
| PcList
| PcClear
| PcLoop (todo : list string)
| PcInsert (filename : string) (collection_name : option string) (buffer : option bytes)
    (todo : list string)
| PcCount (filename collection_name : string) (rows : list (list string)) (todo : list string)
| PcCountStore (filename collection_name : string) (rows : list (list string)) (t : Z)
    (todo : list string)
| PcRow (filename collection_name : string) (n i : Z) (rows : list (list string))
    (todo : list string)
| PcRowInsert (filename collection_name : string) (n i : Z) (doc : Doc)
    (rows : list (list string)) (todo : list string)
| PcRowCount (filename collection_name : string) (n i : Z) (rows : list (list string))
    (todo : list string)
| PcFinished (filename collection_name : string) (a : Z) (todo : list string)
| PcDuration
| PcSummary (duration : Z)
| PcSummaryTotal (duration a : Z)
| PcDone
| PcDead (e : Exn).

Definition ended (pc : Pc) : bool :=
  match pc with PcDone | PcDead _ => true | _ => false end.

(** The listing, up to the head of the loop: the keys to process, [None]
    when the function is about to clear the flag and return. *)
Definition run_list : M (option (list string)) :=
  print MsgScanning ;;;
  let* r := try_except (let* objects := s3_list_objects_v2 env in ret (Some objects))
                       (λ e, print MsgFailedList ;;; ret None) in
  match r with
  | None => ret None
  | Some None => print MsgNoCsvFiles ;;; ret None
  | Some (Some contents) =>
      let csv_files := csv_files_of contents in
      print (MsgFound (len csv_files)) ;;;
      ret (Some csv_files)
  end.

(** A step inside the call [insert_csv_from_stream(buffer,
    collection_name)] is inside the [try] of the loop body: an exception
    is reported and the thread goes on with the next key. *)
Definition critical (filename : string) (todo : list string) (m : M Pc) : M Pc :=
  try_except m (λ e, print (MsgCritical filename) ;;; ret (PcLoop todo)).

(** The end of a round of the row loop. *)
Definition next_row (filename collection_name : string) (n i : Z) (rows : list (list string))
    (todo : list string) : M Pc :=
  (if i mod 1000 =? 0 then print (MsgInsertedSoFar i n collection_name) else ret tt) ;;;
  ret (PcRow filename collection_name n (i + 1) rows todo).

(** [if buffer:] and the call up to the rows: the collection object, the
    read and the parse, none of which touches what is shared. *)
Definition open_file (filename : string) (collection_name : option string)
    (buffer : option bytes) (todo : list string) : M Pc :=
  match buffer with
  | None => ret (PcLoop todo)
  | Some b =>
      critical filename todo
        (let* collection := db_getitem collection_name in
         let* r := try_except (let* rows := read_rows b in ret (Some rows))
                              (λ e, print (MsgFailedReadCsv collection) ;;; ret None) in
         match r with
         | None => ret (PcLoop todo)
         | Some rows => ret (PcCount filename collection rows todo)
         end)
  end.

(** The head of a round of the row loop: the malformed row is skipped,
    the key of a well-formed one is looked up. *)
Definition lookup_row (filename collection_name : string) (n i : Z) (row : list string)
    (rows : list (list string)) (todo : list string) : M Pc :=
  if len row <? 2 then
    print (MsgSkippingMalformed i row) ;;;
    ret (PcRow filename collection_name n (i + 1) rows todo)
  else
    let doc := mkDoc (nth 0 row EmptyString) (nth 1 row EmptyString) "pending" in
    let* absent :=
      try_except
        (let* found := find_one collection_name (url_id doc) in
         match found with
         | None => ret true
         | Some _ => print (MsgSkippedDuplicate (url_id doc)) ;;; ret false
         end)
        (λ e, print (MsgErrorInserting i collection_name) ;;; ret false) in
    if absent then ret (PcRowInsert filename collection_name n i doc rows todo)
    else next_row filename collection_name n i rows todo.

Definition insert_row (filename collection_name : string) (n i : Z) (doc : Doc)
    (rows : list (list string)) (todo : list string) : M Pc :=
  let* inserted :=
    try_except (insert_one collection_name doc ;;; ret true)
               (λ e, print (MsgErrorInserting i collection_name) ;;; ret false) in
  if inserted then ret (PcRowCount filename collection_name n i rows todo)
  else next_row filename collection_name n i rows todo.

Definition count_row (filename collection_name : string) (n i : Z)
    (rows : list (list string)) (todo : list string) : M Pc :=
  try_except (with_lock (let* v := load_inserted_count in store_inserted_count (v + 1)))
             (λ e, print (MsgErrorInserting i collection_name)) ;;;
  next_row filename collection_name n i rows todo.

Definition worker_step (pc : Pc) : World → Pc * World * list Event :=
  match pc with
  | PcStart => advance PcDead (store_job_running true) (λ _, PcStartTime)
  | PcStartTime =>
      advance PcDead (let* t := time_time in store_start_time (Some t)) (λ _, PcList)
  | PcList =>
      advance PcDead run_list (λ r, match r with None => PcClear | Some ks => PcLoop ks end)
  | PcClear => advance PcDead (store_job_running false) (λ _, PcDone)
  | PcLoop [] => advance PcDead (store_job_running false) (λ _, PcDuration)
  | PcLoop (key :: todo) =>
      advance PcDead (loop_download key) (λ d, PcInsert d.1.1 d.1.2 d.2 todo)
  | PcInsert filename collection_name buffer todo =>
      advance PcDead (open_file filename collection_name buffer todo) id
  | PcCount filename c rows todo =>
      advance PcDead
        (critical filename todo
           (let* t := load_total_count in ret (PcCountStore filename c rows t todo))) id
  | PcCountStore filename c rows t todo =>
      advance PcDead
        (critical filename todo
           (store_total_count (t + len rows) ;;;
            print (MsgStartingInsert c (len rows)) ;;;
            ret (PcRow filename c (len rows) 1 rows todo))) id
  | PcRow filename c n i [] todo =>
      advance PcDead
        (critical filename todo
           (let* a := load_inserted_count in ret (PcFinished filename c a todo))) id
  | PcRow filename c n i (row :: rows) todo =>
      advance PcDead (critical filename todo (lookup_row filename c n i row rows todo)) id
  | PcRowInsert filename c n i doc rows todo =>
      advance PcDead (critical filename todo (insert_row filename c n i doc rows todo)) id
  | PcRowCount filename c n i rows todo =>
      advance PcDead (critical filename todo (count_row filename c n i rows todo)) id
  | PcFinished filename c a todo =>
      advance PcDead
        (critical filename todo
           (let* b := load_total_count in
            print (MsgFinished c a b) ;;;
            ret (PcLoop todo))) id
  | PcDuration =>
      advance PcDead
        (let* t := time_time in
         let* s := load_start_time in
         match s with
         | None => raise TypeError
         | Some s => ret (PcSummary (py_int (t - s)%Q))
         end) id
  | PcSummary duration =>
      advance PcDead (let* a := load_inserted_count in ret (PcSummaryTotal duration a)) id
  | PcSummaryTotal duration a =>
      advance PcDead (let* b := load_total_count in print (MsgAllComplete duration a b))
        (λ _, PcDone)
  | PcDone => λ w, (PcDone, w, [])
  | PcDead e => λ w, (PcDead e, w, [])
  end.

(** What the function still does from a position of the thread. *)
Definition finish_file (collection_name : string) : M unit :=
  let* a := load_inserted_count in
  let* b := load_total_count in
  print (MsgFinished collection_name a b).

Definition row_end (collection_name : string) (n i : Z) : M unit :=
  if i mod 1000 =? 0 then print (MsgInsertedSoFar i n collection_name) else ret tt.

Definition rest_of_file (pc : Pc) : M unit :=
  match pc with
  | PcCount _ c rows _ =>
      let* t := load_total_count in
      store_total_count (t + len rows) ;;;
      print (MsgStartingInsert c (len rows)) ;;;
      insert_rows c (len rows) 1 rows ;;;
      finish_file c
  | PcCountStore _ c rows t _ =>
      store_total_count (t + len rows) ;;;
      print (MsgStartingInsert c (len rows)) ;;;
      insert_rows c (len rows) 1 rows ;;;
      finish_file c
  | PcRow _ c n i rows _ => insert_rows c n i rows ;;; finish_file c
  | PcRowInsert _ c n i doc rows _ =>
      try_except
        (insert_one c doc ;;;
         with_lock (let* v := load_inserted_count in store_inserted_count (v + 1)))
        (λ e, print (MsgErrorInserting i c)) ;;;
      row_end c n i ;;;
      insert_rows c n (i + 1) rows ;;;
      finish_file c
  | PcRowCount _ c n i rows _ =>
      try_except
        (with_lock (let* v := load_inserted_count in store_inserted_count (v + 1)))
        (λ e, print (MsgErrorInserting i c)) ;;;
      row_end c n i ;;;
      insert_rows c n (i + 1) rows ;;;
      finish_file c
  | PcFinished _ c a _ =>
      let* b := load_total_count in
      print (MsgFinished c a b)
  | _ => ret tt
  end.

Definition rest_of (pc : Pc) : M unit :=
  match pc with
  | PcStart => process_all_csv_from_spaces
  | PcStartTime =>
      let* t := time_time in
      store_start_time (Some t) ;;;
      let* r := run_list in
      match r with
      | None => store_job_running false
      | Some csv_files => for_csv_files csv_files ;;; after_loop
      end
  | PcList =>
      let* r := run_list in
      match r with
      | None => store_job_running false
      | Some csv_files => for_csv_files csv_files ;;; after_loop
      end
  | PcClear => store_job_running false
  | PcLoop todo => for_csv_files todo ;;; after_loop
  | PcInsert filename collection_name buffer todo =>
      loop_insert filename collection_name buffer ;;;
      for_csv_files todo ;;;
      after_loop
  | PcCount filename _ _ todo | PcCountStore filename _ _ _ todo
  | PcRow filename _ _ _ _ todo | PcRowInsert filename _ _ _ _ _ todo
  | PcRowCount filename _ _ _ _ todo | PcFinished filename _ _ todo =>
      try_except (rest_of_file pc) (λ e, print (MsgCritical filename)) ;;;
      for_csv_files todo ;;;
      after_loop
  | PcDuration =>
      let* t := time_time in
      let* s := load_start_time in
      match s with
      | None => raise TypeError
      | Some s =>
          let duration := py_int (t - s)%Q in
          let* a := load_inserted_count in
          let* b := load_total_count in
          print (MsgAllComplete duration a b)
      end
  | PcSummary duration =>
      let* a := load_inserted_count in
      let* b := load_total_count in
      print (MsgAllComplete duration a b)
  | PcSummaryTotal duration a =>
      let* b := load_total_count in
      print (MsgAllComplete duration a b)
  | PcDone => ret tt
  | PcDead e => raise e
  end.

(** *** A stats request as a thread *)

(** The positions of a request in [stats], each before a load of a
    global: [RcStart], the [start_time] of the condition; [RcUptime], the
    [start_time] of the difference; [RcProgress], the [total_count] of the
    condition; [RcQuotient] and [RcDivisor], the [inserted_count] and the
    [total_count] of the quotient; [RcInserted], [RcTotal] and [RcRunning],
    the three globals the page shows. *)
Inductive Rc :=
| RcStart (cpu mem : Q)
| RcUptime (cpu mem : Q)
| RcProgress (cpu mem : Q) (uptime : Z)
| RcQuotient (cpu mem : Q) (uptime : Z)
| RcDivisor (cpu mem : Q) (uptime : Z) (a : Z)
| RcInserted (cpu mem : Q) (uptime : Z) (progress : Progress)
| RcTotal (cpu mem : Q) (uptime : Z) (progress : Progress) (a : Z)
| RcRunning (cpu mem : Q) (uptime : Z) (progress : Progress) (a b : Z)
| RcDone (r : Report)
| RcDead (e : Exn).

Definition report_step (rc : Rc) : World → Rc * World * list Event :=
  match rc with
  | RcStart cpu mem =>
      advance RcDead load_start_time
        (λ s, match s with
              | None => RcProgress cpu mem 0
              | Some s0 => if Qeq_bool s0 0 then RcProgress cpu mem 0 else RcUptime cpu mem
              end)
  | RcUptime cpu mem =>
      advance RcDead
        (let* t := time_time in
         let* s := load_start_time in
         match s with
         | None => raise TypeError
         | Some s1 => ret (RcProgress cpu mem (py_int (t - s1)%Q))
         end) id
  | RcProgress cpu mem uptime =>
      advance RcDead load_total_count
        (λ c, if c =? 0 then RcInserted cpu mem uptime ProgressZero
              else RcQuotient cpu mem uptime)
  | RcQuotient cpu mem uptime =>
      advance RcDead load_inserted_count (λ a, RcDivisor cpu mem uptime a)
  | RcDivisor cpu mem uptime a =>
      advance RcDead
        (let* b := load_total_count in
         if b =? 0 then raise ZeroDivisionError
         else ret (RcInserted cpu mem uptime
                     (ProgressPercent (inject_Z a / inject_Z b * 100)%Q))) id
  | RcInserted cpu mem uptime progress =>
      advance RcDead load_inserted_count (λ a, RcTotal cpu mem uptime progress a)
  | RcTotal cpu mem uptime progress a =>
      advance RcDead load_total_count (λ b, RcRunning cpu mem uptime progress a b)
  | RcRunning cpu mem uptime progress a b =>
      advance RcDead load_job_running
        (λ j, RcDone (mkReport a b progress cpu mem uptime j (Qltb cpu 80 && Qltb mem 80)))
  | RcDone r => λ w, (RcDone r, w, [])
  | RcDead e => λ w, (RcDead e, w, [])
  end.

(** The answer of a request that has ended: the page, or the exception
    that Flask turns into an error response. *)
Definition answer (rc : Rc) : option (Exn + Report) :=
  match rc with
  | RcDone r => Some (inr r)
  | RcDead e => Some (inl e)
  | _ => None
  end.

End WithEnv.
End EtlApiRunner.

(** ** upload_from_space1.py *)

Module UploadFromSpace1.
Section WithEnv.
Variable env : Env.

(** [stream.read()] on the body of the response: all the data up to the
    end of the stream, raising when a read of the transport raises. *)
Fixpoint read_all (chunks : list (option bytes)) : Exn + bytes :=
  match chunks with
  | [] => inr []
  | None :: _ => inl ClientError
  | Some [] :: _ => inr []
  | Some data :: rest =>
      match read_all rest with
      | inl e => inl e
      | inr more => inr (data ++ more)
      end
  end.

Definition read_rows (key : string) (stream : list (option bytes)) : M (list (list string)) :=
  emit (EvS3 (ReadBody key)) ;;;
  match read_all stream with
  | inl e => raise e
  | inr data =>
      match csv_rows env data with
      | None => raise DecodeError
      | Some rows => ret rows
      end
  end.

(** One round of [for row in tqdm(rows, ...)]; the progress bar goes to
    stderr and is not modelled. *)
Definition process_row (collection_name : string) (row : list string) : M unit :=
  if len row <? 2 then ret tt
  else
    let doc := mkDoc (nth 0 row EmptyString) (nth 1 row EmptyString) "pending" in
    try_except
      (insert_one collection_name doc ;;;
       with_lock (let* v := load_inserted_count in store_inserted_count (v + 1)))
      (λ e, print MsgErrorInsertingRow).

Fixpoint insert_rows (collection_name : string) (rows : list (list string)) : M unit :=
  match rows with
  | [] => ret tt
  | row :: rest =>
      process_row collection_name row ;;;
      insert_rows collection_name rest
  end.

(** [insert_csv_from_stream] after its first statement, with the
    collection in hand; [key] names the object the stream comes from. *)
Definition insert_csv_into (key : string) (stream : list (option bytes))
    (collection_name : string) : M unit :=
  let* rows := read_rows key stream in
  let* t := load_total_count in
  store_total_count (t + len rows) ;;;
  insert_rows collection_name rows.

(** [collection = db[collection_name]] comes first: when the driver
    refuses the name the call raises before the stream is read, and
    nothing in this script catches it. *)
Definition insert_csv_from_stream (key : string) (stream : list (option bytes))
    (collection_name : option string) : M unit :=
  let* collection := db_getitem collection_name in
  insert_csv_into key stream collection.

Definition loop_download (key : string) : M (string * option string * list (option bytes)) :=
  let filename := basename key in
  let collection_name := collection_name_of env filename in
  print (MsgDownloadingFrom filename collection_name) ;;;
  let* response := s3_get_object env key in
  ret (key, collection_name, response).

Definition loop_body (key : string) : M unit :=
  let* d := loop_download key in
  insert_csv_from_stream d.1.1 d.2 d.1.2.

Fixpoint for_csv_files (csv_files : list string) : M unit :=
  match csv_files with
  | [] => ret tt
  | key :: rest => loop_body key ;;; for_csv_files rest
  end.

Definition after_loop : M unit :=
  store_job_running false ;;;
  print MsgAllUploadsComplete.

Definition process_all_csv_from_spaces : M unit :=
  store_job_running true ;;;
  let* t := time_time in
  store_start_time (Some t) ;;;
  print MsgScanning ;;;
  let* objects := s3_list_objects_v2 env in
  match objects with
  | None => print MsgNoFiles ;;; store_job_running false
  | Some contents =>
      let csv_files := csv_files_of contents in
      print (MsgFound (len csv_files)) ;;;
      for_csv_files csv_files ;;;
      after_loop
  end.

(** [/stats]: the JSON object, its values evaluated in the order of the
    dictionary display. *)
Definition stats (cpu mem : Q) : M Report :=
  let* uptime := uptime_of in
  let* a := load_inserted_count in
  let* b := load_total_count in
  let* progress := progress_of in
  let* j := load_job_running in
  let healthy := Qltb cpu 80 && Qltb mem 80 in
  ret (mkReport a b progress cpu mem uptime j healthy).

(** *** The run loop as a thread *)

(** The positions of the thread, each before the statement named:
    [PcStart], [job_running = True]; [PcStartTime], [start_time =
    time.time()]; [PcList], the listing; [PcClear], [job_running = False]
    before the early [return]; [PcLoop todo], the head of the loop;
    [PcInsert], the call of [insert_csv_from_stream]; [PcCount] and
    [PcCountStore], the load and the store of [total_count += len(rows)];
    [PcRow], the head of the row loop; [PcRowCount], [with lock:
    inserted_count += 1]; [PcDone], returned; [PcDead e], ended by an
    exception. *)
Inductive Pc :=
| PcStart
| PcStartTime
| PcList
| PcClear
| PcLoop (todo : list string)
| PcInsert (key : string) (collection_name : option string) (stream : list (option bytes))
    (todo : list string)
| PcCount (collection_name : string) (rows : list (list string)) (todo : list string)
| PcCountStore (collection_name : string) (rows : list (list string)) (t : Z)
    (todo : list string)
| PcRow (collection_name : string) (rows : list (list string)) (todo : list string)
| PcRowCount (collection_name : string) (rows : list (list string)) (todo : list string)
| PcDone
| PcDead (e : Exn).

Definition ended (pc : Pc) : bool :=
  match pc with PcDone | PcDead _ => true | _ => false end.

(** The listing, up to the head of the loop: the keys to process, [None]
    when the function is about to clear the flag and return. *)
Definition run_list : M (option (list string)) :=
  print MsgScanning ;;;
  let* objects := s3_list_objects_v2 env in
  match objects with
  | None => print MsgNoFiles ;;; ret None
  | Some contents =>
      let csv_files := csv_files_of contents in
      print (MsgFound (len csv_files)) ;;;
      ret (Some csv_files)
  end.

(** The call up to the rows: the collection object, the read and the
    parse. *)
Definition open_file (key : string) (collection_name : option string)
    (stream : list (option bytes)) (todo : list string) : M Pc :=
  let* collection := db_getitem collection_name in
  let* rows := read_rows key stream in
  ret (PcCount collection rows todo).

(** A round of the row loop up to [insert_one]. *)
Definition insert_row (collection_name : string) (row : list string)
    (rows : list (list string)) (todo : list string) : M Pc :=
  if len row <? 2 then ret (PcRow collection_name rows todo)
  else
    let doc := mkDoc (nth 0 row EmptyString) (nth 1 row EmptyString) "pending" in
    let* inserted :=
      try_except (insert_one collection_name doc ;;; ret true)
                 (λ e, print MsgErrorInsertingRow ;;; ret false) in
    if inserted then ret (PcRowCount collection_name rows todo)
    else ret (PcRow collection_name rows todo).

Definition worker_step (pc : Pc) : World → Pc * World * list Event :=
  match pc with
  | PcStart => advance PcDead (store_job_running true) (λ _, PcStartTime)
  | PcStartTime =>
      advance PcDead (let* t := time_time in store_start_time (Some t)) (λ _, PcList)
  | PcList =>
      advance PcDead run_list (λ r, match r with None => PcClear | Some ks => PcLoop ks end)
  | PcClear => advance PcDead (store_job_running false) (λ _, PcDone)
  | PcLoop [] => advance PcDead after_loop (λ _, PcDone)
  | PcLoop (key :: todo) =>
      advance PcDead (loop_download key) (λ d, PcInsert d.1.1 d.1.2 d.2 todo)
  | PcInsert key collection_name stream todo =>
      advance PcDead (open_file key collection_name stream todo) id
  | PcCount c rows todo =>
      advance PcDead load_total_count (λ t, PcCountStore c rows t todo)
  | PcCountStore c rows t todo =>
      advance PcDead (store_total_count (t + len rows)) (λ _, PcRow c rows todo)
  | PcRow c [] todo => λ w, (PcLoop todo, w, [])
  | PcRow c (row :: rows) todo => advance PcDead (insert_row c row rows todo) id
  | PcRowCount c rows todo =>
      advance PcDead
        (try_except
           (with_lock (let* v := load_inserted_count in store_inserted_count (v + 1)))
           (λ e, print MsgErrorInsertingRow))
        (λ _, PcRow c rows todo)
  | PcDone => λ w, (PcDone, w, [])
  | PcDead e => λ w, (PcDead e, w, [])
  end.

(** What the function still does from a position of the thread. *)
Definition rest_of (pc : Pc) : M unit :=
  match pc with
  | PcStart => process_all_csv_from_spaces
  | PcStartTime =>
      let* t := time_time in
      store_start_time (Some t) ;;;
      let* r := run_list in
      match r with
      | None => store_job_running false
      | Some csv_files => for_csv_files csv_files ;;; after_loop
      end
  | PcList =>
      let* r := run_list in
      match r with
      | None => store_job_running false
      | Some csv_files => for_csv_files csv_files ;;; after_loop
      end
  | PcClear => store_job_running false
  | PcLoop todo => for_csv_files todo ;;; after_loop
  | PcInsert key collection_name stream todo =>
      insert_csv_from_stream key stream collection_name ;;;
      for_csv_files todo ;;;
      after_loop
  | PcCount c rows todo =>
      (let* t := load_total_count in
       store_total_count (t + len rows) ;;;
       insert_rows c rows) ;;;
      for_csv_files todo ;;;
      after_loop
  | PcCountStore c rows t todo =>
      (store_total_count (t + len rows) ;;;
       insert_rows c rows) ;;;
      for_csv_files todo ;;;
      after_loop
  | PcRow c rows todo =>
      insert_rows c rows ;;;
      for_csv_files todo ;;;
      after_loop
  | PcRowCount c rows todo =>
      (try_except
         (with_lock (let* v := load_inserted_count in store_inserted_count (v + 1)))
         (λ e, print MsgErrorInsertingRow) ;;;
       insert_rows c rows) ;;;
      for_csv_files todo ;;;
      after_loop
  | PcDone => ret tt
  | PcDead e => raise e
  end.

(** *** A stats request as a thread *)

(** The positions of a request in [stats], each before a load of a
    global, in the order of the dictionary display: [RcStart] and
    [RcUptime], the two loads of [start_time]; [RcInserted] and [RcTotal],
    the values of ["inserted"] and ["total"]; [RcProgress], [RcQuotient]
    and [RcDivisor], the three loads of ["progress"]; [RcRunning], the
    value of ["job_running"]. *)
Inductive Rc :=
| RcStart (cpu mem : Q)
| RcUptime (cpu mem : Q)
| RcInserted (cpu mem : Q) (uptime : Z)
| RcTotal (cpu mem : Q) (uptime : Z) (a : Z)
| RcProgress (cpu mem : Q) (uptime : Z) (a b : Z)
| RcQuotient (cpu mem : Q) (uptime : Z) (a b : Z)
| RcDivisor (cpu mem : Q) (uptime : Z) (a b : Z) (a' : Z)
| RcRunning (cpu mem : Q) (uptime : Z) (a b : Z) (progress : Progress)
| RcDone (r : Report)
| RcDead (e : Exn).

Definition report_step (rc : Rc) : World → Rc * World * list Event :=
  match rc with
  | RcStart cpu mem =>
      advance RcDead load_start_time
        (λ s, match s with
              | None => RcInserted cpu mem 0
              | Some s0 => if Qeq_bool s0 0 then RcInserted cpu mem 0 else RcUptime cpu mem
              end)
  | RcUptime cpu mem =>
      advance RcDead
        (let* t := time_time in
         let* s := load_start_time in
         match s with
         | None => raise TypeError
         | Some s1 => ret (RcInserted cpu mem (py_int (t - s1)%Q))
         end) id
  | RcInserted cpu mem uptime =>
      advance RcDead load_inserted_count (λ a, RcTotal cpu mem uptime a)
  | RcTotal cpu mem uptime a =>
      advance RcDead load_total_count (λ b, RcProgress cpu mem uptime a b)
  | RcProgress cpu mem uptime a b =>
      advance RcDead load_total_count
        (λ c, if c =? 0 then RcRunning cpu mem uptime a b ProgressZero
              else RcQuotient cpu mem uptime a b)
  | RcQuotient cpu mem uptime a b =>
      advance RcDead load_inserted_count (λ a', RcDivisor cpu mem uptime a b a')
  | RcDivisor cpu mem uptime a b a' =>
      advance RcDead
        (let* b' := load_total_count in
         if b' =? 0 then raise ZeroDivisionError
         else ret (RcRunning cpu mem uptime a b
                     (ProgressPercent (inject_Z a' / inject_Z b' * 100)%Q))) id
  | RcRunning cpu mem uptime a b progress =>
      advance RcDead load_job_running
        (λ j, RcDone (mkReport a b progress cpu mem uptime j (Qltb cpu 80 && Qltb mem 80)))
  | RcDone r => λ w, (RcDone r, w, [])
  | RcDead e => λ w, (RcDead e, w, [])
  end.

Definition answer (rc : Rc) : option (Exn + Report) :=
  match rc with
  | RcDone r => Some (inr r)
  | RcDead e => Some (inl e)
  | _ => None
  end.

End WithEnv.
End UploadFromSpace1.

(** ** The control surface

    [start_job] and [stop_job] are the same in the two scripts, and each
    makes one access to what is shared: the load of [job_running] in
    [start_job], the store in [stop_job]. The system is the world, the run
    loops started so far and the stats requests received so far, each
    thread at its position. A schedule is a list of arrivals of requests
    and of steps of threads: [Tick tid] is a step of run loop [tid],
    [Tock rid] a step of stats request [rid]. *)

Section Controller.
Context {T R : Type}.
Variable start : T.
Variable step : T → World → T * World * list Event.
Variable ended : T → bool.
Variable request : Q → Q → R.
Variable report_step : R → World → R * World * list Event.
Variable answer : R → option (Exn + Report).

Record Sys := mkSys {
  sys_world : World;
  sys_threads : list T;
  sys_requests : list R
}.

Inductive Call :=
| CallStart
| CallStop
| CallStats (cpu mem : Q)
| Tick (tid : nat)
| Tock (rid : nat).

Inductive Response :=
| JobAlreadyRunning
| JobStarted
| StopSignalSent
| StatsReceived
| StatsPage (r : Exn + Report)
| Stepped.

(** [/start] *)
Definition start_job (s : Sys) : Response * Sys * list Event :=
  if job_running (sys_world s)
  then (JobAlreadyRunning, s, [EvRead VJobRunning])
  else (JobStarted, mkSys (sys_world s) (sys_threads s ++ [start]) (sys_requests s),
        [EvRead VJobRunning]).

(** [/stop] *)
Definition stop_job (s : Sys) : Response * Sys * list Event :=
  (StopSignalSent,
   mkSys (set_job_running false (sys_world s)) (sys_threads s) (sys_requests s),
   [EvWrite VJobRunning]).

(** [/stats] arrives with the samples [cpu] and [mem]; its thread has
    not yet read anything. *)
Definition stats_job (cpu mem : Q) (s : Sys) : Response * Sys * list Event :=
  (StatsReceived,
   mkSys (sys_world s) (sys_threads s) (sys_requests s ++ [request cpu mem]), []).

Definition tick (tid : nat) (s : Sys) : Response * Sys * list Event :=
  match sys_threads s !! tid with
  | None => (Stepped, s, [])
  | Some pc =>
      match step pc (sys_world s) with
      | (pc1, w1, ev) =>
          (Stepped, mkSys w1 (<[tid := pc1]> (sys_threads s)) (sys_requests s), ev)
      end
  end.

(** A step of a stats request; the step that ends it sends the answer. *)
Definition tock (rid : nat) (s : Sys) : Response * Sys * list Event :=
  match sys_requests s !! rid with
  | None => (Stepped, s, [])
  | Some rc =>
      match report_step rc (sys_world s) with
      | (rc1, w1, ev) =>
          (match answer rc, answer rc1 with
           | None, Some r => StatsPage r
           | _, _ => Stepped
           end,
           mkSys w1 (sys_threads s) (<[rid := rc1]> (sys_requests s)), ev)
      end
  end.

Definition call (c : Call) (s : Sys) : Response * Sys * list Event :=
  match c with
  | CallStart => start_job s
  | CallStop => stop_job s
  | CallStats cpu mem => stats_job cpu mem s
  | Tick tid => tick tid s
  | Tock rid => tock rid s
  end.

(** The system after a schedule, with the responses and the events in
    order. *)
Fixpoint exec (cs : list Call) (s : Sys) : Sys * list Response * list Event :=
  match cs with
  | [] => (s, [], [])
  | c :: rest =>
      match call c s with
      | (r, s1, ev1) =>
          match exec rest s1 with
          | (s2, rs, ev2) => (s2, r :: rs, ev1 ++ ev2)
          end
      end
  end.

(** A run loop alone, run for at most [fuel] steps. *)
Fixpoint run_worker (fuel : nat) (pc : T) (w : World) : T * World * list Event :=
  match fuel with
  | O => (pc, w, [])
  | S fuel =>
      match step pc w with
      | (pc1, w1, ev1) =>
          match run_worker fuel pc1 w1 with
          | (pc2, w2, ev2) => (pc2, w2, ev1 ++ ev2)
          end
      end
  end.

(** The run loops at work: the threads that have not ended. *)
Definition at_work (s : Sys) : nat :=
  length (List.filter (λ pc, negb (ended pc)) (sys_threads s)).

(** No run loop is at work. *)
Definition at_rest (s : Sys) : bool := forallb ended (sys_threads s).

(** Along the schedule at most one run loop is at work at a time. *)
Fixpoint one_loop_at_a_time (cs : list Call) (s : Sys) : bool :=
  (at_work s <=? 1)%nat
  && match cs with
     | [] => true
     | c :: rest => one_loop_at_a_time rest (call c s).1.2
     end.

End Controller.

Arguments Sys : clear implicits.
Arguments mkSys {T R} sys_world sys_threads sys_requests.
Arguments sys_world {T R} s.
Arguments sys_threads {T R} s.
Arguments sys_requests {T R} s.

(** The two scripts as systems. *)
Definition EtlSys := Sys EtlApiRunner.Pc EtlApiRunner.Rc.
Definition UploadSys := Sys UploadFromSpace1.Pc UploadFromSpace1.Rc.

Definition etl_exec (env : Env) : list Call → EtlSys → EtlSys * list Response * list Event :=
  exec EtlApiRunner.PcStart (EtlApiRunner.worker_step env)
       EtlApiRunner.RcStart EtlApiRunner.report_step EtlApiRunner.answer.
Definition upload_exec (env : Env) :
    list Call → UploadSys → UploadSys * list Response * list Event :=
  exec UploadFromSpace1.PcStart (UploadFromSpace1.worker_step env)
       UploadFromSpace1.RcStart UploadFromSpace1.report_step UploadFromSpace1.answer.

Definition etl_one_loop_at_a_time (env : Env) : list Call → EtlSys → bool :=
  one_loop_at_a_time EtlApiRunner.PcStart (EtlApiRunner.worker_step env) EtlApiRunner.ended
    EtlApiRunner.RcStart EtlApiRunner.report_step EtlApiRunner.answer.

(** Where a thread that ran its function to the end stands: returned, or
    ended by the exception that left the function. *)
Definition finished {T} (done : T) (dead : Exn → T) (o : (Exn + unit) * World * list Event) :
    T * World * list Event :=
  (match result o with inr _ => done | inl e => dead e end, world o, events o).

(** The events [ev] and then what [o] says. *)
Definition after_events {T} (ev : list Event) (o : T * World * list Event) :
    T * World * list Event :=
  (o.1.1, o.1.2, ev ++ o.2).

(** The thread at [pc], run alone from the world [w], comes to its end. *)
Definition halts {T} (step : T → World → T * World * list Event) (ended : T → bool)
    (pc : T) (w : World) : Prop :=
  ∃ fuel, ended (run_worker step fuel pc w).1.1 = true.

(** ** Predicates on events *)

Definition is_read (e : Event) : bool :=
  match e with EvRead _ => true | _ => false end.

(** A call that starts or continues a download. *)
Definition is_download (e : Event) : bool :=
  match e with
  | EvS3 (HeadObject _) | EvS3 (GetObject _) | EvS3 (ReadBody _) => true
  | _ => false
  end.

Definition is_mongo (e : Event) : bool :=
  match e with EvMongo _ => true | _ => false end.

(** What the two [stats] functions answer, in one statement. *)
Definition stats_answer (cpu mem : Q) (w : World) (o : (Exn + Report) * World * list Event) : Prop :=
  ∃ r, result o = inr r ∧ world o = w
    ∧ rep_inserted r = inserted_count w ∧ rep_total r = total_count w
    ∧ rep_progress r =
        (if total_count w =? 0 then ProgressZero
         else ProgressPercent (inject_Z (inserted_count w) / inject_Z (total_count w) * 100)%Q)
    ∧ (rep_healthy r = true ↔ (cpu < 80)%Q ∧ (mem < 80)%Q)
    ∧ rep_job_running r = job_running w.

(** A run that ends before any file: the job flag is down again, the
    counters and the database are as before, and nothing was downloaded
    and nothing was asked of Mongo. *)
Definition ended_without_files (w : World) (o : (Exn + unit) * World * list Event) : Prop :=
  result o = inr tt
  ∧ job_running (world o) = false
  ∧ inserted_count (world o) = inserted_count w
  ∧ total_count (world o) = total_count w
  ∧ db (world o) = db w
  ∧ existsb is_download (events o) = false
  ∧ existsb is_mongo (events o) = false.

(** The listing answered, and there is no object in the answer. *)
Definition no_objects (r : Exn + option (list string)) : Prop :=
  r = inr None ∨ r = inr (Some []).

(** Two worlds that differ at most in [job_running]. *)
Definition same_but_flag (w w' : World) : Prop :=
  set_job_running false w = set_job_running false w'.

(** A computation that never looks at [job_running]: from two worlds that
    differ at most in the flag it gives the same result and the same
    events, and worlds that again differ at most in the flag. *)
Definition oblivious {A} (m : M A) : Prop :=
  ∀ w w', same_but_flag w w' →
    result (m w) = result (m w')
    ∧ events (m w) = events (m w')
    ∧ same_but_flag (world (m w)) (world (m w')).

(** A step function that never looks at [job_running]. *)
Definition oblivious_step {T} (step : T → World → T * World * list Event) : Prop :=
  ∀ pc w w', same_but_flag w w' →
    (step pc w).1.1 = (step pc w').1.1
    ∧ (step pc w).2 = (step pc w').2
    ∧ same_but_flag (step pc w).1.2 (step pc w').1.2.

(** Every step of a thread runs a computation with the property [Φ], or
    leaves everything as it is. *)
Definition stepwise {T} (Φ : ∀ A : Type, M A → Prop) (dead : Exn → T)
    (step : T → World → T * World * list Event) : Prop :=
  ∀ pc, (∃ A (m : M A) (k : A → T), Φ A m ∧ ∀ w, step pc w = advance dead m k w)
        ∨ (∃ pc', ∀ w, step pc w = (pc', w, [])).

Definition is_get_object (key : string) (e : Event) : bool :=
  match e with EvS3 (GetObject k) => String.eqb k key | _ => false end.

Definition is_insert_into (collection_name : string) (e : Event) : bool :=
  match e with EvMongo (InsertOne c _) => String.eqb c collection_name | _ => false end.

(** Neither counter is lower in [w'] than in [w]. *)
Definition not_lowered (w w' : World) : Prop :=
  inserted_count w ≤ inserted_count w' ∧ total_count w ≤ total_count w'.

(** What [/start] does at the system [s]. With the flag up (Running):
    nothing but the answer. With the flag down and no run loop at work
    (Idle): a new thread and nothing else; the first two steps of that
    thread raise the flag and set [start_time], with no other store and no
    call of S3 or Mongo; and the counters are not reset: along any
    schedule after the request, whatever the requests and however many
    runs, neither counter is ever lower than it was at the request. With
    the flag down and a run loop at work (after [/stop], say) nothing is
    stated. *)
Definition start_job_answer {T R} (start : T) (step : T → World → T * World * list Event)
    (ended : T → bool) (request : Q → Q → R)
    (report_step : R → World → R * World * list Event) (answer : R → option (Exn + Report))
    (s : Sys T R) : Prop :=
  (job_running (sys_world s) = true →
     start_job start s = (JobAlreadyRunning, s, [EvRead VJobRunning]))
  ∧ (job_running (sys_world s) = false → at_rest ended s = true →
     let s1 := mkSys (sys_world s) (sys_threads s ++ [start]) (sys_requests s) in
     start_job start s = (JobStarted, s1, [EvRead VJobRunning])
     ∧ (∃ pc, run_worker step 2 start (sys_world s)
              = (pc, set_start_time (Some (now (sys_world s)))
                       (set_job_running true (sys_world s)),
                 [EvWrite VJobRunning; EvWrite VStartTime]))
     ∧ ∀ calls,
         not_lowered (sys_world s)
           (sys_world (exec start step request report_step answer calls s1).1.1)).

(** The claim that [/start] resets the counters, at a system [s] whose
    flag is down and where no run loop is at work: after the request and
    the first step of the thread it starts, which comes before any file,
    the flag is up and both counters are 0. *)
Definition start_resets_counters {T R} (start : T) (step : T → World → T * World * list Event)
    (s : Sys T R) : Prop :=
  let s1 := (start_job start s).1.2 in
  let s2 := (tick step (length (sys_threads s)) s1).1.2 in
  job_running (sys_world s2) = true
  ∧ inserted_count (sys_world s2) = 0
  ∧ total_count (sys_world s2) = 0.

(** ** Rows, documents and counters *)

(** A row with at least 2 fields. *)
Definition well_formed (row : list string) : bool := 2 <=? len row.

Definition malformed (row : list string) : bool := negb (well_formed row).

(** The document the scripts build from a row. *)
Definition doc_of_row (row : list string) : Doc :=
  mkDoc (nth 0 row EmptyString) (nth 1 row EmptyString) "pending".

(** A call of Mongo among the events is about a well-formed row of
    [rows]: [insert_one] carries the document of the row, [find_one] asks
    for its first field. Any other event passes. *)
Definition inserts_from (rows : list (list string)) (e : Event) : Prop :=
  match e with
  | EvMongo (InsertOne _ d) =>
      ∃ row, row ∈ rows ∧ well_formed row = true ∧ d = doc_of_row row
  | EvMongo (FindOne _ uid) =>
      ∃ row, row ∈ rows ∧ well_formed row = true ∧ uid = nth 0 row EmptyString
  | _ => True
  end.

(** What processing a file with the rows [rows] does to the counters, from
    the world [w]: [total_count] grows by the number of rows, well-formed
    and malformed together; [inserted_count] grows by at most the number
    of well-formed rows; every document handed to [insert_one] comes from
    a well-formed row. *)
Definition counts_file (rows : list (list string)) (w : World)
    (o : (Exn + unit) * World * list Event) : Prop :=
  let n_well := len (List.filter well_formed rows) in
  let n_mal := len (List.filter malformed rows) in
  result o = inr tt
  ∧ len rows = n_well + n_mal
  ∧ total_count (world o) = total_count w + (n_well + n_mal)
  ∧ inserted_count w ≤ inserted_count (world o) ≤ inserted_count w + n_well
  ∧ Forall (inserts_from rows) (events o).

(** The claim that the writer only sees non-empty keys: no call of Mongo
    among the events has the empty string as [url_id]. *)
Definition key_nonempty (e : Event) : bool :=
  match e with
  | EvMongo (InsertOne _ d) => negb (String.eqb (url_id d) EmptyString)
  | EvMongo (FindOne _ uid) => negb (String.eqb uid EmptyString)
  | _ => true
  end.

Definition keys_nonempty (evs : list Event) : Prop := forallb key_nonempty evs = true.

(** The number of documents of [docs] whose [url_id] is [uid]. *)
Definition count_key (uid : string) (docs : list Doc) : Z :=
  len (List.filter (λ d, String.eqb (url_id d) uid) docs).

(** None of the coming Mongo calls raises. *)
Definition no_faults (w : World) : Prop := forallb negb (mongo_faults w) = true.

(** Two attempts of the writer of etl_api_runner.py in sequence, on
    records with the same [url_id], into the same collection: afterwards
    the collection holds exactly one document with that [url_id], and the
    second attempt did nothing but look the key up and report the
    duplicate. *)
Definition idempotent_dedup (c uid x y : string) (i j : Z) (w : World) : Prop :=
  let o1 := EtlApiRunner.try_insert c i (mkDoc uid x "pending") w in
  let o2 := EtlApiRunner.try_insert c j (mkDoc uid y "pending") (world o1) in
  count_key uid (collection c (db (world o2))) = 1
  ∧ events o2 = [EvMongo (FindOne c uid); EvPrint (MsgSkippedDuplicate uid)].

(** The events of the file with the rows [rows] only name keys and
    documents of its well-formed rows. *)
Definition keys_from_rows (rows : list (list string))
    (o : (Exn + unit) * World * list Event) : Prop :=
  Forall (inserts_from rows) (events o).

(** A print or a call of S3. *)
Definition is_io (e : Event) : bool :=
  match e with EvPrint _ | EvS3 _ => true | _ => false end.

(** A file whose download failed is passed over: the run goes on with the
    keys [rest] from the world [w] it was in before the file, and the
    events of the file are prints and S3 calls only, the last of them the
    report of the failure. *)
Definition passed_over (filename : string) (w : World)
    (o o_rest : (Exn + unit) * World * list Event) : Prop :=
  result o = result o_rest
  ∧ world o = world o_rest
  ∧ ∃ evs, events o = evs ++ events o_rest
           ∧ forallb is_io evs = true
           ∧ last evs = Some (EvPrint (MsgFailedDownload filename)).

(** ** The lock *)









(** ** Properties that follow the structure of a computation *)

(** A property of computations that holds of the primitives the run loop
    uses and passes through [bind] and [try_except]. The increment of
    [inserted_count] under the lock counts as one primitive; a bare store
    of [inserted_count], a bare lock operation and a load of
    [job_running] are not among them. *)
Record Compositional (Φ : ∀ A : Type, M A → Prop) : Prop := mkCompositional {
  c_ret : ∀ A (a : A), Φ A (ret a);
  c_raise : ∀ A (e : Exn), Φ A (raise e);
  c_bind : ∀ A B (m : M A) (f : A → M B), Φ A m → (∀ a, Φ B (f a)) → Φ B (bind m f);
  c_try_except : ∀ A (m : M A) (h : Exn → M A),
    Φ A m → (∀ e, Φ A (h e)) → Φ A (try_except m h);
  c_print : ∀ m, Φ unit (print m);
  c_s3 : ∀ c, Φ unit (emit (EvS3 c));
  c_mongo : ∀ c, Φ unit (emit (EvMongo c));
  c_load_inserted_count : Φ Z load_inserted_count;
  c_load_total_count : Φ Z load_total_count;
  c_load_start_time : Φ (option Q) load_start_time;
  c_store_total_count : ∀ v, Φ unit (store_total_count v);
  c_store_start_time : ∀ v, Φ unit (store_start_time v);
  c_store_job_running : ∀ v, Φ unit (store_job_running v);
  c_time_time : Φ Q time_time;
  c_mongo_fault : Φ unit mongo_fault;
  c_db_find : ∀ c u, Φ (option Doc) (db_find c u);
  c_db_append : ∀ c d, Φ unit (db_append c d);
  c_increment :
    Φ unit (with_lock (let* v := load_inserted_count in store_inserted_count (v + 1)))
}.

(** ** What a file does to the database *)

(** The keys of the documents of a collection, oldest first. *)
Definition keys (docs : list Doc) : list string := List.map url_id docs.

(** The documents of the well-formed rows of a file, in the order of the
    file. *)
Definition rows_docs (rows : list (list string)) : list Doc :=
  List.map doc_of_row (List.filter well_formed rows).

(** Between [w] and [w'] the documents [added] were appended to the
    collection [c], in this order, and [inserted_count] grew by their
    number; the documents the collection held stay in place, the other
    collections are as before, and so are [job_running], [start_time] and
    the clock. *)
Definition appended (c : string) (added : list Doc) (w w' : World) : Prop :=
  collection c (db w') = collection c (db w) ++ added
  ∧ (∀ c', c' ≠ c → db w' !! c' = db w !! c')
  ∧ inserted_count w' = inserted_count w + len added
  ∧ job_running w' = job_running w
  ∧ start_time w' = start_time w
  ∧ now w' = now w.

(** The world after a document was stored and counted: [d] at the end of
    the collection [c], [inserted_count] one up, the Mongo calls still to
    come are [fs]. *)
Definition stored (c : string) (d : Doc) (fs : list bool) (w : World) : World :=
  set_inserted_count (inserted_count w + 1)
    (set_db (<[c := collection c (db w) ++ [d]]> (db w)) (set_mongo_faults fs w)).

(** No two documents of a collection have the same key. *)
Definition unique_keys (d : gmap string (list Doc)) : Prop :=
  ∀ c, NoDup (keys (collection c d)).

(** The counters from [w] to [w']: none of them went down, and
    [inserted_count] is at most [total_count] afterwards when it was
    before. *)
Definition grows (w w' : World) : Prop :=
  inserted_count w ≤ inserted_count w'
  ∧ total_count w ≤ total_count w'
  ∧ (inserted_count w ≤ total_count w → inserted_count w' ≤ total_count w').

Definition is_s3 (e : Event) : bool :=
  match e with EvS3 _ => true | _ => false end.

(** The keys [head_object] was called for, in order. *)
Definition head_keys (evs : list Event) : list string :=
  omap (λ e, match e with EvS3 (HeadObject k) => Some k | _ => None end) evs.

(** The rows [insert_csv_from_stream] of upload_from_space1.py gets out
    of a stream: [None] when the read, the decoding or the parse
    raises. *)
Definition upload_rows (env : Env) (stream : list (option bytes)) : option (list (list string)) :=
  match UploadFromSpace1.read_all stream with
  | inl _ => None
  | inr data => csv_rows env data
  end.

(** What a file does to its collection and to the counters, given the
    rows it parsed to ([None]: it did not parse): documents of well-formed
    rows are appended in the order of the file and each is counted in
    [inserted_count], [total_count] grows by the number of rows, and
    nothing else moves. *)
Definition file_appends (c : string) (rows : option (list (list string))) (w : World)
    (o : (Exn + unit) * World * list Event) : Prop :=
  ∃ added,
    appended c added w (world o)
    ∧ added `sublist_of` rows_docs (default [] rows)
    ∧ total_count (world o) = total_count w + len (default [] rows).

(** What a call of [insert_csv_from_stream] does, by the name it is
    given: with a name the driver accepts, what [file_appends] says of the
    collection of that name; with a name it refuses, or with [None], the
    call raises and the world is as before. *)
Definition file_outcome (collection_name : option string) (rows : option (list (list string)))
    (w : World) (o : (Exn + unit) * World * list Event) : Prop :=
  match collection_name with
  | Some c =>
      if name_refused c then result o = inl InvalidName ∧ world o = w
      else file_appends c rows w o
  | None => result o = inl TypeError ∧ world o = w
  end.


(** The keys the loop of a run goes through: the keys of the listing that
    end in [.csv], in the order of the listing. *)
Definition keys_to_process (env : Env) : list string :=
  match list_objects_v2 env with
  | inr (Some contents) => csv_files_of contents
  | _ => []
  end.

(** A schedule made of steps of the run loops and of [/stop] requests
    only. *)
Definition steps_and_stops (calls : list Call) : bool :=
  forallb (λ c, match c with Tick _ | CallStop => true | _ => false end) calls.

(** ** The counters and the threads *)





(** What a run loop holds in its local variables agrees with the world:
    the value it has loaded for [total_count += len(rows)] is the value of
    [total_count]. It is so as long as no other run loop stores
    [total_count] in between. *)
Definition etl_up_to_date (pc : EtlApiRunner.Pc) (w : World) : Prop :=
  match pc with
  | EtlApiRunner.PcCountStore _ _ _ t _ => t = total_count w
  | _ => True
  end.

Definition upload_up_to_date (pc : UploadFromSpace1.Pc) (w : World) : Prop :=
  match pc with
  | UploadFromSpace1.PcCountStore _ _ t _ => t = total_count w
  | _ => True
  end.

(** The value of [total_count] a run loop has loaded for
    [total_count += len(rows)] and not yet stored, if it is between the
    two. *)
Definition etl_loaded (pc : EtlApiRunner.Pc) : option Z :=
  match pc with
  | EtlApiRunner.PcCountStore _ _ _ t _ => Some t
  | _ => None
  end.

Definition upload_loaded (pc : UploadFromSpace1.Pc) : option Z :=
  match pc with
  | UploadFromSpace1.PcCountStore _ _ t _ => Some t
  | _ => None
  end.

(** The value, if there is one, is at least [n]. *)
Definition above (n : Z) (o : option Z) : Prop :=
  match o with
  | Some t => n ≤ t
  | None => True
  end.







(** ** Scenarios *)

Module Scenario.

(** The rows [csv.reader] gives on text without quotes and carriage
    returns: one row a line, the fields between the commas, no field for an
    empty line. It stands for [csv_rows] in the scenarios. *)
Fixpoint split_on (sep : ascii) (s : string) : list string :=
  match s with
  | EmptyString => [EmptyString]
  | String a r =>
      if Ascii.eqb a sep then EmptyString :: split_on sep r
      else match split_on sep r with
           | [] => [String a EmptyString]
           | f :: fs => String a f :: fs
           end
  end.

Definition drop_last_empty (l : list string) : list string :=
  match reverse l with
  | EmptyString :: r => reverse r
  | _ => l
  end.

Definition csv_unquoted (data : bytes) : option (list (list string)) :=
  let text := string_of_list_byte data in
  Some (List.map (λ line, match line with EmptyString => [] | _ => split_on "," line end)
                 (drop_last_empty (split_on "010" text))).

Definition file (text : string) : S3Object :=
  mkS3Object (Some (len (list_byte_of_string text))) (Some [Some (list_byte_of_string text)]).

Definition unreachable : S3Object := mkS3Object None None.

Definition lf : string := String "010" EmptyString.

(** A bucket with [a.csv] (two rows) and [b.csv] (one row). *)
Definition two_files : Env :=
  mkEnv "per_file" (Some "urls") (inr (Some ["a.csv"; "b.csv"; "notes.txt"]))
        (λ key, if String.eqb key "a.csv" then file ("1,http://x" ++ lf ++ "2,http://y" ++ lf)
                else if String.eqb key "b.csv" then file ("1,http://z" ++ lf)
                else unreachable)
        csv_unquoted.

Definition idle : World := mkWorld 0 0 false None ∅ [] 0%Q.

(** A file that names the key ["1"] in two rows. *)
Definition twice_1 : bytes :=
  list_byte_of_string ("1,http://x" ++ lf ++ "1,http://y" ++ lf).

(** The world after upload_from_space1.py has inserted [twice_1] into the
    collection ["a"]. *)
Definition after_upload_of_twice_1 : World :=
  world (UploadFromSpace1.insert_csv_from_stream two_files "a.csv" [Some twice_1] (Some "a") idle).


(** A file whose only row has an empty first field. *)
Definition empty_key_row : bytes := list_byte_of_string (",http://x" ++ lf).

End Scenario.

(** * Properties *)

(** ** The library functions and the scenario *)

Example basename_ex : basename "data/2024/a.csv" = "a.csv" ∧ basename "a.csv" = "a.csv"
  ∧ basename "dir/" = EmptyString.
Proof. repeat split; reflexivity. Qed.

Example splitext_ex : splitext_root "a.csv" = "a" ∧ splitext_root ".csv" = ".csv"
  ∧ splitext_root "a.b.csv" = "a.b" ∧ splitext_root "noext" = "noext"
  ∧ splitext_root "x.d/file" = "x.d/file".
Proof. repeat split; reflexivity. Qed.

Example endswith_ex : endswith "p/a.csv" ".csv" = true ∧ endswith "csv" ".csv" = false
  ∧ endswith "a.csv.bak" ".csv" = false.
Proof. repeat split; reflexivity. Qed.

Example csv_unquoted_ex :
  Scenario.csv_unquoted (list_byte_of_string ("1,http://x" ++ Scenario.lf ++ "bad" ++ Scenario.lf ++ Scenario.lf ++ ",y"))
  = Some [["1"; "http://x"]; ["bad"]; []; [EmptyString; "y"]].
Proof. reflexivity. Qed.

Example full_run_ex :
  let o := EtlApiRunner.process_all_csv_from_spaces Scenario.two_files Scenario.idle in
  collection "a" (db (world o)) = [mkDoc "1" "http://x" "pending"; mkDoc "2" "http://y" "pending"]
  ∧ collection "b" (db (world o)) = [mkDoc "1" "http://z" "pending"]
  ∧ total_count (world o) = 3 ∧ inserted_count (world o) = 3 ∧ job_running (world o) = false.
Proof. vm_compute. repeat split; reflexivity. Qed.

(** ** Laws of the monad *)

Lemma bind_ret_l {A B} (a : A) (f : A → M B) w : bind (ret a) f w = f a w.
Proof. unfold bind, ret. by destruct (f a w) as [[r w2] ev2]. Qed.

Lemma bind_assoc {A B C} (m : M A) (f : A → M B) (g : B → M C) w :
  bind (bind m f) g w = bind m (λ a, bind (f a) g) w.
Proof.
  unfold bind. destruct (m w) as [[[e|a] w1] ev1]; [done|].
  destruct (f a w1) as [[[e|b] w2] ev2]; [done|].
  destruct (g b w2) as [[r w3] ev3]. by rewrite app_assoc.
Qed.

Lemma Qltb_lt (x y : Q) : Qltb x y = true ↔ (x < y)%Q.
Proof.
  unfold Qltb. rewrite negb_true_iff. split.
  - intros H. apply Qnot_le_lt. intros Hle. apply Qle_bool_iff in Hle. congruence.
  - intros H. destruct (Qle_bool y x) eqn:E; [|done].
    apply Qle_bool_iff in E. exfalso. by apply (Qlt_not_le x y).
Qed.

Lemma bind_print {B} (msg : Msg) (f : unit → M B) w :
  bind (print msg) f w = ((f tt w).1.1, (f tt w).1.2, EvPrint msg :: (f tt w).2).
Proof. unfold bind, print, emit. by destruct (f tt w) as [[r w2] ev2]. Qed.

(** [db[collection_name]] gives the name back, or raises with nothing
    changed and nothing emitted. *)
Lemma db_getitem_cases cn w :
  (∃ c, cn = Some c ∧ name_refused c = false ∧ db_getitem cn w = (inr c, w, []))
  ∨ (∃ e, db_getitem cn w = (inl e, w, [])
          ∧ (cn = None ∨ ∃ c, cn = Some c ∧ name_refused c = true)).
Proof.
  unfold db_getitem. destruct cn as [c|].
  - destruct (name_refused c) eqn:E.
    + right. exists InvalidName. split; [done|]. right. by exists c.
    + left. by exists c.
  - right. exists TypeError. split; [done|]. by left.
Qed.

Lemma db_getitem_accepted c w :
  name_refused c = false → db_getitem (Some c) w = (inr c, w, []).
Proof. intros H. unfold db_getitem. by rewrite H. Qed.

(** [insert_csv_from_stream] with a name the driver accepts goes on with
    the collection; with any other name it raises at once. *)
Lemma etl_insert_accepted env stream c w :
  name_refused c = false →
  EtlApiRunner.insert_csv_from_stream env stream (Some c) w
  = EtlApiRunner.insert_csv_into env stream c w.
Proof.
  intros H. unfold EtlApiRunner.insert_csv_from_stream, bind.
  rewrite (db_getitem_accepted c w H).
  by destruct (EtlApiRunner.insert_csv_into env stream c w) as [[r w1] ev].
Qed.

Lemma upload_insert_accepted env key stream c w :
  name_refused c = false →
  UploadFromSpace1.insert_csv_from_stream env key stream (Some c) w
  = UploadFromSpace1.insert_csv_into env key stream c w.
Proof.
  intros H. unfold UploadFromSpace1.insert_csv_from_stream, bind.
  rewrite (db_getitem_accepted c w H).
  by destruct (UploadFromSpace1.insert_csv_into env key stream c w) as [[r w1] ev].
Qed.

Lemma etl_insert_refused env stream cn w :
  (∀ c, cn = Some c → name_refused c = true) →
  ∃ e, EtlApiRunner.insert_csv_from_stream env stream cn w = (inl e, w, []).
Proof.
  intros H. unfold EtlApiRunner.insert_csv_from_stream, bind.
  destruct (db_getitem_cases cn w) as [(c & -> & Hc & E)|(e & E & _)].
  - rewrite (H c eq_refl) in Hc. done.
  - rewrite E. by exists e.
Qed.

Lemma upload_insert_refused env key stream cn w :
  (∀ c, cn = Some c → name_refused c = true) →
  ∃ e, UploadFromSpace1.insert_csv_from_stream env key stream cn w = (inl e, w, []).
Proof.
  intros H. unfold UploadFromSpace1.insert_csv_from_stream, bind.
  destruct (db_getitem_cases cn w) as [(c & -> & Hc & E)|(e & E & _)].
  - rewrite (H c eq_refl) in Hc. done.
  - rewrite E. by exists e.
Qed.

(** Whatever the name, the call is the call with an accepted name, or
    raises with nothing changed and nothing emitted. *)
Lemma etl_insert_cases env stream cn w :
  (∃ c, cn = Some c ∧ name_refused c = false
        ∧ EtlApiRunner.insert_csv_from_stream env stream cn w
          = EtlApiRunner.insert_csv_into env stream c w)
  ∨ (∃ e, EtlApiRunner.insert_csv_from_stream env stream cn w = (inl e, w, [])).
Proof.
  destruct cn as [c|].
  - destruct (name_refused c) eqn:E.
    + right. apply etl_insert_refused. intros c' [= <-]. done.
    + left. exists c. split_and!; try done. by apply etl_insert_accepted.
  - right. by apply etl_insert_refused.
Qed.

Lemma upload_insert_cases env key stream cn w :
  (∃ c, cn = Some c ∧ name_refused c = false
        ∧ UploadFromSpace1.insert_csv_from_stream env key stream cn w
          = UploadFromSpace1.insert_csv_into env key stream c w)
  ∨ (∃ e, UploadFromSpace1.insert_csv_from_stream env key stream cn w = (inl e, w, [])).
Proof.
  destruct cn as [c|].
  - destruct (name_refused c) eqn:E.
    + right. apply upload_insert_refused. intros c' [= <-]. done.
    + left. exists c. split_and!; try done. by apply upload_insert_accepted.
  - right. by apply upload_insert_refused.
Qed.

(** ** The report of [/stats] *)

Lemma uptime_of_total (w : World) :
  ∃ u ev, uptime_of w = (inr u, w, ev) ∧ forallb is_read ev = true.
Proof.
  unfold uptime_of, bind, load_start_time, time_time, ret. simpl.
  destruct (start_time w) as [s0|] eqn:E; simpl.
  - destruct (Qeq_bool s0 0); simpl.
    + by eexists _, _.
    + rewrite E. simpl. by eexists _, _.
  - by eexists _, _.
Qed.

Lemma progress_of_total (w : World) :
  ∃ ev, progress_of w =
        (inr (if total_count w =? 0 then ProgressZero
              else ProgressPercent (inject_Z (inserted_count w) / inject_Z (total_count w) * 100)%Q),
         w, ev) ∧ forallb is_read ev = true.
Proof.
  unfold progress_of, bind, load_total_count, load_inserted_count, ret. simpl.
  destruct (total_count w =? 0) eqn:E; simpl.
  - by eexists.
  - rewrite E. simpl. by eexists.
Qed.

Lemma healthy_iff (cpu mem : Q) :
  Qltb cpu 80 && Qltb mem 80 = true ↔ (cpu < 80)%Q ∧ (mem < 80)%Q.
Proof. by rewrite andb_true_iff, !Qltb_lt. Qed.

Lemma etl_stats_answer cpu mem w : stats_answer cpu mem w (EtlApiRunner.stats cpu mem w).
Proof.
  destruct (uptime_of_total w) as (u & ev1 & Hu & _).
  destruct (progress_of_total w) as (ev2 & Hp & _).
  unfold EtlApiRunner.stats, bind, load_inserted_count, load_total_count,
    load_job_running, ret.
  rewrite Hu. simpl. rewrite Hp.
  unfold stats_answer, result, world. simpl.
  eexists. split_and!; try reflexivity. apply healthy_iff.
Qed.

Lemma upload_stats_answer cpu mem w : stats_answer cpu mem w (UploadFromSpace1.stats cpu mem w).
Proof.
  destruct (uptime_of_total w) as (u & ev1 & Hu & _).
  destruct (progress_of_total w) as (ev2 & Hp & _).
  unfold UploadFromSpace1.stats, bind, load_inserted_count, load_total_count,
    load_job_running, ret.
  rewrite Hu. simpl. rewrite Hp.
  unfold stats_answer, result, world. simpl.
  eexists. split_and!; try reflexivity. apply healthy_iff.
Qed.

(** C8. A stats request always answers; the progress it reports is the
    literal 0% when [total_count] is 0 and the quotient
    [inserted_count/total_count] times 100 otherwise; [healthy] is true
    exactly when the CPU sample and the memory sample are both below 80.
    It holds for the page of etl_api_runner.py and for the JSON of
    upload_from_space1.py. *)
Theorem stats_progress_and_health (cpu mem : Q) (w : World) :
  stats_answer cpu mem w (EtlApiRunner.stats cpu mem w)
  ∧ stats_answer cpu mem w (UploadFromSpace1.stats cpu mem w).
Proof. split; [apply etl_stats_answer | apply upload_stats_answer]. Qed.

(** ** Runs that end at the listing *)

Lemma etl_listing_failure (env : Env) (w : World) (e : Exn) :
  list_objects_v2 env = inl e →
  EtlApiRunner.process_all_csv_from_spaces env w =
    (inr tt,
     set_job_running false (set_start_time (Some (now w)) (set_job_running true w)),
     [EvWrite VJobRunning; EvWrite VStartTime; EvPrint MsgScanning; EvS3 ListObjectsV2;
      EvPrint MsgFailedList; EvWrite VJobRunning]).
Proof.
  intros H.
  unfold EtlApiRunner.process_all_csv_from_spaces, bind, try_except, s3_list_objects_v2,
    store_job_running, store_start_time, time_time, print, emit, raise, ret.
  simpl. rewrite H. reflexivity.
Qed.

Lemma etl_no_contents (env : Env) (w : World) :
  list_objects_v2 env = inr None →
  EtlApiRunner.process_all_csv_from_spaces env w =
    (inr tt,
     set_job_running false (set_start_time (Some (now w)) (set_job_running true w)),
     [EvWrite VJobRunning; EvWrite VStartTime; EvPrint MsgScanning; EvS3 ListObjectsV2;
      EvPrint MsgNoCsvFiles; EvWrite VJobRunning]).
Proof.
  intros H.
  unfold EtlApiRunner.process_all_csv_from_spaces, bind, try_except, s3_list_objects_v2,
    store_job_running, store_start_time, time_time, print, emit, raise, ret.
  simpl. rewrite H. reflexivity.
Qed.

Lemma etl_empty_contents (env : Env) (w : World) :
  list_objects_v2 env = inr (Some []) →
  EtlApiRunner.process_all_csv_from_spaces env w =
    (inr tt,
     set_job_running false (set_start_time (Some (now w)) (set_job_running true w)),
     [EvWrite VJobRunning; EvWrite VStartTime; EvPrint MsgScanning; EvS3 ListObjectsV2;
      EvPrint (MsgFound 0); EvWrite VJobRunning; EvRead VStartTime;
      EvRead VInsertedCount; EvRead VTotalCount;
      EvPrint (MsgAllComplete (py_int (now w - now w)%Q) (inserted_count w) (total_count w))]).
Proof.
  intros H.
  unfold EtlApiRunner.process_all_csv_from_spaces, EtlApiRunner.after_loop, bind, try_except,
    s3_list_objects_v2, store_job_running, store_start_time, load_start_time,
    load_inserted_count, load_total_count, time_time, print, emit, raise, ret.
  simpl. rewrite H. reflexivity.
Qed.

Lemma upload_no_contents (env : Env) (w : World) :
  list_objects_v2 env = inr None →
  UploadFromSpace1.process_all_csv_from_spaces env w =
    (inr tt,
     set_job_running false (set_start_time (Some (now w)) (set_job_running true w)),
     [EvWrite VJobRunning; EvWrite VStartTime; EvPrint MsgScanning; EvS3 ListObjectsV2;
      EvPrint MsgNoFiles; EvWrite VJobRunning]).
Proof.
  intros H.
  unfold UploadFromSpace1.process_all_csv_from_spaces, bind, try_except, s3_list_objects_v2,
    store_job_running, store_start_time, time_time, print, emit, raise, ret.
  simpl. rewrite H. reflexivity.
Qed.

Lemma upload_empty_contents (env : Env) (w : World) :
  list_objects_v2 env = inr (Some []) →
  UploadFromSpace1.process_all_csv_from_spaces env w =
    (inr tt,
     set_job_running false (set_start_time (Some (now w)) (set_job_running true w)),
     [EvWrite VJobRunning; EvWrite VStartTime; EvPrint MsgScanning; EvS3 ListObjectsV2;
      EvPrint (MsgFound 0); EvWrite VJobRunning; EvPrint MsgAllUploadsComplete]).
Proof.
  intros H.
  unfold UploadFromSpace1.process_all_csv_from_spaces, UploadFromSpace1.after_loop, bind,
    try_except, s3_list_objects_v2, store_job_running, store_start_time, time_time, print,
    emit, raise, ret.
  simpl. rewrite H. reflexivity.
Qed.

(** In etl_api_runner.py a listing that raises ends the run: the flag is
    down, no file was touched, the counters are as before. *)
Lemma etl_listing_failure_is_fatal (env : Env) (w : World) (e : Exn) :
  list_objects_v2 env = inl e →
  ended_without_files w (EtlApiRunner.process_all_csv_from_spaces env w).
Proof.
  intros H. rewrite (etl_listing_failure env w e H).
  unfold ended_without_files, result, world, events. simpl. done.
Qed.

(** C10. When the listing answers without objects (no ['Contents'], or an
    empty one), the run ends at once: [job_running] is false again, no
    object is downloaded, Mongo is not called, and [inserted_count],
    [total_count] and the database are as before. It holds for both
    scripts. *)
Theorem empty_listing_ends_run (env : Env) (w : World) :
  no_objects (list_objects_v2 env) →
  ended_without_files w (EtlApiRunner.process_all_csv_from_spaces env w)
  ∧ ended_without_files w (UploadFromSpace1.process_all_csv_from_spaces env w).
Proof.
  intros [H|H].
  - rewrite (etl_no_contents env w H), (upload_no_contents env w H).
    unfold ended_without_files, result, world, events. simpl. done.
  - rewrite (etl_empty_contents env w H), (upload_empty_contents env w H).
    unfold ended_without_files, result, world, events. simpl. done.
Qed.

Lemma empty_listing_ends_run_witness :
  let env := mkEnv "per_file" (Some "urls") (inr None) (λ _, Scenario.unreachable) Scenario.csv_unquoted in
  no_objects (list_objects_v2 env)
  ∧ ended_without_files Scenario.idle (EtlApiRunner.process_all_csv_from_spaces env Scenario.idle)
  ∧ ended_without_files Scenario.idle (UploadFromSpace1.process_all_csv_from_spaces env Scenario.idle).
Proof.
  intros env.
  assert (H : no_objects (list_objects_v2 env)) by (left; reflexivity).
  split; [exact H | exact (empty_listing_ends_run env Scenario.idle H)].
Defined.

Lemma upload_listing_failure (env : Env) (w : World) (e : Exn) :
  list_objects_v2 env = inl e →
  UploadFromSpace1.process_all_csv_from_spaces env w =
    (inl e,
     set_start_time (Some (now w)) (set_job_running true w),
     [EvWrite VJobRunning; EvWrite VStartTime; EvPrint MsgScanning; EvS3 ListObjectsV2]).
Proof.
  intros H.
  unfold UploadFromSpace1.process_all_csv_from_spaces, bind, try_except, s3_list_objects_v2,
    store_job_running, store_start_time, time_time, print, emit, raise, ret.
  simpl. rewrite H. reflexivity.
Qed.

(** C5. When the listing call raises: etl_api_runner.py catches the
    exception, reports it, clears [job_running] and returns, with no file
    touched and the counters as before. upload_from_space1.py has the call
    outside any [try]: the exception leaves
    [process_all_csv_from_spaces], the thread ends, no file is touched, and
    [job_running] stays true. *)
Theorem listing_failure_in_both_scripts (env : Env) (w : World) (e : Exn) :
  list_objects_v2 env = inl e →
  ended_without_files w (EtlApiRunner.process_all_csv_from_spaces env w)
  ∧ UploadFromSpace1.process_all_csv_from_spaces env w =
      (inl e,
       set_start_time (Some (now w)) (set_job_running true w),
       [EvWrite VJobRunning; EvWrite VStartTime; EvPrint MsgScanning; EvS3 ListObjectsV2])
  ∧ job_running (world (UploadFromSpace1.process_all_csv_from_spaces env w)) = true.
Proof.
  intros H. split; [by eapply etl_listing_failure_is_fatal|].
  rewrite (upload_listing_failure env w e H). done.
Qed.

Lemma listing_failure_in_both_scripts_witness :
  let env := mkEnv "per_file" (Some "urls") (inl ClientError) (λ _, Scenario.unreachable)
               Scenario.csv_unquoted in
  list_objects_v2 env = inl ClientError
  ∧ ended_without_files Scenario.idle
      (EtlApiRunner.process_all_csv_from_spaces env Scenario.idle)
  ∧ job_running (world (UploadFromSpace1.process_all_csv_from_spaces env Scenario.idle)) = true.
Proof.
  intros env.
  assert (H : list_objects_v2 env = inl ClientError) by reflexivity.
  destruct (listing_failure_in_both_scripts env Scenario.idle ClientError H) as (H1 & _ & H2).
  split; [exact H|]. split; [exact H1 | exact H2].
Defined.

(** ** The run loop never looks at [job_running] *)

Lemma same_but_flag_fields w w' :
  same_but_flag w w' ↔
  inserted_count w = inserted_count w' ∧ total_count w = total_count w'
  ∧ start_time w = start_time w' ∧ db w = db w'
  ∧ mongo_faults w = mongo_faults w' ∧ now w = now w'.
Proof.
  unfold same_but_flag, set_job_running. destruct w, w'; simpl. split.
  - intros H. by inversion H.
  - intros (-> & -> & -> & -> & -> & ->). done.
Qed.

Lemma same_but_flag_stop w : same_but_flag w (set_job_running false w).
Proof. by destruct w. Qed.

Lemma oblivious_ret {A} (a : A) : oblivious (ret a).
Proof. by intros w w' H. Qed.

Lemma oblivious_raise {A} (e : Exn) : oblivious (@raise A e).
Proof. by intros w w' H. Qed.

Lemma oblivious_bind {A B} (m : M A) (f : A → M B) :
  oblivious m → (∀ a, oblivious (f a)) → oblivious (bind m f).
Proof.
  intros Hm Hf w w' H. destruct (Hm w w' H) as (Hr & He & Hw).
  unfold bind, result, world, events in *.
  destruct (m w) as [[r1 w1] ev1], (m w') as [[r1' w1'] ev1']. simpl in *. subst.
  destruct r1' as [e|a]; [done|].
  destruct (Hf a w1 w1' Hw) as (Hr2 & He2 & Hw2).
  unfold result, world, events in *.
  destruct (f a w1) as [[r2 w2] ev2], (f a w1') as [[r2' w2'] ev2']. simpl in *.
  by subst.
Qed.

Lemma oblivious_try_except {A} (m : M A) (h : Exn → M A) :
  oblivious m → (∀ e, oblivious (h e)) → oblivious (try_except m h).
Proof.
  intros Hm Hh w w' H. destruct (Hm w w' H) as (Hr & He & Hw).
  unfold try_except, result, world, events in *.
  destruct (m w) as [[r1 w1] ev1], (m w') as [[r1' w1'] ev1']. simpl in *. subst.
  destruct r1' as [e|a]; [|done].
  destruct (Hh e w1 w1' Hw) as (Hr2 & He2 & Hw2).
  unfold result, world, events in *.
  destruct (h e w1) as [[r2 w2] ev2], (h e w1') as [[r2' w2'] ev2']. simpl in *.
  by subst.
Qed.

Lemma oblivious_emit e : oblivious (emit e).
Proof. by intros w w' H. Qed.

Ltac by_fields :=
  let w := fresh "w" in let w' := fresh "w'" in let H := fresh "H" in
  intros w w' H; pose proof H as (? & ? & ? & ? & ? & ?)%same_but_flag_fields;
  unfold result, world, events; simpl;
  repeat split; try congruence;
  apply same_but_flag_fields; simpl; repeat split; congruence.

Lemma oblivious_load_inserted_count : oblivious load_inserted_count.
Proof. by_fields. Qed.
Lemma oblivious_load_total_count : oblivious load_total_count.
Proof. by_fields. Qed.
Lemma oblivious_load_start_time : oblivious load_start_time.
Proof. by_fields. Qed.
Lemma oblivious_store_inserted_count v : oblivious (store_inserted_count v).
Proof. by_fields. Qed.
Lemma oblivious_store_total_count v : oblivious (store_total_count v).
Proof. by_fields. Qed.
Lemma oblivious_store_start_time v : oblivious (store_start_time v).
Proof. by_fields. Qed.
Lemma oblivious_store_job_running v : oblivious (store_job_running v).
Proof. by_fields. Qed.
Lemma oblivious_time_time : oblivious time_time.
Proof. by_fields. Qed.
Lemma oblivious_db_find c u : oblivious (db_find c u).
Proof. by_fields. Qed.
Lemma oblivious_db_append c d : oblivious (db_append c d).
Proof. by_fields. Qed.

Lemma oblivious_mongo_fault : oblivious mongo_fault.
Proof.
  intros w w' H. pose proof H as (? & ? & ? & ? & Hf & ?)%same_but_flag_fields.
  unfold mongo_fault, result, world, events. rewrite <- Hf.
  destruct (mongo_faults w) as [|[] fs]; simpl; repeat split; try done;
    apply same_but_flag_fields; simpl; repeat split; congruence.
Qed.

Lemma oblivious_compositional : Compositional (@oblivious).
Proof.
  constructor; intros;
    try first [ apply oblivious_ret | apply oblivious_raise | apply oblivious_emit
              | apply oblivious_load_inserted_count | apply oblivious_load_total_count
              | apply oblivious_load_start_time | apply oblivious_store_total_count
              | apply oblivious_store_start_time | apply oblivious_store_job_running
              | apply oblivious_time_time | apply oblivious_mongo_fault
              | apply oblivious_db_find | apply oblivious_db_append ].
  - by apply oblivious_bind.
  - by apply oblivious_try_except.
  - unfold with_lock.
    apply oblivious_bind; [apply oblivious_emit|]. intros _.
    apply oblivious_try_except.
    + apply oblivious_bind.
      * apply oblivious_bind; [apply oblivious_load_inserted_count|].
        intros v. apply oblivious_store_inserted_count.
      * intros a. apply oblivious_bind; [apply oblivious_emit|].
        intros _. apply oblivious_ret.
    + intros e. apply oblivious_bind; [apply oblivious_emit|].
      intros _. apply oblivious_raise.
Qed.

(** ** Every function of the run loop, by its structure

    A property that holds of the primitives and passes through [bind] and
    [try_except] holds of every function the run loop is made of. *)

Section Structure.
Variable Φ : ∀ A : Type, M A → Prop.
Hypothesis HΦ : Compositional Φ.

Ltac prim :=
  first [ apply (c_ret Φ HΦ) | apply (c_raise Φ HΦ) | apply (c_print Φ HΦ)
        | apply (c_s3 Φ HΦ) | apply (c_mongo Φ HΦ)
        | apply (c_load_inserted_count Φ HΦ) | apply (c_load_total_count Φ HΦ)
        | apply (c_load_start_time Φ HΦ) | apply (c_store_total_count Φ HΦ)
        | apply (c_store_start_time Φ HΦ) | apply (c_store_job_running Φ HΦ)
        | apply (c_time_time Φ HΦ) | apply (c_mongo_fault Φ HΦ)
        | apply (c_db_find Φ HΦ) | apply (c_db_append Φ HΦ)
        | apply (c_increment Φ HΦ) ].

(** Takes a computation apart along [bind], [try_except], [if] and
    [match], down to the primitives. *)
Ltac structure_step :=
  match goal with
  | |- Φ _ (bind _ _) => apply (c_bind Φ HΦ); [|intros ?]
  | |- Φ _ (try_except _ _) => apply (c_try_except Φ HΦ); [|intros ?]
  | |- Φ _ (if ?b then _ else _) => destruct b
  | |- Φ _ (match ?x with _ => _ end) => destruct x
  | |- Φ _ _ => prim
  | |- Φ _ _ => assumption
  end.
Ltac structure := cbv zeta; repeat structure_step.

Lemma find_one_structure c u : Φ _ (find_one c u).
Proof. unfold find_one. structure. Qed.

Lemma insert_one_structure c d : Φ _ (insert_one c d).
Proof. unfold insert_one. structure. Qed.

Lemma s3_list_objects_v2_structure env : Φ _ (s3_list_objects_v2 env).
Proof. unfold s3_list_objects_v2. structure. Qed.

Lemma s3_head_object_structure env k : Φ _ (s3_head_object env k).
Proof. unfold s3_head_object. structure. Qed.

Lemma s3_get_object_structure env k : Φ _ (s3_get_object env k).
Proof. unfold s3_get_object. structure. Qed.

Lemma db_getitem_structure cn : Φ _ (db_getitem cn).
Proof. unfold db_getitem. structure. Qed.

Lemma etl_read_chunks_structure key total_size chunks :
  ∀ downloaded buffer, Φ _ (EtlApiRunner.read_chunks key total_size chunks downloaded buffer).
Proof.
  induction chunks as [|c rest IH]; intros downloaded buffer; simpl.
  - structure.
  - apply (c_bind Φ HΦ); [prim|]. intros _.
    destruct c as [[|b data]|]; [prim| |prim].
    destruct (total_size =? 0); [prim|].
    apply (c_bind Φ HΦ); [prim|]. intros _. apply IH.
Qed.

Lemma etl_download_with_progress_structure env key filename :
  Φ _ (EtlApiRunner.download_with_progress env key filename).
Proof.
  pose proof s3_head_object_structure. pose proof s3_get_object_structure.
  pose proof etl_read_chunks_structure.
  unfold EtlApiRunner.download_with_progress.
  apply (c_try_except Φ HΦ); [|intros e; structure].
  apply (c_bind Φ HΦ); [done|]. intros total_size.
  apply (c_bind Φ HΦ); [prim|]. intros _.
  apply (c_bind Φ HΦ); [done|]. intros chunks.
  apply (c_bind Φ HΦ); [done|]. intros buffer. structure.
Qed.






Lemma etl_loop_download_structure env key : Φ _ (EtlApiRunner.loop_download env key).
Proof.
  unfold EtlApiRunner.loop_download. cbv zeta.
  apply (c_bind Φ HΦ); [prim|]. intros _.
  apply (c_bind Φ HΦ); [apply etl_download_with_progress_structure|]. intros b. prim.
Qed.




Lemma etl_run_list_structure env : Φ _ (EtlApiRunner.run_list env).
Proof.
  pose proof (s3_list_objects_v2_structure env).
  unfold EtlApiRunner.run_list. structure.
Qed.






Lemma upload_loop_download_structure env key : Φ _ (UploadFromSpace1.loop_download env key).
Proof.
  pose proof (s3_get_object_structure env key).
  unfold UploadFromSpace1.loop_download. structure.
Qed.


Lemma upload_after_loop_structure : Φ _ UploadFromSpace1.after_loop.
Proof. unfold UploadFromSpace1.after_loop. structure. Qed.

Lemma upload_run_list_structure env : Φ _ (UploadFromSpace1.run_list env).
Proof.
  pose proof (s3_list_objects_v2_structure env).
  unfold UploadFromSpace1.run_list. structure.
Qed.


(** The steps of the threads are made of the same primitives. *)

Lemma etl_next_row_structure f c n i rows todo :
  Φ _ (EtlApiRunner.next_row f c n i rows todo).
Proof. unfold EtlApiRunner.next_row. structure. Qed.

Lemma etl_open_file_structure env f cn buffer todo :
  Φ _ (EtlApiRunner.open_file env f cn buffer todo).
Proof.
  pose proof (db_getitem_structure cn).
  unfold EtlApiRunner.open_file, EtlApiRunner.critical, EtlApiRunner.read_rows. structure.
Qed.

Lemma etl_lookup_row_structure f c n i row rows todo :
  Φ _ (EtlApiRunner.lookup_row f c n i row rows todo).
Proof.
  unfold EtlApiRunner.lookup_row. structure;
    first [apply find_one_structure | apply etl_next_row_structure].
Qed.

Lemma etl_insert_row_structure f c n i doc rows todo :
  Φ _ (EtlApiRunner.insert_row f c n i doc rows todo).
Proof.
  unfold EtlApiRunner.insert_row. structure;
    first [apply insert_one_structure | apply etl_next_row_structure].
Qed.

Lemma etl_count_row_structure f c n i rows todo :
  Φ _ (EtlApiRunner.count_row f c n i rows todo).
Proof.
  unfold EtlApiRunner.count_row. structure; apply etl_next_row_structure.
Qed.

Lemma etl_worker_step_structure env :
  stepwise Φ EtlApiRunner.PcDead (EtlApiRunner.worker_step env).
Proof.
  intros pc.
  destruct pc as [| | | |[|key todo]|f cn b todo|f c rows todo|f c rows t todo
                 |f c n i [|row rows] todo|f c n i doc rows todo|f c n i rows todo
                 |f c a todo| |d|d a| |e];
    cbn [EtlApiRunner.worker_step];
    try (left; eexists _, _, _; split; [|intros w; reflexivity];
         unfold EtlApiRunner.critical; structure;
         first [ apply etl_run_list_structure | apply etl_loop_download_structure
               | apply etl_open_file_structure | apply etl_lookup_row_structure
               | apply etl_insert_row_structure | apply etl_count_row_structure ]);
    right; eexists; intros w; reflexivity.
Qed.

Lemma upload_open_file_structure env key cn stream todo :
  Φ _ (UploadFromSpace1.open_file env key cn stream todo).
Proof.
  pose proof (db_getitem_structure cn).
  unfold UploadFromSpace1.open_file, UploadFromSpace1.read_rows. structure.
Qed.

Lemma upload_insert_row_structure c row rows todo :
  Φ _ (UploadFromSpace1.insert_row c row rows todo).
Proof.
  unfold UploadFromSpace1.insert_row. structure; apply insert_one_structure.
Qed.

Lemma upload_worker_step_structure env :
  stepwise Φ UploadFromSpace1.PcDead (UploadFromSpace1.worker_step env).
Proof.
  intros pc.
  destruct pc as [| | | |[|key todo]|key cn stream todo|c rows todo|c rows t todo
                 |c [|row rows] todo|c rows todo| |e];
    cbn [UploadFromSpace1.worker_step];
    try (left; eexists _, _, _; split; [|intros w; reflexivity]; structure;
         first [ apply upload_run_list_structure | apply upload_loop_download_structure
               | apply upload_open_file_structure | apply upload_insert_row_structure
               | apply upload_after_loop_structure ]);
    right; eexists; intros w; reflexivity.
Qed.

End Structure.

Lemma oblivious_advance {A T} (dead : Exn → T) (m : M A) (k : A → T) w w' :
  oblivious m → same_but_flag w w' →
  (advance dead m k w).1.1 = (advance dead m k w').1.1
  ∧ (advance dead m k w).2 = (advance dead m k w').2
  ∧ same_but_flag (advance dead m k w).1.2 (advance dead m k w').1.2.
Proof.
  intros Hm H. destruct (Hm w w' H) as (Hr & He & Hw).
  unfold advance, result, world, events in *.
  destruct (m w) as [[r1 w1] ev1], (m w') as [[r1' w1'] ev1']. simpl in *. subst.
  by destruct r1'.
Qed.

Lemma stepwise_oblivious {T} (dead : Exn → T) (step : T → World → T * World * list Event) :
  stepwise (@oblivious) dead step → oblivious_step step.
Proof.
  intros Hs pc w w' H. destruct (Hs pc) as [(A & m & k & Hm & E)|(pc' & E)]; rewrite !E.
  - by apply oblivious_advance.
  - done.
Qed.

Lemma run_worker_oblivious {T} (step : T → World → T * World * list Event) :
  oblivious_step step →
  ∀ fuel pc w w', same_but_flag w w' →
    (run_worker step fuel pc w).1.1 = (run_worker step fuel pc w').1.1
    ∧ (run_worker step fuel pc w).2 = (run_worker step fuel pc w').2
    ∧ same_but_flag (run_worker step fuel pc w).1.2 (run_worker step fuel pc w').1.2.
Proof.
  intros Hs. induction fuel as [|fuel IH]; intros pc w w' H; simpl; [done|].
  destruct (Hs pc w w' H) as (Hp & He & Hw).
  destruct (step pc w) as [[pc1 w1] ev1], (step pc w') as [[pc1' w1'] ev1']. simpl in *. subst.
  destruct (IH pc1' w1 w1' Hw) as (Hp2 & He2 & Hw2).
  destruct (run_worker step fuel pc1' w1) as [[pc2 w2] ev2],
           (run_worker step fuel pc1' w1') as [[pc2' w2'] ev2']. simpl in *.
  by subst.
Qed.

Lemma etl_worker_step_oblivious env : oblivious_step (EtlApiRunner.worker_step env).
Proof.
  apply (stepwise_oblivious EtlApiRunner.PcDead).
  apply etl_worker_step_structure, oblivious_compositional.
Qed.

Lemma upload_worker_step_oblivious env : oblivious_step (UploadFromSpace1.worker_step env).
Proof.
  apply (stepwise_oblivious UploadFromSpace1.PcDead).
  apply upload_worker_step_structure, oblivious_compositional.
Qed.

(** Whatever the position of the run loop, a [/stop] changes nothing of what
    it goes on to do: from the world as it is and from the world with the
    flag cleared, the run takes the same steps, emits the same events (the
    same downloads, the same Mongo calls) and ends in worlds that differ at
    most in the flag. It holds for both scripts. *)
Lemma stop_changes_nothing_of_the_run (env : Env) (fuel : nat) (w : World) :
  (∀ pc,
     let a := run_worker (EtlApiRunner.worker_step env) fuel pc w in
     let b := run_worker (EtlApiRunner.worker_step env) fuel pc (set_job_running false w) in
     a.1.1 = b.1.1 ∧ a.2 = b.2 ∧ same_but_flag a.1.2 b.1.2)
  ∧ (∀ pc,
     let a := run_worker (UploadFromSpace1.worker_step env) fuel pc w in
     let b := run_worker (UploadFromSpace1.worker_step env) fuel pc (set_job_running false w) in
     a.1.1 = b.1.1 ∧ a.2 = b.2 ∧ same_but_flag a.1.2 b.1.2).
Proof.
  split; intros pc; cbv zeta.
  - apply run_worker_oblivious; [apply etl_worker_step_oblivious|].
    apply same_but_flag_stop.
  - apply run_worker_oblivious; [apply upload_worker_step_oblivious|].
    apply same_but_flag_stop.
Qed.

(** ** [/start] and [/stop] *)

(** C1, evaluated. The bucket holds [a.csv] and [b.csv]. [/start], four
    steps of the run loop (the two first statements, the listing, the
    download of [a.csv]), then [/stop]: the request arrives while file 1
    of 2 is in process, and clears the flag. The run loop, continued to its
    end, inserts the rows of [a.csv] and then downloads [b.csv] and inserts
    its row: the file after the one in process is not left out. *)
Theorem stop_during_first_file_does_not_halt_run :
  let s1 := (etl_exec Scenario.two_files
               [CallStart; Tick 0; Tick 0; Tick 0; Tick 0; CallStop]
               (mkSys Scenario.idle [] [])).1.1 in
  let o2 := etl_exec Scenario.two_files (replicate 24 (Tick 0)) s1 in
  (∃ buffer, sys_threads s1 = [EtlApiRunner.PcInsert "a.csv" (Some "a") buffer ["b.csv"]])
  ∧ job_running (sys_world s1) = false
  ∧ sys_threads o2.1.1 = [EtlApiRunner.PcDone]
  ∧ existsb (is_get_object "b.csv") o2.2 = true
  ∧ existsb (is_insert_into "b") o2.2 = true
  ∧ collection "b" (db (sys_world o2.1.1)) = [mkDoc "1" "http://z" "pending"]
  ∧ total_count (sys_world o2.1.1) = 3
  ∧ inserted_count (sys_world o2.1.1) = 3.
Proof.
  cbv zeta. split; [eexists; vm_compute; reflexivity|].
  vm_compute. repeat split; reflexivity.
Qed.

(** The same on upload_from_space1.py, with the same outcome. *)
Lemma upload_stop_during_first_file_does_not_halt_run :
  let s1 := (upload_exec Scenario.two_files
               [CallStart; Tick 0; Tick 0; Tick 0; Tick 0; CallStop]
               (mkSys Scenario.idle [] [])).1.1 in
  let o2 := upload_exec Scenario.two_files (replicate 16 (Tick 0)) s1 in
  (∃ stream, sys_threads s1 = [UploadFromSpace1.PcInsert "a.csv" (Some "a") stream ["b.csv"]])
  ∧ job_running (sys_world s1) = false
  ∧ sys_threads o2.1.1 = [UploadFromSpace1.PcDone]
  ∧ existsb (is_get_object "b.csv") o2.2 = true
  ∧ collection "b" (db (sys_world o2.1.1)) = [mkDoc "1" "http://z" "pending"]
  ∧ total_count (sys_world o2.1.1) = 3.
Proof.
  cbv zeta. split; [eexists; vm_compute; reflexivity|].
  vm_compute. repeat split; reflexivity.
Qed.

(** ** Counting the rows of a file *)

Lemma len_split (rows : list (list string)) :
  len rows = len (List.filter well_formed rows) + len (List.filter malformed rows).
Proof.
  unfold len, malformed. induction rows as [|row rest IH]; simpl; [done|].
  destruct (well_formed row); simpl; lia.
Qed.

Lemma inserts_from_mono rows rows' e :
  (∀ row, row ∈ rows → row ∈ rows') → inserts_from rows e → inserts_from rows' e.
Proof.
  intros Hsub. destruct e as [| | | | | |[c u|c d]]; simpl; try done.
  - intros (row & Hin & Hwf & ->). eauto.
  - intros (row & Hin & Hwf & ->). eauto.
Qed.

(** One round of the row loop of etl_api_runner.py. *)
Lemma etl_process_row_counts c n i row w :
  let o := EtlApiRunner.process_row c n i row w in
  result o = inr tt
  ∧ total_count (world o) = total_count w
  ∧ inserted_count w ≤ inserted_count (world o)
      ≤ inserted_count w + (if well_formed row then 1 else 0)
  ∧ Forall (inserts_from [row]) (events o).
Proof.
  cbv zeta. unfold EtlApiRunner.process_row, well_formed.
  destruct (len row <? 2) eqn:Hlen.
  - assert ((2 <=? len row) = false) as -> by lia.
    unfold print, emit, result, world, events. simpl.
    split_and!; try done; try lia. by repeat constructor.
  - assert (Hwf : (2 <=? len row) = true) by lia. rewrite Hwf.
    assert (Hdoc : inserts_from [row]
                     (EvMongo (InsertOne c (mkDoc (nth 0 row EmptyString) (nth 1 row EmptyString) "pending")))).
    { exists row. split_and!; [by left | exact Hwf | done]. }
    assert (Hfind : inserts_from [row] (EvMongo (FindOne c (nth 0 row EmptyString)))).
    { exists row. split_and!; [by left | exact Hwf | done]. }
    unfold EtlApiRunner.try_insert, EtlApiRunner.dedup_insert, find_one, insert_one, with_lock, bind, try_except,
      mongo_fault, db_find, db_append, load_inserted_count, store_inserted_count,
      print, emit, raise, ret, result, world, events.
    simpl.
    destruct (mongo_faults w) as [|[|] fs] eqn:E; simpl;
      try (match goal with |- context [List.find ?f ?l] => destruct (List.find f l) end; simpl);
      rewrite ?E; simpl;
      try (destruct fs as [|[|] fs']; simpl);
      destruct (i mod 1000 =? 0); simpl;
      (split_and!;
         [done | done | lia | lia
         | repeat first [ apply List.Forall_nil
                        | apply List.Forall_cons; [first [exact Hdoc | exact Hfind | exact I]|] ] ]).
Qed.

Lemma etl_insert_rows_counts c n rows :
  ∀ i w,
    let o := EtlApiRunner.insert_rows c n i rows w in
    result o = inr tt
    ∧ total_count (world o) = total_count w
    ∧ inserted_count w ≤ inserted_count (world o)
        ≤ inserted_count w + len (List.filter well_formed rows)
    ∧ Forall (inserts_from rows) (events o).
Proof.
  induction rows as [|row rest IH]; intros i w; cbv zeta.
  - unfold result, world, events, len. simpl. split_and!; try done; lia.
  - cbn [EtlApiRunner.insert_rows].
    destruct (etl_process_row_counts c n i row w) as (Hr & Ht & Hi & He).
    destruct (EtlApiRunner.process_row c n i row w) as [[r1 w1] ev1] eqn:E.
    unfold result, world, events in Hr, Ht, Hi, He. simpl in Hr, Ht, Hi, He. subst r1.
    destruct (IH (i + 1) w1) as (Hr2 & Ht2 & Hi2 & He2).
    unfold bind. rewrite E.
    destruct (EtlApiRunner.insert_rows c n (i + 1) rest w1) as [[r2 w2] ev2].
    unfold result, world, events in *. simpl in *.
    split_and!.
    + done.
    + congruence.
    + lia.
    + unfold len in *. simpl. destruct (well_formed row); simpl; lia.
    + apply Forall_app. split.
      * eapply Forall_impl; [exact He|]. intros e. apply inserts_from_mono.
        intros r Hin. apply list_elem_of_singleton in Hin as ->. by left.
      * eapply Forall_impl; [exact He2|]. intros e. apply inserts_from_mono.
        intros r Hin. by right.
Qed.

Lemma etl_file_counts (env : Env) (stream : bytes) (c : string) (rows : list (list string))
    (w : World) :
  csv_rows env stream = Some rows →
  counts_file rows w (EtlApiRunner.insert_csv_into env stream c w).
Proof.
  intros Hrows.
  destruct (etl_insert_rows_counts c (len rows) rows 1 (set_total_count (total_count w + len rows) w))
    as (Hr & Ht & Hi & He).
  unfold counts_file. rewrite <- len_split.
  unfold EtlApiRunner.insert_csv_into, EtlApiRunner.read_rows.
  rewrite Hrows.
  unfold bind, try_except, ret, load_total_count, store_total_count, load_inserted_count,
    print, emit. cbn iota beta.
  destruct (EtlApiRunner.insert_rows c (len rows) 1 rows _) as [[r2 w2] ev2].
  unfold result, world, events in *. simpl in *. subst r2. simpl.
  split_and!; try done; try lia.
  repeat constructor. apply Forall_app. split; [done|]. by repeat constructor.
Qed.

(** One round of the row loop of upload_from_space1.py. *)
Lemma upload_process_row_counts c row w :
  let o := UploadFromSpace1.process_row c row w in
  result o = inr tt
  ∧ total_count (world o) = total_count w
  ∧ inserted_count w ≤ inserted_count (world o)
      ≤ inserted_count w + (if well_formed row then 1 else 0)
  ∧ Forall (inserts_from [row]) (events o).
Proof.
  cbv zeta. unfold UploadFromSpace1.process_row, well_formed.
  destruct (len row <? 2) eqn:Hlen.
  - assert ((2 <=? len row) = false) as -> by lia.
    unfold ret, result, world, events. simpl.
    split_and!; try done; try lia.
  - assert (Hwf : (2 <=? len row) = true) by lia. rewrite Hwf.
    assert (Hdoc : inserts_from [row]
                     (EvMongo (InsertOne c (mkDoc (nth 0 row EmptyString) (nth 1 row EmptyString) "pending")))).
    { exists row. split_and!; [by left | exact Hwf | done]. }
    unfold insert_one, with_lock, bind, try_except,
      mongo_fault, db_append, load_inserted_count, store_inserted_count,
      print, emit, raise, ret, result, world, events.
    simpl.
    destruct (mongo_faults w) as [|[|] fs] eqn:E; simpl;
      (split_and!;
         [done | done | lia | lia
         | repeat first [ apply List.Forall_nil
                        | apply List.Forall_cons; [first [exact Hdoc | exact I]|] ] ]).
Qed.

Lemma upload_insert_rows_counts c rows :
  ∀ w,
    let o := UploadFromSpace1.insert_rows c rows w in
    result o = inr tt
    ∧ total_count (world o) = total_count w
    ∧ inserted_count w ≤ inserted_count (world o)
        ≤ inserted_count w + len (List.filter well_formed rows)
    ∧ Forall (inserts_from rows) (events o).
Proof.
  induction rows as [|row rest IH]; intros w; cbv zeta.
  - unfold result, world, events, len. simpl. split_and!; try done; lia.
  - cbn [UploadFromSpace1.insert_rows].
    destruct (upload_process_row_counts c row w) as (Hr & Ht & Hi & He).
    destruct (UploadFromSpace1.process_row c row w) as [[r1 w1] ev1] eqn:E.
    unfold result, world, events in Hr, Ht, Hi, He. simpl in Hr, Ht, Hi, He. subst r1.
    destruct (IH w1) as (Hr2 & Ht2 & Hi2 & He2).
    unfold bind. rewrite E.
    destruct (UploadFromSpace1.insert_rows c rest w1) as [[r2 w2] ev2].
    unfold result, world, events in *. simpl in *.
    split_and!.
    + done.
    + congruence.
    + lia.
    + unfold len in *. simpl. destruct (well_formed row); simpl; lia.
    + apply Forall_app. split.
      * eapply Forall_impl; [exact He|]. intros e. apply inserts_from_mono.
        intros r Hin. apply list_elem_of_singleton in Hin as ->. by left.
      * eapply Forall_impl; [exact He2|]. intros e. apply inserts_from_mono.
        intros r Hin. by right.
Qed.

Lemma upload_file_counts (env : Env) (key : string) (stream : list (option bytes))
    (data : bytes) (c : string) (rows : list (list string)) (w : World) :
  UploadFromSpace1.read_all stream = inr data →
  csv_rows env data = Some rows →
  counts_file rows w (UploadFromSpace1.insert_csv_into env key stream c w).
Proof.
  intros Hread Hrows.
  destruct (upload_insert_rows_counts c rows (set_total_count (total_count w + len rows) w))
    as (Hr & Ht & Hi & He).
  unfold counts_file. rewrite <- len_split.
  unfold UploadFromSpace1.insert_csv_into, UploadFromSpace1.read_rows.
  rewrite Hread, Hrows.
  unfold bind, ret, load_total_count, store_total_count, emit. cbn iota beta.
  destruct (UploadFromSpace1.insert_rows c rows _) as [[r2 w2] ev2].
  unfold result, world, events in *. simpl in *. subst r2. simpl.
  split_and!; try done; try lia.
  by repeat constructor.
Qed.




(** The scenario of the malformed row: two rows, one of them with one
    field; [total_count] becomes 2 and [inserted_count] 1. *)
Example malformed_row_ex :
  let data := list_byte_of_string ("1,http://x" ++ Scenario.lf ++ "bad" ++ Scenario.lf) in
  let o := EtlApiRunner.insert_csv_from_stream Scenario.two_files data (Some "a") Scenario.idle in
  total_count (world o) = 2 ∧ inserted_count (world o) = 1
  ∧ collection "a" (db (world o)) = [mkDoc "1" "http://x" "pending"]
  ∧ existsb (λ e, match e with EvPrint (MsgSkippingMalformed 2 ["bad"]) => true | _ => false end)
      (events o) = true.
Proof. vm_compute. repeat split; reflexivity. Qed.

(** ** The duplicate check *)

Lemma collection_insert c docs (d : gmap string (list Doc)) :
  collection c (<[c := docs]> d) = docs.
Proof. unfold collection. by rewrite lookup_insert_eq. Qed.

Lemma find_none_count uid docs :
  List.find (λ d, String.eqb (url_id d) uid) docs = None → count_key uid docs = 0.
Proof.
  unfold count_key, len. induction docs as [|d rest IH]; simpl; [done|].
  destruct (String.eqb (url_id d) uid); [done|]. exact IH.
Qed.

Lemma find_some_count uid docs d :
  List.find (λ d, String.eqb (url_id d) uid) docs = Some d → 1 ≤ count_key uid docs.
Proof.
  unfold count_key, len. induction docs as [|d0 rest IH]; simpl; [done|].
  destruct (String.eqb (url_id d0) uid); simpl; [lia|]. exact IH.
Qed.

Lemma find_after_append uid docs x :
  ∃ d, List.find (λ d, String.eqb (url_id d) uid) (docs ++ [mkDoc uid x "pending"]) = Some d.
Proof.
  induction docs as [|d0 rest IH]; simpl.
  - rewrite String.eqb_refl. eauto.
  - destruct (String.eqb (url_id d0) uid); eauto.
Qed.

Lemma count_key_append uid docs x :
  count_key uid (docs ++ [mkDoc uid x "pending"]) = count_key uid docs + 1.
Proof.
  unfold count_key, len. rewrite List.filter_app, length_app. simpl.
  rewrite String.eqb_refl. simpl. lia.
Qed.

(** One attempt of the writer when Mongo answers: the key is found and the
    attempt reports the duplicate, or it is not found and the document is
    appended and counted. *)
Lemma etl_try_insert_no_faults c i uid x w :
  no_faults w →
  let d := mkDoc uid x "pending" in
  let o := EtlApiRunner.try_insert c i d w in
  no_faults (world o)
  ∧ match List.find (λ d, String.eqb (url_id d) uid) (collection c (db w)) with
    | Some _ =>
        db (world o) = db w
        ∧ events o = [EvMongo (FindOne c uid); EvPrint (MsgSkippedDuplicate uid)]
    | None =>
        db (world o) = <[c := collection c (db w) ++ [d]]> (db w)
        ∧ events o = [EvMongo (FindOne c uid); EvMongo (InsertOne c d); EvAcquire;
                      EvRead VInsertedCount; EvWrite VInsertedCount; EvRelease]
    end.
Proof.
  intros Hnf. cbv zeta.
  unfold EtlApiRunner.try_insert, EtlApiRunner.dedup_insert, find_one, insert_one, with_lock,
    bind, try_except, mongo_fault, db_find, db_append, load_inserted_count,
    store_inserted_count, print, emit, raise, ret, result, world, events, no_faults in *.
  simpl.
  destruct (mongo_faults w) as [|[|] fs] eqn:E; simpl in *.
  - destruct (List.find _ _); simpl; rewrite ?E; simpl; rewrite ?E; done.
  - discriminate Hnf.
  - destruct (List.find _ _); simpl; [done|].
    destruct fs as [|[|] fs']; simpl in *; [done | discriminate Hnf | done].
Qed.

(** C3, as the code has it. When the collection holds at most one document
    with the [url_id] and Mongo answers the calls, two attempts of the
    writer in sequence on records with that [url_id] leave exactly one
    document with it, and the second attempt reports the duplicate. *)
Theorem dedup_insert_twice (c uid x y : string) (i j : Z) (w : World) :
  no_faults w →
  count_key uid (collection c (db w)) ≤ 1 →
  idempotent_dedup c uid x y i j w.
Proof.
  intros Hnf Hle. unfold idempotent_dedup. cbv zeta.
  destruct (etl_try_insert_no_faults c i uid x w Hnf) as (Hnf1 & H1).
  set (w1 := world (EtlApiRunner.try_insert c i (mkDoc uid x "pending") w)) in *.
  destruct (etl_try_insert_no_faults c j uid y w1 Hnf1) as (_ & H2).
  destruct (List.find _ (collection c (db w))) as [d|] eqn:Hfind.
  - destruct H1 as (Hdb1 & _). rewrite Hdb1, Hfind in H2. destruct H2 as (Hdb2 & Hev2).
    rewrite Hdb2. split; [|exact Hev2].
    apply find_some_count in Hfind. lia.
  - destruct H1 as (Hdb1 & _). rewrite Hdb1, collection_insert in H2.
    destruct (find_after_append uid (collection c (db w)) x) as (d & Hd).
    rewrite Hd in H2. destruct H2 as (Hdb2 & Hev2).
    rewrite Hdb2, collection_insert. split; [|exact Hev2].
    rewrite count_key_append. apply find_none_count in Hfind. lia.
Qed.

Lemma dedup_insert_twice_witness :
  no_faults Scenario.idle
  ∧ count_key "1" (collection "a" (db Scenario.idle)) ≤ 1
  ∧ idempotent_dedup "a" "1" "http://x" "http://x" 1 2 Scenario.idle.
Proof.
  assert (H1 : no_faults Scenario.idle) by reflexivity.
  assert (H2 : count_key "1" (collection "a" (db Scenario.idle)) ≤ 1) by (vm_compute; discriminate).
  split; [exact H1|]. split; [exact H2|].
  exact (dedup_insert_twice "a" "1" "http://x" "http://x" 1 2 Scenario.idle H1 H2).
Defined.

(** C3, the claim as stated fails in two ways. A collection that already
    holds two documents with the key (here the one upload_from_space1.py
    leaves behind, which inserts without looking) still holds two after
    both attempts. And when the lookup of the first attempt raises, the
    first attempt stores nothing and the second one inserts: it reports no
    duplicate. *)
Lemma dedup_insert_twice_counterexample :
  collection "a" (db Scenario.after_upload_of_twice_1)
    = [mkDoc "1" "http://x" "pending"; mkDoc "1" "http://y" "pending"]
  ∧ ¬ idempotent_dedup "a" "1" "http://x" "http://x" 1 2 Scenario.after_upload_of_twice_1
  ∧ ¬ idempotent_dedup "a" "1" "http://x" "http://x" 1 2
        (set_mongo_faults [true] Scenario.idle).
Proof.
  split; [reflexivity|]. split.
  - unfold idempotent_dedup. vm_compute. intros (H & _). discriminate H.
  - unfold idempotent_dedup. vm_compute. intros (_ & H). discriminate H.
Qed.

(** ** The key of a document *)

(** C9, as the code has it. Every call of Mongo made for a file is about
    a row of the file with at least 2 fields: the document handed to
    [insert_one] is built from it, with the first field as [url_id], the
    second as [input_url] and ["pending"] as [status], and [find_one] asks
    for its first field. The first field is taken as it is: the key is
    empty when the field is. It holds for both scripts. *)
Theorem dedup_key_is_first_field (env : Env) (key : string) (cn : option string)
    (stream : list (option bytes)) (data : bytes) (rows : list (list string)) (w : World) :
  UploadFromSpace1.read_all stream = inr data →
  csv_rows env data = Some rows →
  keys_from_rows rows (EtlApiRunner.insert_csv_from_stream env data cn w)
  ∧ keys_from_rows rows (UploadFromSpace1.insert_csv_from_stream env key stream cn w).
Proof.
  intros Hread Hrows. split.
  - destruct (etl_insert_cases env data cn w) as [(c & -> & Hc & E)|(e & E)]; rewrite E.
    + by destruct (etl_file_counts env data c rows w Hrows) as (_ & _ & _ & _ & H).
    + apply List.Forall_nil.
  - destruct (upload_insert_cases env key stream cn w) as [(c & -> & Hc & E)|(e & E)];
      rewrite E.
    + by destruct (upload_file_counts env key stream data c rows w Hread Hrows)
        as (_ & _ & _ & _ & H).
    + apply List.Forall_nil.
Qed.

Lemma dedup_key_is_first_field_witness :
  let rows := [[EmptyString; "http://x"]] in
  UploadFromSpace1.read_all [Some Scenario.empty_key_row] = inr Scenario.empty_key_row
  ∧ csv_rows Scenario.two_files Scenario.empty_key_row = Some rows
  ∧ keys_from_rows rows
      (EtlApiRunner.insert_csv_from_stream Scenario.two_files Scenario.empty_key_row (Some "a")
         Scenario.idle)
  ∧ keys_from_rows rows
      (UploadFromSpace1.insert_csv_from_stream Scenario.two_files "a.csv"
         [Some Scenario.empty_key_row] (Some "a") Scenario.idle).
Proof.
  intros rows.
  assert (H1 : UploadFromSpace1.read_all [Some Scenario.empty_key_row]
               = inr Scenario.empty_key_row) by reflexivity.
  assert (H2 : csv_rows Scenario.two_files Scenario.empty_key_row = Some rows) by reflexivity.
  split; [exact H1|]. split; [exact H2|].
  exact (dedup_key_is_first_field Scenario.two_files "a.csv" (Some "a")
           [Some Scenario.empty_key_row] Scenario.empty_key_row rows Scenario.idle H1 H2).
Defined.

(** C9, the claim as stated fails: the line [,http://x] parses to a row
    with two fields, the first of them empty; the writer looks the empty
    key up and stores a document whose [url_id] is the empty string. *)
Lemma empty_first_field_gives_empty_key :
  let o := EtlApiRunner.insert_csv_from_stream Scenario.two_files Scenario.empty_key_row (Some "a")
             Scenario.idle in
  csv_rows Scenario.two_files Scenario.empty_key_row = Some [[EmptyString; "http://x"]]
  ∧ ¬ keys_nonempty (events o)
  ∧ collection "a" (db (world o)) = [mkDoc EmptyString "http://x" "pending"].
Proof.
  cbv zeta. split; [reflexivity|]. split; [|reflexivity].
  unfold keys_nonempty. vm_compute. discriminate.
Qed.

(** ** The lock *)





(** ** A download that fails *)

Lemma etl_read_chunks_io key total_size chunks : ∀ downloaded buffer w,
  ∃ r evs,
    EtlApiRunner.read_chunks key total_size chunks downloaded buffer w = (r, w, evs)
    ∧ forallb is_io evs = true.
Proof.
  induction chunks as [|c rest IH]; intros downloaded buffer w.
  - by eexists _, _.
  - cbn [EtlApiRunner.read_chunks].
    destruct c as [[|b data]|]; [by eexists _, _ | | by eexists _, _].
    destruct (total_size =? 0); [by eexists _, _|].
    destruct (IH (downloaded + len (b :: data)) (buffer ++ b :: data) w) as (r & evs & E & Hio).
    unfold bind, print, emit. rewrite E.
    eexists _, _. split; [reflexivity|]. simpl. exact Hio.
Qed.

(** [download_with_progress] raises nothing and leaves the world as it
    is; when it gives [None], its last event is the report of the
    failure. *)
Lemma etl_download_with_progress_spec env key filename w :
  ∃ r evs,
    EtlApiRunner.download_with_progress env key filename w = (inr r, w, evs)
    ∧ forallb is_io evs = true
    ∧ (r = None → last evs = Some (EvPrint (MsgFailedDownload filename))).
Proof.
  unfold EtlApiRunner.download_with_progress, s3_head_object, s3_get_object.
  destruct (content_length (s3_object env key)) as [total_size|].
  2:{ unfold try_except, raise, print, emit, ret, bind. simpl. by eexists _, _. }
  destruct (body (s3_object env key)) as [chunks|].
  2:{ unfold try_except, raise, print, emit, ret, bind. simpl. by eexists _, _. }
  destruct (etl_read_chunks_io key total_size chunks 0 [] w) as (r & ev & E & Hio).
  unfold try_except, bind, print, emit, ret. rewrite E.
  destruct r as [e|buffer]; simpl.
  - eexists _, _. split; [reflexivity|]. split.
    + simpl. rewrite List.forallb_app, Hio. reflexivity.
    + intros _.
      change (EvS3 (HeadObject key) :: EvPrint (MsgDownloading filename total_size)
              :: EvS3 (GetObject key) :: ev ++ [EvPrint (MsgFailedDownload filename)])
        with ((EvS3 (HeadObject key) :: EvPrint (MsgDownloading filename total_size)
               :: EvS3 (GetObject key) :: ev) ++ [EvPrint (MsgFailedDownload filename)]).
      by rewrite last_snoc.
  - eexists _, _. split; [reflexivity|]. split.
    + simpl. rewrite List.forallb_app, Hio. reflexivity.
    + done.
Qed.

(** In etl_api_runner.py a file whose download fails is reported and
    passed over: no counter moves, nothing is written, and the loop goes on
    with the next key. *)
Lemma etl_download_failure_is_skipped (env : Env) (key : string) (rest : list string)
    (w : World) :
  result (EtlApiRunner.download_with_progress env key (basename key) w) = inr None →
  passed_over (basename key) w
    (EtlApiRunner.for_csv_files env (key :: rest) w)
    (EtlApiRunner.for_csv_files env rest w).
Proof.
  intros Hnone.
  destruct (etl_download_with_progress_spec env key (basename key) w) as (r & evs & E & Hio & Hlast).
  rewrite E in Hnone. unfold result in Hnone. simpl in Hnone.
  assert (r = None) as -> by congruence.
  cbn [EtlApiRunner.for_csv_files].
  unfold EtlApiRunner.loop_body, EtlApiRunner.loop_download. cbv zeta.
  unfold bind at 1. unfold bind at 1. unfold bind at 1. unfold print at 1, emit at 1.
  cbn iota beta. unfold bind at 1. rewrite E. unfold ret at 1. cbn iota beta.
  unfold EtlApiRunner.loop_insert. cbn [fst snd]. unfold ret at 1. cbn iota beta.
  destruct (EtlApiRunner.for_csv_files env rest w) as [[r2 w2] ev2].
  unfold passed_over, result, world, events. simpl.
  split; [done|]. split; [done|].
  exists (EvPrint (MsgProcessing (basename key) (collection_name_of env (basename key))) :: evs).
  split_and!.
  - by rewrite !app_nil_r.
  - simpl. exact Hio.
  - specialize (Hlast eq_refl). destruct evs; [done|]. exact Hlast.
Qed.

Lemma etl_download_fails_when_get_raises env key filename w :
  body (s3_object env key) = None →
  result (EtlApiRunner.download_with_progress env key filename w) = inr None.
Proof.
  intros Hbody.
  unfold EtlApiRunner.download_with_progress, s3_head_object, s3_get_object.
  rewrite Hbody.
  destruct (content_length (s3_object env key)) as [total_size|]; reflexivity.
Qed.

Lemma upload_get_failure (env : Env) (contents : list string) (key : string)
    (rest : list string) (w : World) :
  list_objects_v2 env = inr (Some contents) →
  csv_files_of contents = key :: rest →
  body (s3_object env key) = None →
  UploadFromSpace1.process_all_csv_from_spaces env w =
    (inl ClientError,
     set_start_time (Some (now w)) (set_job_running true w),
     [EvWrite VJobRunning; EvWrite VStartTime; EvPrint MsgScanning; EvS3 ListObjectsV2;
      EvPrint (MsgFound (len (key :: rest)));
      EvPrint (MsgDownloadingFrom (basename key) (collection_name_of env (basename key)));
      EvS3 (GetObject key)]).
Proof.
  intros Hlist Hcsv Hbody.
  unfold UploadFromSpace1.process_all_csv_from_spaces, s3_list_objects_v2.
  rewrite Hlist.
  unfold bind, store_job_running, store_start_time, time_time, print, emit, raise, ret.
  cbn beta iota zeta. rewrite Hcsv.
  cbn [UploadFromSpace1.for_csv_files].
  unfold UploadFromSpace1.loop_body, UploadFromSpace1.loop_download, s3_get_object.
  rewrite Hbody.
  unfold bind, print, emit, raise, ret.
  simpl. done.
Qed.

(** C6. When [get_object] raises for a key of the loop:
    etl_api_runner.py reports the failure, moves no counter, writes
    nothing, and goes on with the keys after it, from the world it was in.
    upload_from_space1.py has the call outside any [try]: when it raises
    for the first key, the exception leaves the loop and the function, the
    thread ends, the keys after it are never asked for, and [job_running]
    stays true. *)
Theorem download_failure_in_both_scripts (env : Env) (contents : list string) (key : string)
    (rest : list string) (w : World) :
  list_objects_v2 env = inr (Some contents) →
  csv_files_of contents = key :: rest →
  body (s3_object env key) = None →
  passed_over (basename key) w
    (EtlApiRunner.for_csv_files env (key :: rest) w)
    (EtlApiRunner.for_csv_files env rest w)
  ∧ result (UploadFromSpace1.process_all_csv_from_spaces env w) = inl ClientError
  ∧ job_running (world (UploadFromSpace1.process_all_csv_from_spaces env w)) = true
  ∧ events (UploadFromSpace1.process_all_csv_from_spaces env w) =
      [EvWrite VJobRunning; EvWrite VStartTime; EvPrint MsgScanning; EvS3 ListObjectsV2;
       EvPrint (MsgFound (len (key :: rest)));
       EvPrint (MsgDownloadingFrom (basename key) (collection_name_of env (basename key)));
       EvS3 (GetObject key)].
Proof.
  intros Hlist Hcsv Hbody. split.
  - apply etl_download_failure_is_skipped. by apply etl_download_fails_when_get_raises.
  - by rewrite (upload_get_failure env contents key rest w Hlist Hcsv Hbody).
Qed.

Lemma download_failure_in_both_scripts_witness :
  let env := mkEnv "per_file" (Some "urls") (inr (Some ["a.csv"; "b.csv"]))
               (λ key, if String.eqb key "a.csv" then Scenario.unreachable
                       else Scenario.file ("1,http://z" ++ Scenario.lf))
               Scenario.csv_unquoted in
  let o := UploadFromSpace1.process_all_csv_from_spaces env Scenario.idle in
  list_objects_v2 env = inr (Some ["a.csv"; "b.csv"])
  ∧ csv_files_of ["a.csv"; "b.csv"] = "a.csv" :: ["b.csv"]
  ∧ body (s3_object env "a.csv") = None
  ∧ passed_over "a.csv" Scenario.idle
      (EtlApiRunner.for_csv_files env ["a.csv"; "b.csv"] Scenario.idle)
      (EtlApiRunner.for_csv_files env ["b.csv"] Scenario.idle)
  ∧ result o = inl ClientError
  ∧ job_running (world o) = true
  ∧ existsb (is_get_object "b.csv") (events o) = false.
Proof.
  intros env o.
  assert (H1 : list_objects_v2 env = inr (Some ["a.csv"; "b.csv"])) by reflexivity.
  assert (H2 : csv_files_of ["a.csv"; "b.csv"] = "a.csv" :: ["b.csv"]) by reflexivity.
  assert (H3 : body (s3_object env "a.csv") = None) by reflexivity.
  destruct (download_failure_in_both_scripts env ["a.csv"; "b.csv"] "a.csv" ["b.csv"]
              Scenario.idle H1 H2 H3) as (Hp & Hr & Hj & He).
  split_and!; done.
Defined.

(** The same bucket under etl_api_runner.py: the failure of [a.csv] is
    reported and [b.csv] is processed. *)
Example etl_download_failure_ex :
  let env := mkEnv "per_file" (Some "urls") (inr (Some ["a.csv"; "b.csv"]))
               (λ key, if String.eqb key "a.csv" then Scenario.unreachable
                       else Scenario.file ("1,http://z" ++ Scenario.lf))
               Scenario.csv_unquoted in
  let o := EtlApiRunner.process_all_csv_from_spaces env Scenario.idle in
  result o = inr tt ∧ job_running (world o) = false
  ∧ existsb (is_get_object "b.csv") (events o) = true
  ∧ collection "b" (db (world o)) = [mkDoc "1" "http://z" "pending"]
  ∧ total_count (world o) = 1 ∧ inserted_count (world o) = 1.
Proof. vm_compute. repeat split; reflexivity. Qed.


(** ** One attempt of the writer, whatever Mongo answers *)

Lemma set_mongo_faults_same w : set_mongo_faults (mongo_faults w) w = w.
Proof. by destruct w. Qed.

Lemma no_faults_drop k fs : forallb negb fs = true → forallb negb (drop k fs) = true.
Proof.
  revert k. induction fs as [|b fs IH]; intros k H; [by destruct k|].
  destruct k as [|k]; [done|]. simpl in *. apply andb_true_iff in H as [_ H]. by apply IH.
Qed.

(** The worlds an attempt of etl_api_runner.py can end in: nothing
    stored, or the document appended and counted, and this only after a
    lookup that found nothing. Mongo calls were used up, nothing else
    moved, S3 was not called. *)
Lemma etl_try_insert_cases c i d w :
  let o := EtlApiRunner.try_insert c i d w in
  result o = inr tt
  ∧ existsb is_s3 (events o) = false
  ∧ ∃ k,
      (world o = set_mongo_faults (drop k (mongo_faults w)) w
       ∧ (no_faults w →
          List.find (λ x, String.eqb (url_id x) (url_id d)) (collection c (db w)) ≠ None))
      ∨ (List.find (λ x, String.eqb (url_id x) (url_id d)) (collection c (db w)) = None
         ∧ world o =
           set_inserted_count (inserted_count w + 1)
             (set_db (<[c := collection c (db w) ++ [d]]> (db w))
                (set_mongo_faults (drop k (mongo_faults w)) w))).
Proof.
  cbv zeta.
  unfold EtlApiRunner.try_insert, EtlApiRunner.dedup_insert, find_one, insert_one, with_lock,
    bind, try_except, mongo_fault, db_find, db_append, load_inserted_count,
    store_inserted_count, print, emit, raise, ret, result, world, events, no_faults.
  simpl.
  destruct (mongo_faults w) as [|[|] fs] eqn:E; simpl.
  - destruct (List.find _ _) eqn:F; simpl; rewrite ?E; simpl; rewrite ?F; simpl.
    + split_and!; try done. exists 0%nat. left. simpl. by rewrite <- E, set_mongo_faults_same.
    + split_and!; try done. exists 0%nat. right. simpl. by rewrite <- E, set_mongo_faults_same.
  - split_and!; try done. exists 1%nat. left. simpl. split; [done|]. intros; discriminate.
  - destruct (List.find _ _) eqn:F; simpl; rewrite ?F; simpl.
    + split_and!; try done. exists 1%nat. left. simpl. done.
    + destruct fs as [|[|] fs']; simpl.
      * split_and!; try done. exists 1%nat. by right.
      * split_and!; try done. exists 2%nat. left. simpl. split; [done|]. intros; discriminate.
      * split_and!; try done. exists 2%nat. right. simpl. done.
Qed.

Lemma find_none_keys uid docs :
  List.find (λ x, String.eqb (url_id x) uid) docs = None ↔ uid ∉ keys docs.
Proof.
  unfold keys. induction docs as [|d rest IH]; simpl.
  - split; [intros _; apply not_elem_of_nil | done].
  - destruct (String.eqb (url_id d) uid) eqn:E.
    + apply String.eqb_eq in E. split; [done|]. intros H. exfalso. apply H. subst. by left.
    + apply String.eqb_neq in E. rewrite IH, not_elem_of_cons. split.
      * intros H. split; [congruence | exact H].
      * intros [_ H]. exact H.
Qed.

Lemma appended_refl c w : appended c [] w w.
Proof. unfold appended, len. rewrite app_nil_r. simpl. split_and!; try done. lia. Qed.

Lemma appended_trans c a b w w1 w2 :
  appended c a w w1 → appended c b w1 w2 → appended c (a ++ b) w w2.
Proof.
  unfold appended, len. intros (H1 & H2 & H3 & H4 & H5 & H6) (G1 & G2 & G3 & G4 & G5 & G6).
  split_and!; try congruence.
  - by rewrite G1, H1, app_assoc.
  - intros c' Hc. by rewrite G2, H2.
  - rewrite G3, H3, length_app. unfold len. lia.
Qed.

Lemma appended_skipped c fs w : appended c [] w (set_mongo_faults fs w).
Proof. unfold appended, len. simpl. rewrite app_nil_r. split_and!; try done. lia. Qed.

Lemma appended_stored c d fs w : appended c [d] w (stored c d fs w).
Proof.
  unfold appended, stored. simpl. split_and!; try done.
  - apply collection_insert.
  - intros c' Hc. by rewrite lookup_insert_ne.
Qed.

(** One round of the row loop of etl_api_runner.py, by its two ways out:
    nothing stored (and then, if Mongo answered, the row was malformed or
    its key was there already), or the document of the row stored and
    counted, its key not there before. *)
Lemma etl_process_row_cases c n i row w :
  let o := EtlApiRunner.process_row c n i row w in
  result o = inr tt
  ∧ existsb is_s3 (events o) = false
  ∧ ∃ k,
      (world o = set_mongo_faults (drop k (mongo_faults w)) w
       ∧ (no_faults w → well_formed row = true →
          url_id (doc_of_row row) ∈ keys (collection c (db w))))
      ∨ (well_formed row = true
         ∧ (url_id (doc_of_row row) ∉ keys (collection c (db w)))
         ∧ world o = stored c (doc_of_row row) (drop k (mongo_faults w)) w).
Proof.
  cbv zeta. unfold EtlApiRunner.process_row, well_formed.
  destruct (len row <? 2) eqn:Hlen.
  - assert ((2 <=? len row) = false) as -> by lia.
    unfold print, emit, result, world, events. simpl.
    split_and!; try done. exists 0%nat. left.
    split; [symmetry; apply set_mongo_faults_same | intros _ H; discriminate H].
  - assert ((2 <=? len row) = true) as -> by lia.
    destruct (etl_try_insert_cases c i (doc_of_row row) w) as (Hr & Hs3 & k & Hw).
    fold (doc_of_row row).
    destruct (EtlApiRunner.try_insert c i (doc_of_row row) w) as [[r1 w1] ev1] eqn:E.
    unfold result, world, events in *. simpl in Hr, Hs3, Hw. subst r1.
    unfold bind. rewrite E. destruct (i mod 1000 =? 0); unfold print, emit, ret; simpl.
    + split_and!; [done | by rewrite existsb_app, Hs3 |].
      exists k. destruct Hw as [[-> Hf]|[Hf ->]].
      * left. split; [done|]. intros Hnf _.
        specialize (Hf Hnf). destruct (decide (url_id (doc_of_row row) ∈ keys (collection c (db w)))); [done|].
        exfalso. apply Hf. by apply find_none_keys.
      * right. split_and!; try done. by apply find_none_keys.
    + split_and!; [done | by rewrite app_nil_r |].
      exists k. destruct Hw as [[-> Hf]|[Hf ->]].
      * left. split; [done|]. intros Hnf _.
        specialize (Hf Hnf). destruct (decide (url_id (doc_of_row row) ∈ keys (collection c (db w)))); [done|].
        exfalso. apply Hf. by apply find_none_keys.
      * right. split_and!; try done. by apply find_none_keys.
Qed.

Lemma no_faults_skipped k w :
  no_faults w → no_faults (set_mongo_faults (drop k (mongo_faults w)) w).
Proof. unfold no_faults. simpl. apply no_faults_drop. Qed.

Lemma no_faults_stored c d k w :
  no_faults w → no_faults (stored c d (drop k (mongo_faults w)) w).
Proof. unfold no_faults, stored. simpl. apply no_faults_drop. Qed.

Lemma keys_app docs docs' : keys (docs ++ docs') = keys docs ++ keys docs'.
Proof. unfold keys. apply List.map_app. Qed.

Lemma appended_keys c added w w1 uid :
  appended c added w w1 →
  uid ∈ keys (collection c (db w)) → uid ∈ keys (collection c (db w1)).
Proof.
  intros (H & _) Hin. rewrite H, keys_app. apply elem_of_app. by left.
Qed.

(** Everything the row loop needs to know of one round. *)
Lemma etl_process_row_step c n i row w :
  ∃ w1 ev added,
    EtlApiRunner.process_row c n i row w = (inr tt, w1, ev)
    ∧ existsb is_s3 ev = false
    ∧ total_count w1 = total_count w
    ∧ (no_faults w → no_faults w1)
    ∧ appended c added w w1
    ∧ added `sublist_of` (if well_formed row then [doc_of_row row] else [])
    ∧ (NoDup (keys (collection c (db w))) → NoDup (keys (collection c (db w1))))
    ∧ (no_faults w → well_formed row = true →
       url_id (doc_of_row row) ∈ keys (collection c (db w1)))
    ∧ (no_faults w →
       (well_formed row = true → url_id (doc_of_row row) ∈ keys (collection c (db w))) →
       db w1 = db w ∧ inserted_count w1 = inserted_count w).
Proof.
  destruct (etl_process_row_cases c n i row w) as (Hr & Hs3 & k & Hw).
  destruct (EtlApiRunner.process_row c n i row w) as [[r1 w1] ev1].
  unfold result, world, events in *. simpl in Hr, Hs3, Hw. subst r1.
  destruct Hw as [[-> Hf]|(Hwf & Hnew & ->)].
  - exists (set_mongo_faults (drop k (mongo_faults w)) w), ev1, [].
    split_and!; try done.
    + apply no_faults_skipped.
    + apply appended_skipped.
    + apply sublist_nil_l.
  - exists (stored c (doc_of_row row) (drop k (mongo_faults w)) w), ev1, [doc_of_row row].
    split_and!; try done.
    + apply no_faults_stored.
    + apply appended_stored.
    + by rewrite Hwf.
    + intros Hnd. unfold stored. simpl. rewrite collection_insert, keys_app. simpl.
      apply NoDup_app. split_and!; [done | | apply NoDup_singleton].
      intros x Hx Hx'. apply list_elem_of_singleton in Hx'. by subst.
    + intros _ _. unfold stored. simpl. rewrite collection_insert, keys_app.
      apply elem_of_app. right. by left.
    + intros _ Hin. by specialize (Hin Hwf).
Qed.

(** The row loop of etl_api_runner.py, whatever Mongo answers: it
    returns, calls no S3, leaves [total_count], appends to the collection
    documents of well-formed rows in the order of the file, counts each of
    them, and keeps the keys of the collection distinct when they were. *)
Lemma etl_insert_rows_appended c n rows : ∀ i w,
  ∃ w1 ev added,
    EtlApiRunner.insert_rows c n i rows w = (inr tt, w1, ev)
    ∧ existsb is_s3 ev = false
    ∧ total_count w1 = total_count w
    ∧ (no_faults w → no_faults w1)
    ∧ appended c added w w1
    ∧ added `sublist_of` rows_docs rows
    ∧ (NoDup (keys (collection c (db w))) → NoDup (keys (collection c (db w1)))).
Proof.
  induction rows as [|row rest IH]; intros i w.
  - exists w, [], []. split_and!; try done. apply appended_refl.
  - cbn [EtlApiRunner.insert_rows].
    destruct (etl_process_row_step c n i row w)
      as (w1 & ev1 & a1 & E1 & Hs1 & Ht1 & Hn1 & Ha1 & Hsub1 & Hnd1 & _).
    destruct (IH (i + 1) w1) as (w2 & ev2 & a2 & E2 & Hs2 & Ht2 & Hn2 & Ha2 & Hsub2 & Hnd2).
    exists w2, (ev1 ++ ev2), (a1 ++ a2).
    split_and!.
    + unfold bind. by rewrite E1, E2.
    + by rewrite existsb_app, Hs1, Hs2.
    + congruence.
    + auto.
    + by eapply appended_trans.
    + unfold rows_docs. simpl. destruct (well_formed row); simpl.
      * change (doc_of_row row :: List.map doc_of_row (List.filter well_formed rest))
          with ([doc_of_row row] ++ List.map doc_of_row (List.filter well_formed rest)).
        by apply sublist_app.
      * apply sublist_nil_r in Hsub1 as ->. exact Hsub2.
    + auto.
Qed.

(** After a pass that Mongo answered, the key of every well-formed row is
    in the collection. *)
Lemma etl_insert_rows_present c n rows : ∀ i w,
  no_faults w →
  ∀ row, row ∈ rows → well_formed row = true →
  url_id (doc_of_row row)
    ∈ keys (collection c (db (world (EtlApiRunner.insert_rows c n i rows w)))).
Proof.
  induction rows as [|r rest IH]; intros i w Hnf row Hin Hwf.
  - by apply elem_of_nil in Hin.
  - cbn [EtlApiRunner.insert_rows].
    destruct (etl_process_row_step c n i r w)
      as (w1 & ev1 & a1 & E1 & _ & _ & Hn1 & _ & _ & _ & Hp1 & _).
    destruct (etl_insert_rows_appended c n rest (i + 1) w1)
      as (w2 & ev2 & a2 & E2 & _ & _ & _ & Ha2 & _).
    specialize (IH (i + 1) w1 (Hn1 Hnf) row).
    unfold bind. rewrite E1. rewrite E2 in *. unfold world in *. simpl in *.
    apply elem_of_cons in Hin as [->|Hin].
    + eapply appended_keys; [exact Ha2|]. by apply Hp1.
    + by apply IH.
Qed.

(** A pass over rows whose keys are all in the collection, answered by
    Mongo, stores nothing and counts nothing. *)
Lemma etl_insert_rows_idle c n rows : ∀ i w,
  no_faults w →
  (∀ row, row ∈ rows → well_formed row = true →
     url_id (doc_of_row row) ∈ keys (collection c (db w))) →
  db (world (EtlApiRunner.insert_rows c n i rows w)) = db w
  ∧ inserted_count (world (EtlApiRunner.insert_rows c n i rows w)) = inserted_count w.
Proof.
  induction rows as [|r rest IH]; intros i w Hnf Hall.
  - done.
  - cbn [EtlApiRunner.insert_rows].
    destruct (etl_process_row_step c n i r w)
      as (w1 & ev1 & a1 & E1 & _ & _ & Hn1 & _ & _ & _ & _ & Hidle).
    destruct (Hidle Hnf) as (Hdb & Hic).
    { intros Hwf. apply Hall; [by left | done]. }
    destruct (IH (i + 1) w1 (Hn1 Hnf)) as (Hdb2 & Hic2).
    { intros row Hin Hwf. rewrite Hdb. apply Hall; [by right | done]. }
    unfold bind. rewrite E1.
    destruct (EtlApiRunner.insert_rows c n (i + 1) rest w1) as [[r2 w2] ev2].
    unfold world in *. simpl in *. split; congruence.
Qed.

(** ** One file, whatever Mongo answers *)

(** A stream that does not decode or parse: the failure is printed and
    nothing else happens. *)
Lemma etl_file_unreadable env stream c w :
  csv_rows env stream = None →
  EtlApiRunner.insert_csv_into env stream c w
  = (inr tt, w, [EvPrint (MsgFailedReadCsv c)]).
Proof.
  intros H. unfold EtlApiRunner.insert_csv_into, EtlApiRunner.read_rows.
  by rewrite H.
Qed.

(** A stream that parses to [rows]: the count of the rows, the row loop,
    the last print. *)
Lemma etl_file_readable env stream c rows w w2 ev :
  csv_rows env stream = Some rows →
  EtlApiRunner.insert_rows c (len rows) 1 rows (set_total_count (total_count w + len rows) w)
  = (inr tt, w2, ev) →
  EtlApiRunner.insert_csv_into env stream c w
  = (inr tt, w2,
     [EvRead VTotalCount; EvWrite VTotalCount; EvPrint (MsgStartingInsert c (len rows))]
     ++ ev
     ++ [EvRead VInsertedCount; EvRead VTotalCount;
         EvPrint (MsgFinished c (inserted_count w2) (total_count w2))]).
Proof.
  intros H E. unfold EtlApiRunner.insert_csv_into, EtlApiRunner.read_rows.
  rewrite H.
  unfold bind, try_except, ret, load_total_count, store_total_count, load_inserted_count,
    print, emit. cbn iota beta.
  rewrite E. cbn iota beta. simpl. rewrite <- ?app_assoc. simpl. done.
Qed.

Lemma appended_set_total_count c v w : appended c [] w (set_total_count v w).
Proof. unfold appended, len. simpl. rewrite app_nil_r. split_and!; try done. lia. Qed.

Lemma existsb_is_s3_app evs1 evs2 :
  existsb is_s3 evs1 = false → existsb is_s3 evs2 = false →
  existsb is_s3 (evs1 ++ evs2) = false.
Proof. intros H1 H2. by rewrite existsb_app, H1, H2. Qed.

(** Everything the file loop needs to know of [insert_csv_from_stream] of
    etl_api_runner.py. *)
Lemma etl_file_step env stream c w :
  ∃ w1 ev added,
    EtlApiRunner.insert_csv_into env stream c w = (inr tt, w1, ev)
    ∧ existsb is_s3 ev = false
    ∧ appended c added w w1
    ∧ (no_faults w → no_faults w1)
    ∧ (NoDup (keys (collection c (db w))) → NoDup (keys (collection c (db w1))))
    ∧ match csv_rows env stream with
      | Some rows =>
          added `sublist_of` rows_docs rows ∧ total_count w1 = total_count w + len rows
      | None => added = [] ∧ total_count w1 = total_count w
      end.
Proof.
  destruct (csv_rows env stream) as [rows|] eqn:Hrows.
  - destruct (etl_insert_rows_appended c (len rows) rows 1
                (set_total_count (total_count w + len rows) w))
      as (w2 & ev & added & E & Hs & Ht & Hn & Ha & Hsub & Hnd).
    eexists w2, _, added. split_and!.
    + by apply (etl_file_readable env stream c rows w w2 ev).
    + simpl. apply existsb_is_s3_app; [done|]. reflexivity.
    + apply (appended_trans c [] added w (set_total_count (total_count w + len rows) w) w2);
        [apply appended_set_total_count | exact Ha].
    + exact Hn.
    + exact Hnd.
    + done.
    + exact Ht.
  - exists w, [EvPrint (MsgFailedReadCsv c)], [].
    split_and!; try done.
    + by apply etl_file_unreadable.
    + apply appended_refl.
Qed.

(** One round of the row loop of upload_from_space1.py, by its two ways
    out: nothing stored (the row was malformed, or [insert_one] raised), or
    the document of the row stored and counted. *)
Lemma upload_process_row_cases c row w :
  let o := UploadFromSpace1.process_row c row w in
  result o = inr tt
  ∧ existsb is_s3 (events o) = false
  ∧ ∃ k,
      (world o = set_mongo_faults (drop k (mongo_faults w)) w
       ∧ (no_faults w → well_formed row = false))
      ∨ (well_formed row = true
         ∧ world o = stored c (doc_of_row row) (drop k (mongo_faults w)) w).
Proof.
  cbv zeta. unfold UploadFromSpace1.process_row, well_formed.
  destruct (len row <? 2) eqn:Hlen.
  - assert ((2 <=? len row) = false) as -> by lia.
    unfold ret, result, world, events. simpl.
    split_and!; try done. exists 0%nat. left.
    split; [symmetry; apply set_mongo_faults_same | done].
  - assert ((2 <=? len row) = true) as -> by lia.
    unfold insert_one, with_lock, bind, try_except, mongo_fault, db_append,
      load_inserted_count, store_inserted_count, print, emit, raise, ret, result, world,
      events, no_faults.
    simpl. fold (doc_of_row row).
    destruct (mongo_faults w) as [|[|] fs] eqn:E; simpl.
    + split_and!; try done. exists 0%nat. right. split; [done|].
      unfold stored. simpl. by rewrite <- E, set_mongo_faults_same.
    + split_and!; try done. exists 1%nat. left. simpl. split; [done|]. intros; discriminate.
    + split_and!; try done. exists 1%nat. right. by split.
Qed.

Lemma upload_process_row_step c row w :
  ∃ w1 ev added,
    UploadFromSpace1.process_row c row w = (inr tt, w1, ev)
    ∧ existsb is_s3 ev = false
    ∧ total_count w1 = total_count w
    ∧ (no_faults w → no_faults w1)
    ∧ appended c added w w1
    ∧ added `sublist_of` (if well_formed row then [doc_of_row row] else [])
    ∧ (no_faults w → added = if well_formed row then [doc_of_row row] else []).
Proof.
  destruct (upload_process_row_cases c row w) as (Hr & Hs3 & k & Hw).
  destruct (UploadFromSpace1.process_row c row w) as [[r1 w1] ev1].
  unfold result, world, events in *. simpl in Hr, Hs3, Hw. subst r1.
  destruct Hw as [[-> Hf]|(Hwf & ->)].
  - exists (set_mongo_faults (drop k (mongo_faults w)) w), ev1, [].
    split_and!; try done.
    + apply no_faults_skipped.
    + apply appended_skipped.
    + apply sublist_nil_l.
    + intros Hnf. by rewrite (Hf Hnf).
  - exists (stored c (doc_of_row row) (drop k (mongo_faults w)) w), ev1, [doc_of_row row].
    split_and!; try done.
    + apply no_faults_stored.
    + apply appended_stored.
    + by rewrite Hwf.
    + by rewrite Hwf.
Qed.

(** The row loop of upload_from_space1.py: as the one of
    etl_api_runner.py, without the lookup; when Mongo answers, the
    documents appended are those of all the well-formed rows. *)
Lemma upload_insert_rows_appended c rows : ∀ w,
  ∃ w1 ev added,
    UploadFromSpace1.insert_rows c rows w = (inr tt, w1, ev)
    ∧ existsb is_s3 ev = false
    ∧ total_count w1 = total_count w
    ∧ (no_faults w → no_faults w1)
    ∧ appended c added w w1
    ∧ added `sublist_of` rows_docs rows
    ∧ (no_faults w → added = rows_docs rows).
Proof.
  induction rows as [|row rest IH]; intros w.
  - exists w, [], []. split_and!; try done. apply appended_refl.
  - cbn [UploadFromSpace1.insert_rows].
    destruct (upload_process_row_step c row w)
      as (w1 & ev1 & a1 & E1 & Hs1 & Ht1 & Hn1 & Ha1 & Hsub1 & Hex1).
    destruct (IH w1) as (w2 & ev2 & a2 & E2 & Hs2 & Ht2 & Hn2 & Ha2 & Hsub2 & Hex2).
    exists w2, (ev1 ++ ev2), (a1 ++ a2).
    split_and!.
    + unfold bind. by rewrite E1, E2.
    + by rewrite existsb_app, Hs1, Hs2.
    + congruence.
    + auto.
    + by eapply appended_trans.
    + unfold rows_docs. simpl. destruct (well_formed row); simpl.
      * change (doc_of_row row :: List.map doc_of_row (List.filter well_formed rest))
          with ([doc_of_row row] ++ List.map doc_of_row (List.filter well_formed rest)).
        by apply sublist_app.
      * apply sublist_nil_r in Hsub1 as ->. exact Hsub2.
    + intros Hnf. rewrite (Hex1 Hnf), (Hex2 (Hn1 Hnf)).
      unfold rows_docs. simpl. by destruct (well_formed row).
Qed.

(** [insert_csv_from_stream] of upload_from_space1.py on a stream that
    does not read, decode or parse: the exception leaves the function and
    nothing has changed. *)
Lemma upload_file_unreadable env key stream c w :
  (∀ data, UploadFromSpace1.read_all stream = inr data → csv_rows env data = None) →
  ∃ e, UploadFromSpace1.insert_csv_into env key stream c w
       = (inl e, w, [EvS3 (ReadBody key)]).
Proof.
  intros H. unfold UploadFromSpace1.insert_csv_into, UploadFromSpace1.read_rows.
  destruct (UploadFromSpace1.read_all stream) as [e|data]; [by exists e|].
  rewrite (H data eq_refl). by exists DecodeError.
Qed.

Lemma upload_file_readable env key stream data c rows w w2 ev :
  UploadFromSpace1.read_all stream = inr data →
  csv_rows env data = Some rows →
  UploadFromSpace1.insert_rows c rows (set_total_count (total_count w + len rows) w)
  = (inr tt, w2, ev) →
  UploadFromSpace1.insert_csv_into env key stream c w
  = (inr tt, w2, [EvS3 (ReadBody key); EvRead VTotalCount; EvWrite VTotalCount] ++ ev).
Proof.
  intros Hread H E.
  unfold UploadFromSpace1.insert_csv_into, UploadFromSpace1.read_rows.
  rewrite Hread, H.
  unfold bind, ret, load_total_count, store_total_count, emit. cbn iota beta.
  by rewrite E.
Qed.

(** ** The counters and the keys along a run *)

Lemma grows_refl w : grows w w.
Proof. unfold grows. lia. Qed.

Lemma grows_trans w w1 w2 : grows w w1 → grows w1 w2 → grows w w2.
Proof. unfold grows. lia. Qed.

Lemma len_rows_docs rows : len (rows_docs rows) ≤ len rows.
Proof.
  unfold rows_docs, len. rewrite length_map.
  pose proof (List.filter_length_le well_formed rows). lia.
Qed.

Lemma appended_grows c added rows w w1 :
  appended c added w w1 →
  added `sublist_of` rows_docs rows →
  total_count w1 = total_count w + len rows →
  grows w w1.
Proof.
  intros (_ & _ & Hi & _) Hsub Ht.
  pose proof (sublist_length _ _ Hsub) as Hl. pose proof (len_rows_docs rows).
  unfold grows, len in *. lia.
Qed.

Lemma appended_unique_keys c added w w1 :
  appended c added w w1 →
  (NoDup (keys (collection c (db w))) → NoDup (keys (collection c (db w1)))) →
  unique_keys (db w) → unique_keys (db w1).
Proof.
  intros (_ & Hother & _) Hnd Hu c'. destruct (decide (c' = c)) as [->|Hne].
  - apply Hnd, Hu.
  - unfold collection. rewrite (Hother c' Hne). apply Hu.
Qed.

Lemma head_keys_app evs1 evs2 : head_keys (evs1 ++ evs2) = head_keys evs1 ++ head_keys evs2.
Proof. unfold head_keys. apply omap_app. Qed.

Lemma head_keys_no_s3 evs : existsb is_s3 evs = false → head_keys evs = [].
Proof.
  induction evs as [|e rest IH]; [done|]. simpl. intros H.
  apply orb_false_iff in H as [He Hrest].
  destruct e as [| | | | |s|]; try discriminate; by apply IH.
Qed.

Lemma etl_read_chunks_heads key total_size chunks : ∀ downloaded buffer w,
  head_keys (events (EtlApiRunner.read_chunks key total_size chunks downloaded buffer w)) = [].
Proof.
  induction chunks as [|c rest IH]; intros downloaded buffer w.
  - done.
  - cbn [EtlApiRunner.read_chunks].
    destruct c as [[|b data]|]; [done| |done].
    destruct (total_size =? 0); [done|].
    specialize (IH (downloaded + len (b :: data)) (buffer ++ b :: data) w).
    unfold bind, print, emit, events in *.
    destruct (EtlApiRunner.read_chunks _ _ _ _ _ w) as [[r w1] ev]. simpl in *. exact IH.
Qed.

(** [download_with_progress] asks for the head of its key once, and of no
    other key. *)
Lemma etl_download_heads env key filename w :
  head_keys (events (EtlApiRunner.download_with_progress env key filename w)) = [key].
Proof.
  unfold EtlApiRunner.download_with_progress, s3_head_object, s3_get_object.
  destruct (content_length (s3_object env key)) as [total_size|]; [|done].
  destruct (body (s3_object env key)) as [chunks|]; [|done].
  pose proof (etl_read_chunks_heads key total_size chunks 0 [] w) as H.
  unfold try_except, bind, print, emit, ret, events in *.
  destruct (EtlApiRunner.read_chunks key total_size chunks 0 [] w) as [[[e|buffer] w1] ev];
    simpl in *; rewrite !head_keys_app, H; done.
Qed.

(** Everything the file loop of etl_api_runner.py needs to know of one
    round: it returns, whatever failed; it asks for the head of its key
    and of no other; the counters do not go down and [inserted_count]
    stays at most [total_count]; [start_time] and [job_running] are not
    touched; the keys of every collection stay distinct. *)
Lemma etl_loop_insert_step env f cn b w :
  ∃ w1 ev,
    EtlApiRunner.loop_insert env f cn (Some b) w = (inr tt, w1, ev)
    ∧ existsb is_s3 ev = false
    ∧ grows w w1
    ∧ start_time w1 = start_time w
    ∧ job_running w1 = job_running w
    ∧ (unique_keys (db w) → unique_keys (db w1))
    ∧ (no_faults w → no_faults w1).
Proof.
  unfold EtlApiRunner.loop_insert, EtlApiRunner.insert_csv_from_stream.
  destruct (db_getitem_cases cn w) as [(c & -> & Hc & E)|(e & E & _)].
  - destruct (etl_file_step env b c w) as (w1 & ev & added & E1 & Hs3 & Ha & Hn & Hnd & Hrows).
    unfold try_except, bind. rewrite E, E1.
    eexists w1, _. split_and!; try done.
    + destruct (csv_rows env b) as [rows|].
      * destruct Hrows as (Hsub & Ht). by eapply appended_grows.
      * destruct Hrows as (-> & Ht). destruct Ha as (_ & _ & Hi & _).
        unfold grows, len in *. simpl in *. lia.
    + by destruct Ha as (_ & _ & _ & _ & ? & _).
    + by destruct Ha as (_ & _ & _ & ? & _).
    + by eapply appended_unique_keys.
  - unfold try_except, bind. rewrite E. unfold print, emit.
    eexists w, _. split_and!; try done; apply grows_refl.
Qed.

Lemma etl_loop_body_step env key w :
  ∃ w1 ev,
    EtlApiRunner.loop_body env key w = (inr tt, w1, ev)
    ∧ head_keys ev = [key]
    ∧ grows w w1
    ∧ start_time w1 = start_time w
    ∧ job_running w1 = job_running w
    ∧ (unique_keys (db w) → unique_keys (db w1))
    ∧ (no_faults w → no_faults w1).
Proof.
  destruct (etl_download_with_progress_spec env key (basename key) w) as (r & evd & Ed & _ & _).
  pose proof (etl_download_heads env key (basename key) w) as Hh.
  rewrite Ed in Hh. unfold events in Hh. simpl in Hh.
  assert (El : EtlApiRunner.loop_download env key w
               = (inr (basename key, collection_name_of env (basename key), r), w,
                  EvPrint (MsgProcessing (basename key) (collection_name_of env (basename key)))
                  :: evd)).
  { unfold EtlApiRunner.loop_download. cbv zeta. unfold bind, print, emit, ret.
    rewrite Ed. simpl. by rewrite app_nil_r. }
  unfold EtlApiRunner.loop_body. unfold bind. rewrite El. cbn [fst snd].
  destruct r as [b|].
  - destruct (etl_loop_insert_step env (basename key) (collection_name_of env (basename key)) b w)
      as (w1 & ev & E & Hs3 & Hg & Hst & Hj & Hu & Hn).
    rewrite E.
    eexists w1, _. split_and!; try done.
    simpl. rewrite head_keys_app, Hh, (head_keys_no_s3 ev Hs3). done.
  - unfold EtlApiRunner.loop_insert, ret. eexists w, _.
    split_and!; try done; try apply grows_refl.
    simpl. by rewrite ?app_nil_r, ?Hh.
Qed.

Lemma etl_for_csv_files_step env csv_files : ∀ w,
  ∃ w1 ev,
    EtlApiRunner.for_csv_files env csv_files w = (inr tt, w1, ev)
    ∧ head_keys ev = csv_files
    ∧ grows w w1
    ∧ start_time w1 = start_time w
    ∧ job_running w1 = job_running w
    ∧ (unique_keys (db w) → unique_keys (db w1))
    ∧ (no_faults w → no_faults w1).
Proof.
  induction csv_files as [|key rest IH]; intros w.
  - exists w, []. split_and!; try done.
  - cbn [EtlApiRunner.for_csv_files].
    destruct (etl_loop_body_step env key w) as (w1 & ev1 & E1 & Hh1 & Hg1 & Hs1 & Hj1 & Hu1 & Hn1).
    destruct (IH w1) as (w2 & ev2 & E2 & Hh2 & Hg2 & Hs2 & Hj2 & Hu2 & Hn2).
    exists w2, (ev1 ++ ev2). split_and!.
    + unfold bind. by rewrite E1, E2.
    + by rewrite head_keys_app, Hh1, Hh2.
    + by eapply grows_trans.
    + congruence.
    + congruence.
    + auto.
    + auto.
Qed.

Lemma etl_after_loop_run w s :
  start_time w = Some s →
  EtlApiRunner.after_loop w
  = (inr tt, set_job_running false w,
     [EvWrite VJobRunning; EvRead VStartTime; EvRead VInsertedCount; EvRead VTotalCount;
      EvPrint (MsgAllComplete (py_int (now w - s)%Q) (inserted_count w) (total_count w))]).
Proof.
  intros H. unfold EtlApiRunner.after_loop, bind, store_job_running, time_time,
    load_start_time, load_inserted_count, load_total_count, print, emit, ret.
  simpl. rewrite H. reflexivity.
Qed.

Lemma etl_process_all_listed env contents w :
  list_objects_v2 env = inr (Some contents) →
  let w1 := set_start_time (Some (now w)) (set_job_running true w) in
  let o := bind (EtlApiRunner.for_csv_files env (csv_files_of contents))
             (λ _, EtlApiRunner.after_loop) w1 in
  EtlApiRunner.process_all_csv_from_spaces env w =
  (result o, world o,
   [EvWrite VJobRunning; EvWrite VStartTime; EvPrint MsgScanning; EvS3 ListObjectsV2;
    EvPrint (MsgFound (len (csv_files_of contents)))] ++ events o).
Proof.
  intros Hlist w1 o. subst o.
  unfold EtlApiRunner.process_all_csv_from_spaces, s3_list_objects_v2. rewrite Hlist.
  unfold bind at 1 2 3 4 5 6 7 8, try_except, store_job_running at 1, time_time at 1,
    store_start_time at 1, print at 1 2, emit at 1 2 3, ret at 1 2.
  cbn beta iota zeta. rewrite bind_print. cbn beta.
  change (now (set_job_running true w)) with (now w). fold w1.
  by destruct (bind (EtlApiRunner.for_csv_files env (csv_files_of contents))
            (λ _, EtlApiRunner.after_loop) w1) as [[r3 w3] ev3].
Qed.

(** A whole run of etl_api_runner.py. *)
Lemma etl_run_step env w :
  ∃ w1 ev,
    EtlApiRunner.process_all_csv_from_spaces env w = (inr tt, w1, ev)
    ∧ job_running w1 = false
    ∧ start_time w1 = Some (now w)
    ∧ grows w w1
    ∧ (unique_keys (db w) → unique_keys (db w1))
    ∧ head_keys ev = keys_to_process env.
Proof.
  unfold keys_to_process.
  destruct (list_objects_v2 env) as [e|[contents|]] eqn:Hlist.
  - rewrite (etl_listing_failure env w e Hlist). eexists _, _. split_and!; try done.
  - rewrite (etl_process_all_listed env contents w Hlist). cbv zeta.
    destruct (etl_for_csv_files_step env (csv_files_of contents)
                (set_start_time (Some (now w)) (set_job_running true w)))
      as (w2 & ev2 & E2 & Hh & Hg & Hs & Hj & Hu & _).
    simpl in Hs.
    unfold bind. rewrite E2, (etl_after_loop_run w2 (now w) Hs).
    assert (Hg' : grows w (set_job_running false w2)).
    { unfold grows in *. simpl in *. lia. }
    assert (Hh' : head_keys
      ([EvWrite VJobRunning; EvWrite VStartTime; EvPrint MsgScanning; EvS3 ListObjectsV2;
        EvPrint (MsgFound (len (csv_files_of contents)))]
       ++ ev2 ++
       [EvWrite VJobRunning; EvRead VStartTime; EvRead VInsertedCount; EvRead VTotalCount;
        EvPrint (MsgAllComplete (py_int (now w2 - now w)%Q) (inserted_count w2)
                   (total_count w2))]) = csv_files_of contents).
    { rewrite !head_keys_app, Hh. simpl. by rewrite app_nil_r. }
    unfold result, world, events. cbn [fst snd].
    eexists _, _. split; [reflexivity|].
    split; [done|]. split; [done|]. split; [exact Hg'|]. split; [exact Hu|]. exact Hh'.
  - rewrite (etl_no_contents env w Hlist). eexists _, _. split_and!; try done.
Qed.

(** Everything the file loop needs to know of [insert_csv_from_stream] of
    upload_from_space1.py: it returns exactly when the stream reads and
    parses; otherwise the exception leaves it with nothing changed. *)
Lemma upload_file_step env key stream c w :
  ∃ r w1 ev added,
    UploadFromSpace1.insert_csv_into env key stream c w = (r, w1, ev)
    ∧ appended c added w w1
    ∧ added `sublist_of` rows_docs (default [] (upload_rows env stream))
    ∧ total_count w1 = total_count w + len (default [] (upload_rows env stream))
    ∧ (no_faults w → no_faults w1)
    ∧ (no_faults w → added = rows_docs (default [] (upload_rows env stream)))
    ∧ (r = inr tt ↔ is_Some (upload_rows env stream)).
Proof.
  unfold upload_rows.
  destruct (UploadFromSpace1.read_all stream) as [e|data] eqn:Hread.
  - destruct (upload_file_unreadable env key stream c w) as (e' & E).
    { intros data H. congruence. }
    exists (inl e'), w, [EvS3 (ReadBody key)], []. simpl.
    split_and!; try done; try apply appended_refl; try (unfold len; simpl; lia);
      try (split; [done | by intros [? ?]]).
  - destruct (csv_rows env data) as [rows|] eqn:Hrows.
    + destruct (upload_insert_rows_appended c rows (set_total_count (total_count w + len rows) w))
        as (w2 & ev & added & E & Hs & Ht & Hn & Ha & Hsub & Hex).
      eexists (inr tt), w2, _, added. simpl. split_and!.
      * by apply (upload_file_readable env key stream data c rows w w2 ev).
      * apply (appended_trans c [] added w (set_total_count (total_count w + len rows) w) w2);
          [apply appended_set_total_count | exact Ha].
      * exact Hsub.
      * exact Ht.
      * exact Hn.
      * exact Hex.
      * split; [by eexists | done].
    + destruct (upload_file_unreadable env key stream c w) as (e' & E).
      { intros data' H. congruence. }
      exists (inl e'), w, [EvS3 (ReadBody key)], []. simpl.
      split_and!; try done; try apply appended_refl; try (unfold len; simpl; lia);
        try (split; [done | by intros [? ?]]).
Qed.

Lemma file_appends_grows c rows w o : file_appends c rows w o → grows w (world o).
Proof.
  intros (added & Ha & Hsub & Ht). by eapply appended_grows.
Qed.

Lemma file_appends_into env key c data stream w :
  file_appends c (csv_rows env data) w (EtlApiRunner.insert_csv_into env data c w)
  ∧ file_appends c (upload_rows env stream) w
      (UploadFromSpace1.insert_csv_into env key stream c w).
Proof.
  split.
  - destruct (etl_file_step env data c w) as (w1 & ev & added & E & _ & Ha & _ & _ & Hrows).
    rewrite E. exists added. unfold world. simpl.
    destruct (csv_rows env data) as [rows|]; simpl.
    + destruct Hrows as (Hsub & Ht). done.
    + destruct Hrows as (-> & Ht). split_and!; try done. unfold len. simpl. lia.
  - destruct (upload_file_step env key stream c w)
      as (r & w1 & ev & added & E & Ha & Hsub & Ht & _).
    rewrite E. by exists added.
Qed.

(** X1. What a file does to the database is what it counts, in both
    scripts and whatever Mongo answers (a Mongo call that raises counting as
    a call that stored nothing). With a collection name the driver
    accepts, [insert_csv_from_stream] appends to the collection of that
    name documents of rows with at least 2 fields, in the order of the
    file, and adds exactly their number to [inserted_count]; the documents
    the collection held stay where they were, the other collections,
    [job_running] and [start_time] are not touched, and [total_count]
    grows by the number of rows (by nothing when the stream does not
    parse). With a name the driver refuses the call raises [InvalidName],
    with no name [TypeError], and the world is as before. *)
Theorem stored_documents_are_counted (env : Env) (key : string) (cn : option string)
    (data : bytes) (stream : list (option bytes)) (w : World) :
  file_outcome cn (csv_rows env data) w (EtlApiRunner.insert_csv_from_stream env data cn w)
  ∧ file_outcome cn (upload_rows env stream) w
      (UploadFromSpace1.insert_csv_from_stream env key stream cn w).
Proof.
  unfold file_outcome. destruct cn as [c|].
  - destruct (name_refused c) eqn:Hc.
    + unfold EtlApiRunner.insert_csv_from_stream, UploadFromSpace1.insert_csv_from_stream,
        db_getitem, bind, raise. rewrite Hc. done.
    + rewrite (etl_insert_accepted env data c w Hc),
        (upload_insert_accepted env key stream c w Hc).
      apply file_appends_into.
  - done.
Qed.

(** X2. upload_from_space1.py has no lookup: when the driver accepts the
    collection name, the stream reads and parses and Mongo answers,
    [insert_csv_from_stream] appends the document of every row with at
    least 2 fields, in the order of the file and whatever the collection
    holds already (a key the file names twice is stored twice), and counts
    them all. *)
Theorem upload_stores_every_well_formed_row (env : Env) (key c : string)
    (stream : list (option bytes)) (data : bytes) (rows : list (list string)) (w : World) :
  name_refused c = false →
  no_faults w →
  UploadFromSpace1.read_all stream = inr data →
  csv_rows env data = Some rows →
  let o := UploadFromSpace1.insert_csv_from_stream env key stream (Some c) w in
  result o = inr tt
  ∧ collection c (db (world o)) = collection c (db w) ++ rows_docs rows
  ∧ inserted_count (world o) = inserted_count w + len (rows_docs rows)
  ∧ total_count (world o) = total_count w + len rows.
Proof.
  intros Hc Hnf Hread Hrows. cbv zeta.
  rewrite (upload_insert_accepted env key stream c w Hc).
  destruct (upload_file_step env key stream c w)
    as (r & w1 & ev & added & E & Ha & _ & Ht & _ & Hex & Hr).
  unfold upload_rows in *. rewrite Hread, Hrows in *. simpl in *.
  rewrite E. unfold result, world. simpl.
  rewrite (Hex Hnf) in Ha. destruct Ha as (Hcol & _ & Hi & _).
  split_and!; try done. apply Hr. by eexists.
Qed.

Lemma upload_stores_every_well_formed_row_witness :
  let rows := [["1"; "http://x"]; ["1"; "http://y"]] in
  let o := UploadFromSpace1.insert_csv_from_stream Scenario.two_files "a.csv"
             [Some Scenario.twice_1] (Some "a") Scenario.idle in
  name_refused "a" = false
  ∧ no_faults Scenario.idle
  ∧ UploadFromSpace1.read_all [Some Scenario.twice_1] = inr Scenario.twice_1
  ∧ csv_rows Scenario.two_files Scenario.twice_1 = Some rows
  ∧ result o = inr tt
  ∧ collection "a" (db (world o)) = collection "a" (db Scenario.idle) ++ rows_docs rows
  ∧ inserted_count (world o) = inserted_count Scenario.idle + len (rows_docs rows)
  ∧ total_count (world o) = total_count Scenario.idle + len rows.
Proof.
  intros rows o.
  assert (H0 : name_refused "a" = false) by reflexivity.
  assert (H1 : no_faults Scenario.idle) by reflexivity.
  assert (H2 : UploadFromSpace1.read_all [Some Scenario.twice_1] = inr Scenario.twice_1)
    by reflexivity.
  assert (H3 : csv_rows Scenario.two_files Scenario.twice_1 = Some rows) by reflexivity.
  split; [exact H0|]. split; [exact H1|]. split; [exact H2|]. split; [exact H3|].
  exact (upload_stores_every_well_formed_row Scenario.two_files "a.csv" "a"
           [Some Scenario.twice_1] Scenario.twice_1 rows Scenario.idle H0 H1 H2 H3).
Defined.

(** X3. A run of etl_api_runner.py keeps the keys distinct: when no
    collection of the database holds two documents with the same [url_id]
    before the run, none does after it, whatever the bucket holds and
    whatever Mongo answers. (One run at a time: the lookup and the insert
    of a row are not one step for a second writer.) *)
Theorem etl_run_keeps_keys_distinct (env : Env) (w : World) :
  unique_keys (db w) →
  unique_keys (db (world (EtlApiRunner.process_all_csv_from_spaces env w))).
Proof.
  intros Hu. destruct (etl_run_step env w) as (w1 & ev & E & _ & _ & _ & Hk & _).
  rewrite E. by apply Hk.
Qed.

Lemma unique_keys_empty : unique_keys ∅.
Proof. intros c. unfold collection. rewrite lookup_empty. simpl. apply NoDup_nil_2. Qed.

Lemma etl_run_keeps_keys_distinct_witness :
  unique_keys (db Scenario.idle)
  ∧ unique_keys
      (db (world (EtlApiRunner.process_all_csv_from_spaces Scenario.two_files Scenario.idle))).
Proof.
  assert (H : unique_keys (db Scenario.idle)) by exact unique_keys_empty.
  split; [exact H | exact (etl_run_keeps_keys_distinct Scenario.two_files Scenario.idle H)].
Defined.

Lemma etl_second_pass_into (env : Env) (data : bytes) (c : string) (w : World) :
  no_faults w →
  let w1 := world (EtlApiRunner.insert_csv_into env data c w) in
  let w2 := world (EtlApiRunner.insert_csv_into env data c w1) in
  db w2 = db w1
  ∧ inserted_count w2 = inserted_count w1
  ∧ total_count w2 - total_count w1 = total_count w1 - total_count w.
Proof.
  intros Hnf. cbv zeta.
  destruct (csv_rows env data) as [rows|] eqn:Hrows.
  - set (wa := set_total_count (total_count w + len rows) w).
    destruct (etl_insert_rows_appended c (len rows) rows 1 wa)
      as (w1 & ev1 & a1 & E1 & _ & Ht1 & Hn1 & _).
    pose proof (etl_insert_rows_present c (len rows) rows 1 wa Hnf) as Hp.
    rewrite E1 in Hp. unfold world in Hp. simpl in Hp.
    assert (W1 : world (EtlApiRunner.insert_csv_into env data c w) = w1)
      by (by rewrite (etl_file_readable env data c rows w w1 ev1 Hrows E1)).
    rewrite W1.
    set (wb := set_total_count (total_count w1 + len rows) w1).
    destruct (etl_insert_rows_appended c (len rows) rows 1 wb)
      as (w2 & ev2 & a2 & E2 & _ & Ht2 & _).
    destruct (etl_insert_rows_idle c (len rows) rows 1 wb (Hn1 Hnf) Hp) as (Hdb & Hic).
    rewrite E2 in Hdb, Hic. unfold world in Hdb, Hic. simpl in Hdb, Hic.
    assert (W2 : world (EtlApiRunner.insert_csv_into env data c w1) = w2)
      by (by rewrite (etl_file_readable env data c rows w1 w2 ev2 Hrows E2)).
    rewrite W2. subst wa wb. simpl in *. split_and!; [done | done | lia].
  - rewrite !(etl_file_unreadable env data c _ Hrows). unfold world. simpl.
    split_and!; [done | done | lia].
Qed.

(** X4. A second pass of etl_api_runner.py over the same file stores
    nothing: when Mongo answers, after [insert_csv_from_stream] has
    processed a stream into a collection, processing the same stream into
    the same collection again leaves the database and [inserted_count] as
    they are; only [total_count] moves, by the number of rows once more
    (by nothing, both times, when the driver refuses the name). *)
Theorem etl_second_pass_stores_nothing (env : Env) (data : bytes) (cn : option string)
    (w : World) :
  no_faults w →
  let w1 := world (EtlApiRunner.insert_csv_from_stream env data cn w) in
  let w2 := world (EtlApiRunner.insert_csv_from_stream env data cn w1) in
  db w2 = db w1
  ∧ inserted_count w2 = inserted_count w1
  ∧ total_count w2 - total_count w1 = total_count w1 - total_count w.
Proof.
  intros Hnf. cbv zeta.
  destruct cn as [c|]; [destruct (name_refused c) eqn:Hc|].
  - destruct (etl_insert_refused env data (Some c) w) as (e & ->).
    { intros c' [= <-]. done. }
    unfold world. simpl.
    destruct (etl_insert_refused env data (Some c) w) as (e' & ->).
    { intros c' [= <-]. done. }
    simpl. split_and!; [done | done | lia].
  - rewrite !(etl_insert_accepted env data c _ Hc). by apply etl_second_pass_into.
  - unfold EtlApiRunner.insert_csv_from_stream, db_getitem, bind, raise, world. simpl.
    split_and!; [done | done | lia].
Qed.

Lemma etl_second_pass_stores_nothing_witness :
  let w1 := world (EtlApiRunner.insert_csv_from_stream Scenario.two_files Scenario.twice_1
                     (Some "a") Scenario.idle) in
  let w2 := world (EtlApiRunner.insert_csv_from_stream Scenario.two_files Scenario.twice_1
                     (Some "a") w1) in
  no_faults Scenario.idle
  ∧ db w2 = db w1
  ∧ inserted_count w2 = inserted_count w1
  ∧ total_count w2 - total_count w1 = total_count w1 - total_count Scenario.idle.
Proof.
  intros w1 w2.
  assert (H : no_faults Scenario.idle) by reflexivity.
  split; [exact H|].
  exact (etl_second_pass_stores_nothing Scenario.two_files Scenario.twice_1 (Some "a")
           Scenario.idle H).
Defined.

(** X5. A run of etl_api_runner.py always comes back: whatever the
    listing, the downloads, the parser and Mongo do,
    [process_all_csv_from_spaces] raises nothing and returns with
    [job_running] false and [start_time] the time the run began. *)
Theorem etl_run_always_ends_idle (env : Env) (w : World) :
  result (EtlApiRunner.process_all_csv_from_spaces env w) = inr tt
  ∧ job_running (world (EtlApiRunner.process_all_csv_from_spaces env w)) = false
  ∧ start_time (world (EtlApiRunner.process_all_csv_from_spaces env w)) = Some (now w).
Proof.
  destruct (etl_run_step env w) as (w1 & ev & E & Hj & Hs & _).
  by rewrite E.
Qed.

Lemma csv_files_of_endswith contents :
  Forall (λ key, endswith key ".csv" = true) (csv_files_of contents).
Proof.
  unfold csv_files_of. apply List.Forall_forall. intros key Hin.
  by apply List.filter_In in Hin as [_ H].
Qed.

(** X6. A run of etl_api_runner.py tries every key of the listing that
    ends in [.csv] once, in the order of the listing, and no other key:
    the keys [head_object] is called for are those keys, whatever fails on
    the way. *)
Theorem etl_run_tries_each_csv_key_once (env : Env) (w : World) :
  head_keys (events (EtlApiRunner.process_all_csv_from_spaces env w)) = keys_to_process env
  ∧ Forall (λ key, endswith key ".csv" = true) (keys_to_process env).
Proof.
  split.
  - destruct (etl_run_step env w) as (w1 & ev & E & _ & _ & _ & _ & Hh). by rewrite E.
  - unfold keys_to_process.
    destruct (list_objects_v2 env) as [e|[contents|]]; try apply List.Forall_nil.
    apply csv_files_of_endswith.
Qed.

(** ** The counters along any schedule *)





Section Schedules.
Context {T R : Type}.
Variable start : T.
Variable step : T → World → T * World * list Event.
Variable ended : T → bool.
Variable request : Q → Q → R.
Variable report_step : R → World → R * World * list Event.
Variable answer : R → option (Exn + Report).



(** What the steps keep with any number of run loops at work, when what
    is asked of a thread does not depend on the world. *)
Section AnyLoops.
Variable ginv : World → Prop.
Variable inv : T → Prop.
Hypothesis ginv_flag : ∀ w v, ginv w → ginv (set_job_running v w).
Hypothesis start_inv : inv start.
Hypothesis step_inv : ∀ pc w, ginv w → inv pc →
  ginv (step pc w).1.2 ∧ inv (step pc w).1.1.
Hypothesis report_world : ∀ rc w, (report_step rc w).1.2 = w.

Lemma call_any c (s : Sys T R) :
  ginv (sys_world s) → Forall inv (sys_threads s) →
  ginv (sys_world (call start step request report_step answer c s).1.2)
  ∧ Forall inv (sys_threads (call start step request report_step answer c s).1.2).
Proof.
  intros Hg Ht. destruct c as [| |cpu mem|tid|rid]; simpl.
  - unfold start_job. destruct (job_running (sys_world s)); simpl; [done|].
    split; [done|]. apply Forall_app. split; [done|].
    by apply List.Forall_cons; [|apply List.Forall_nil].
  - split; [by apply ginv_flag | done].
  - done.
  - unfold tick. destruct (sys_threads s !! tid) as [pc|] eqn:Etid; [|done].
    assert (Hi : inv pc).
    { rewrite Forall_lookup in Ht. by apply (Ht tid). }
    destruct (step_inv pc (sys_world s) Hg Hi) as (Hg1 & Hi1).
    destruct (step pc (sys_world s)) as [[pc1 w1] ev]. simpl in *.
    split; [done|]. by apply Forall_insert.
  - unfold tock. destruct (sys_requests s !! rid) as [rc|]; [|done].
    pose proof (report_world rc (sys_world s)) as Hw.
    destruct (report_step rc (sys_world s)) as [[rc1 w1] ev]. simpl in *. by subst.
Qed.

Lemma exec_any calls : ∀ s : Sys T R,
  ginv (sys_world s) → Forall inv (sys_threads s) →
  ginv (sys_world (exec start step request report_step answer calls s).1.1).
Proof.
  induction calls as [|c rest IH]; intros s Hg Ht; simpl; [done|].
  destruct (call_any c s Hg Ht) as (Hg1 & Ht1).
  destruct (call start step request report_step answer c s) as [[r s1] ev1]. simpl in *.
  pose proof (IH s1 Hg1 Ht1) as H2.
  by destruct (exec start step request report_step answer rest s1) as [[s2 rs] ev2].
Qed.

End AnyLoops.

(** What the steps keep as long as at most one run loop is at work. *)
Section OneLoop.
Variable ginv : World → Prop.
Variable inv : T → World → Prop.
Variable rinv : R → World → Prop.
Variable mono : World → World → Prop.
Hypothesis mono_refl : ∀ w, mono w w.
Hypothesis mono_trans : ∀ w1 w2 w3, mono w1 w2 → mono w2 w3 → mono w1 w3.
Hypothesis mono_flag : ∀ w v, mono w (set_job_running v w).
Hypothesis ginv_flag : ∀ w v, ginv w → ginv (set_job_running v w).
Hypothesis inv_flag : ∀ pc w v, inv pc w → inv pc (set_job_running v w).
Hypothesis rinv_flag : ∀ rc w v, rinv rc w → rinv rc (set_job_running v w).
Hypothesis rinv_mono : ∀ rc w w', ginv w' → mono w w' → rinv rc w → rinv rc w'.
Hypothesis start_inv : ∀ w, ginv w → inv start w.
Hypothesis request_inv : ∀ cpu mem w, rinv (request cpu mem) w.
Hypothesis step_stays : ∀ pc w, ended pc = true → step pc w = (pc, w, []).
Hypothesis step_inv : ∀ pc w, ended pc = false → ginv w → inv pc w →
  mono w (step pc w).1.2 ∧ ginv (step pc w).1.2 ∧ inv (step pc w).1.1 (step pc w).1.2.
Hypothesis report_inv : ∀ rc w, ginv w → rinv rc w →
  (report_step rc w).1.2 = w ∧ rinv (report_step rc w).1.1 w.



End OneLoop.
End Schedules.

(** *** The steps of the run loop of etl_api_runner.py *)

Lemma advance_world {A T} (dead : Exn → T) (m : M A) (k : A → T) w :
  (advance dead m k w).1.2 = world (m w).
Proof. unfold advance, world. by destruct (m w) as [[[e|a] w1] ev]. Qed.

Lemma advance_pc {A T} (dead : Exn → T) (m : M A) (k : A → T) w :
  (advance dead m k w).1.1 = match result (m w) with inr a => k a | inl e => dead e end.
Proof. unfold advance, result. by destruct (m w) as [[[e|a] w1] ev]. Qed.

Lemma etl_run_list_world env w : world (EtlApiRunner.run_list env w) = w.
Proof.
  unfold EtlApiRunner.run_list, s3_list_objects_v2.
  by destruct (list_objects_v2 env) as [e|[contents|]].
Qed.

Lemma upload_run_list_world env w : world (UploadFromSpace1.run_list env w) = w.
Proof.
  unfold UploadFromSpace1.run_list, s3_list_objects_v2.
  by destruct (list_objects_v2 env) as [e|[contents|]].
Qed.

Lemma etl_loop_download_world env key w :
  world (EtlApiRunner.loop_download env key w) = w.
Proof.
  destruct (etl_download_with_progress_spec env key (basename key) w) as (r & evd & Ed & _).
  unfold EtlApiRunner.loop_download. cbv zeta. unfold bind, print, emit, ret.
  by rewrite Ed.
Qed.

Lemma upload_loop_download_world env key w :
  world (UploadFromSpace1.loop_download env key w) = w.
Proof.
  unfold UploadFromSpace1.loop_download, s3_get_object. cbv zeta.
  by destruct (body (s3_object env key)).
Qed.

(** The step at [PcInsert] touches nothing and goes to the head of the
    loop or on to the count of the rows. *)
Lemma etl_open_file_cases env f cn buffer todo w :
  ∃ pc ev,
    EtlApiRunner.open_file env f cn buffer todo w = (inr pc, w, ev)
    ∧ (pc = EtlApiRunner.PcLoop todo
       ∨ ∃ c b rows, cn = Some c ∧ name_refused c = false ∧ buffer = Some b
                     ∧ csv_rows env b = Some rows
                     ∧ pc = EtlApiRunner.PcCount f c rows todo).
Proof.
  unfold EtlApiRunner.open_file. destruct buffer as [b|]; [|eexists _, _; split; [done|by left]].
  unfold EtlApiRunner.critical, EtlApiRunner.read_rows.
  destruct (db_getitem_cases cn w) as [(c & -> & Hc & E)|(e & E & _)].
  - unfold try_except at 1. unfold bind at 1. rewrite E.
    destruct (csv_rows env b) as [rows|] eqn:Hrows.
    + eexists _, _. split; [reflexivity|]. right. by exists c, b, rows.
    + eexists _, _. split; [reflexivity|]. by left.
  - unfold try_except, bind. rewrite E. eexists _, _. split; [reflexivity|]. by left.
Qed.

(** The worlds [w] and [w'] differ at most in the database and in the
    answers of Mongo still to come. *)
Lemma etl_lookup_row_cases f c n i row rows todo w :
  ∃ pc w' ev,
    EtlApiRunner.lookup_row f c n i row rows todo w = (inr pc, w', ev)
    ∧ inserted_count w' = inserted_count w ∧ total_count w' = total_count w
    ∧ start_time w' = start_time w
    ∧ (pc = EtlApiRunner.PcRow f c n (i + 1) rows todo
       ∨ ∃ doc, pc = EtlApiRunner.PcRowInsert f c n i doc rows todo).
Proof.
  unfold EtlApiRunner.lookup_row, EtlApiRunner.next_row.
  destruct (len row <? 2).
  { eexists _, _, _. split; [reflexivity|]. split_and!; try done. by left. }
  cbv zeta. unfold find_one, mongo_fault, db_find, try_except, bind, print, emit, ret. simpl.
  destruct (mongo_faults w) as [|[|] fs]; simpl;
    repeat match goal with
    | |- context [List.find ?g ?l] => destruct (List.find g l)
    | |- context [?a mod 1000 =? 0] => destruct (a mod 1000 =? 0)
    end; simpl;
    eexists _, _, _; (split; [reflexivity|]); split_and!; try done; eauto.
Qed.

Lemma etl_insert_row_cases f c n i doc rows todo w :
  ∃ pc w' ev,
    EtlApiRunner.insert_row f c n i doc rows todo w = (inr pc, w', ev)
    ∧ inserted_count w' = inserted_count w ∧ total_count w' = total_count w
    ∧ start_time w' = start_time w
    ∧ (pc = EtlApiRunner.PcRow f c n (i + 1) rows todo
       ∨ pc = EtlApiRunner.PcRowCount f c n i rows todo).
Proof.
  unfold EtlApiRunner.insert_row, EtlApiRunner.next_row.
  unfold insert_one, mongo_fault, db_append, try_except, bind, print, emit, ret. simpl.
  destruct (mongo_faults w) as [|[|] fs]; simpl;
    repeat match goal with
    | |- context [?a mod 1000 =? 0] => destruct (a mod 1000 =? 0)
    end; simpl;
    eexists _, _, _; (split; [reflexivity|]); split_and!; try done; eauto.
Qed.

Lemma etl_count_row_run f c n i rows todo w :
  ∃ ev,
    EtlApiRunner.count_row f c n i rows todo w
    = (inr (EtlApiRunner.PcRow f c n (i + 1) rows todo),
       set_inserted_count (inserted_count w + 1) w, ev).
Proof.
  unfold EtlApiRunner.count_row, EtlApiRunner.next_row, with_lock.
  unfold load_inserted_count, store_inserted_count, try_except, bind, print, emit, ret. simpl.
  destruct (i mod 1000 =? 0); simpl; eexists; reflexivity.
Qed.

Lemma critical_returns f todo (m : M EtlApiRunner.Pc) w pc w' ev :
  m w = (inr pc, w', ev) → EtlApiRunner.critical f todo m w = (inr pc, w', ev).
Proof. intros E. unfold EtlApiRunner.critical, try_except. by rewrite E. Qed.


(** *** The steps of the run loop of upload_from_space1.py *)

Lemma upload_open_file_cases env key cn stream todo w :
  ∃ r ev,
    UploadFromSpace1.open_file env key cn stream todo w = (r, w, ev)
    ∧ match r with
      | inl _ => True
      | inr pc => ∃ c rows, cn = Some c ∧ name_refused c = false
                            ∧ upload_rows env stream = Some rows
                            ∧ pc = UploadFromSpace1.PcCount c rows todo
      end.
Proof.
  unfold UploadFromSpace1.open_file, UploadFromSpace1.read_rows, upload_rows.
  destruct (db_getitem_cases cn w) as [(c & -> & Hc & E)|(e & E & _)].
  - unfold bind at 1. rewrite E. unfold bind, emit, raise, ret. simpl.
    destruct (UploadFromSpace1.read_all stream) as [e|data]; simpl; [by eexists _, _|].
    destruct (csv_rows env data) as [rows|]; simpl; [|by eexists _, _].
    eexists _, _. split; [reflexivity|]. by exists c, rows.
  - unfold bind. rewrite E. by eexists _, _.
Qed.

Lemma upload_insert_row_cases c row rows todo w :
  ∃ pc w' ev,
    UploadFromSpace1.insert_row c row rows todo w = (inr pc, w', ev)
    ∧ inserted_count w' = inserted_count w ∧ total_count w' = total_count w
    ∧ start_time w' = start_time w
    ∧ (pc = UploadFromSpace1.PcRow c rows todo ∨ pc = UploadFromSpace1.PcRowCount c rows todo).
Proof.
  unfold UploadFromSpace1.insert_row.
  destruct (len row <? 2).
  { eexists _, _, _. split; [reflexivity|]. split_and!; try done. by left. }
  cbv zeta. unfold insert_one, mongo_fault, db_append, try_except, bind, print, emit, ret.
  simpl.
  destruct (mongo_faults w) as [|[|] fs]; simpl;
    eexists _, _, _; (split; [reflexivity|]); split_and!; try done; eauto.
Qed.


(** *** The counters have a floor *)

(** A step of the run loop, with any number of other run loops in
    between: when the counters are at least [i0] and [t0] and the value
    the thread has loaded for [total_count += len(rows)], if it holds one,
    is at least [t0], all of this is so after the step. The store of
    [total_count] may lower it (to the value loaded plus the rows of the
    file), but not below [t0]. *)
Lemma etl_step_floor env (i0 t0 : Z) pc w :
  i0 ≤ inserted_count w → t0 ≤ total_count w → above t0 (etl_loaded pc) →
  let o := EtlApiRunner.worker_step env pc w in
  i0 ≤ inserted_count o.1.2 ∧ t0 ≤ total_count o.1.2 ∧ above t0 (etl_loaded o.1.1).
Proof.
  intros Hi0 Ht0 Hup. cbv zeta.
  destruct pc as [| | | |[|key todo]|f cn b todo|f c rows todo|f c rows t todo
                 |f c n i [|row rows] todo|f c n i doc rows todo|f c n i rows todo
                 |f c a todo| |d|d a| |e];
    cbn [EtlApiRunner.worker_step etl_loaded above] in *.
  - (* PcStart *) simpl. split_and!; try done; lia.
  - (* PcStartTime *) simpl. split_and!; try done; lia.
  - (* PcList *)
    rewrite advance_world, advance_pc, etl_run_list_world.
    destruct (result (EtlApiRunner.run_list env w)) as [e|[ks|]]; simpl;
      split_and!; try done; lia.
  - (* PcClear *) simpl. split_and!; try done; lia.
  - (* PcLoop [] *) simpl. split_and!; try done; lia.
  - (* PcLoop (key :: todo) *)
    rewrite advance_world, advance_pc, etl_loop_download_world.
    destruct (result (EtlApiRunner.loop_download env key w)) as [e|d]; simpl;
      split_and!; try done; lia.
  - (* PcInsert *)
    destruct (etl_open_file_cases env f cn b todo w) as (pc & ev & E & Hpc).
    unfold advance. rewrite E. simpl.
    destruct Hpc as [->|(c & b' & rows & _ & _ & _ & _ & ->)]; simpl;
      split_and!; try done; lia.
  - (* PcCount *) simpl. split_and!; try done; lia.
  - (* PcCountStore *)
    simpl. pose proof (Nat2Z.is_nonneg (length rows)) as Hlen.
    unfold len in *. split_and!; try done; lia.
  - (* PcRow [] *) simpl. split_and!; try done; lia.
  - (* PcRow (row :: rows) *)
    destruct (etl_lookup_row_cases f c n i row rows todo w)
      as (pc & w' & ev & E & Hi & Ht & Hs & Hpc).
    unfold advance. rewrite (critical_returns _ _ _ _ _ _ _ E). simpl.
    rewrite Hi, Ht.
    destruct Hpc as [->|(doc & ->)]; simpl; split_and!; try done; lia.
  - (* PcRowInsert *)
    destruct (etl_insert_row_cases f c n i doc rows todo w)
      as (pc & w' & ev & E & Hi & Ht & Hs & Hpc).
    unfold advance. rewrite (critical_returns _ _ _ _ _ _ _ E). simpl.
    rewrite Hi, Ht.
    destruct Hpc as [->| ->]; simpl; split_and!; try done; lia.
  - (* PcRowCount *)
    destruct (etl_count_row_run f c n i rows todo w) as (ev & E).
    unfold advance. rewrite (critical_returns _ _ _ _ _ _ _ E). simpl.
    split_and!; try done; lia.
  - (* PcFinished *) simpl. split_and!; try done; lia.
  - (* PcDuration *)
    unfold advance, bind, time_time, load_start_time, ret, raise. simpl.
    destruct (start_time w) eqn:Est; simpl; rewrite ?Est; split_and!; try done; lia.
  - (* PcSummary *) simpl. split_and!; try done; lia.
  - (* PcSummaryTotal *) simpl. split_and!; try done; lia.
  - (* PcDone *) simpl. split_and!; try done; lia.
  - (* PcDead *) simpl. split_and!; try done; lia.
Qed.

Lemma upload_step_floor env (i0 t0 : Z) pc w :
  i0 ≤ inserted_count w → t0 ≤ total_count w → above t0 (upload_loaded pc) →
  let o := UploadFromSpace1.worker_step env pc w in
  i0 ≤ inserted_count o.1.2 ∧ t0 ≤ total_count o.1.2 ∧ above t0 (upload_loaded o.1.1).
Proof.
  intros Hi0 Ht0 Hup. cbv zeta.
  destruct pc as [| | | |[|key todo]|key cn stream todo|c rows todo|c rows t todo
                 |c [|row rows] todo|c rows todo| |e];
    cbn [UploadFromSpace1.worker_step upload_loaded above] in *.
  - (* PcStart *) simpl. split_and!; try done; lia.
  - (* PcStartTime *) simpl. split_and!; try done; lia.
  - (* PcList *)
    rewrite advance_world, advance_pc, upload_run_list_world.
    destruct (result (UploadFromSpace1.run_list env w)) as [e|[ks|]]; simpl;
      split_and!; try done; lia.
  - (* PcClear *) simpl. split_and!; try done; lia.
  - (* PcLoop [] *) simpl. split_and!; try done; lia.
  - (* PcLoop (key :: todo) *)
    rewrite advance_world, advance_pc, upload_loop_download_world.
    destruct (result (UploadFromSpace1.loop_download env key w)) as [e|d]; simpl;
      split_and!; try done; lia.
  - (* PcInsert *)
    destruct (upload_open_file_cases env key cn stream todo w) as (r & ev & E & Hr).
    unfold advance. rewrite E. simpl.
    destruct r as [e|pc]; [|destruct Hr as (c & rows & _ & _ & _ & ->)]; simpl;
      split_and!; try done; lia.
  - (* PcCount *) simpl. split_and!; try done; lia.
  - (* PcCountStore *)
    simpl. pose proof (Nat2Z.is_nonneg (length rows)) as Hlen.
    unfold len in *. split_and!; try done; lia.
  - (* PcRow [] *) simpl. split_and!; try done; lia.
  - (* PcRow (row :: rows) *)
    destruct (upload_insert_row_cases c row rows todo w)
      as (pc & w' & ev & E & Hi & Ht & Hs & Hpc).
    unfold advance. rewrite E. simpl. rewrite Hi, Ht.
    destruct Hpc as [->| ->]; simpl; split_and!; try done; lia.
  - (* PcRowCount *)
    unfold advance, with_lock, load_inserted_count, store_inserted_count, try_except, bind,
      emit, ret. simpl. split_and!; try done; lia.
  - (* PcDone *) simpl. split_and!; try done; lia.
  - (* PcDead *) simpl. split_and!; try done; lia.
Qed.

(** *** The steps of a stats request *)




Lemma etl_report_step_world rc w : (EtlApiRunner.report_step rc w).1.2 = w.
Proof.
  destruct rc; cbn [EtlApiRunner.report_step];
    unfold advance, bind, time_time, load_start_time, load_total_count, load_inserted_count,
      load_job_running, ret, raise; simpl; try done.
  - by destruct (start_time w).
  - by destruct (total_count w =? 0).
Qed.

Lemma upload_report_step_world rc w : (UploadFromSpace1.report_step rc w).1.2 = w.
Proof.
  destruct rc; cbn [UploadFromSpace1.report_step];
    unfold advance, bind, time_time, load_start_time, load_total_count, load_inserted_count,
      load_job_running, ret, raise; simpl; try done.
  - by destruct (start_time w).
  - by destruct (total_count w =? 0).
Qed.



(** *** Schedules with one run loop at a time *)

Lemma etl_step_stays env pc w :
  EtlApiRunner.ended pc = true → EtlApiRunner.worker_step env pc w = (pc, w, []).
Proof. by destruct pc. Qed.

Lemma upload_step_stays env pc w :
  UploadFromSpace1.ended pc = true → UploadFromSpace1.worker_step env pc w = (pc, w, []).
Proof. by destruct pc. Qed.





(** From a system where every run loop is up to date, along any schedule
    and with any number of run loops at work, no counter ever falls below
    the value it had. *)
Lemma etl_exec_floor env calls (s : EtlSys) :
  Forall (λ pc, etl_up_to_date pc (sys_world s)) (sys_threads s) →
  not_lowered (sys_world s) (sys_world (etl_exec env calls s).1.1).
Proof.
  intros Hup.
  apply (exec_any EtlApiRunner.PcStart (EtlApiRunner.worker_step env)
           EtlApiRunner.RcStart EtlApiRunner.report_step EtlApiRunner.answer
           (not_lowered (sys_world s))
           (λ pc, above (total_count (sys_world s)) (etl_loaded pc))).
  - by intros w v.
  - done.
  - intros pc w (Hi & Ht) Hpc. destruct (etl_step_floor env _ _ pc w Hi Ht Hpc) as (? & ? & ?).
    by split_and!.
  - apply etl_report_step_world.
  - split; lia.
  - eapply Forall_impl; [exact Hup|]. intros pc H. destruct pc; simpl in *; try done. lia.
Qed.

Lemma upload_exec_floor env calls (s : UploadSys) :
  Forall (λ pc, upload_up_to_date pc (sys_world s)) (sys_threads s) →
  not_lowered (sys_world s) (sys_world (upload_exec env calls s).1.1).
Proof.
  intros Hup.
  apply (exec_any UploadFromSpace1.PcStart (UploadFromSpace1.worker_step env)
           UploadFromSpace1.RcStart UploadFromSpace1.report_step UploadFromSpace1.answer
           (not_lowered (sys_world s))
           (λ pc, above (total_count (sys_world s)) (upload_loaded pc))).
  - by intros w v.
  - done.
  - intros pc w (Hi & Ht) Hpc.
    destruct (upload_step_floor env _ _ pc w Hi Ht Hpc) as (? & ? & ?). by split_and!.
  - apply upload_report_step_world.
  - split; lia.
  - eapply Forall_impl; [exact Hup|]. intros pc H. destruct pc; simpl in *; try done. lia.
Qed.

Lemma at_rest_up_to_date {T R} (ended : T → bool) (P : T → Prop) (s : Sys T R) :
  (∀ pc, ended pc = true → P pc) →
  at_rest ended s = true → Forall P (sys_threads s).
Proof.
  unfold at_rest. intros HP H. apply Forall_forall. intros pc Hin.
  rewrite forallb_forall in H. apply list_elem_of_In in Hin. by apply HP, H.
Qed.












(** With two run loops at work the hypothesis of X7 and of X8 fails and
    so do their conclusions. Two [/start] requests arrive before either
    thread has set the flag; the first thread loads [total_count] (0) for
    the two rows of [a.csv]; the second thread runs to its end (3 rows
    counted, 3 inserted); the first thread then stores 0 + 2:
    [total_count] goes down from 3 to 2, below [inserted_count], and a
    stats request served now reports a progress of 150%. *)
Lemma two_run_loops_lose_an_update :
  let s0 : EtlSys := mkSys Scenario.idle [] [] in
  let calls := [CallStart; CallStart] ++ replicate 6 (Tick 0) ++ replicate 28 (Tick 1) in
  let s1 := (etl_exec Scenario.two_files calls s0).1.1 in
  let s2 := (etl_exec Scenario.two_files [Tick 0] s1).1.1 in
  let s3 := (etl_exec Scenario.two_files (CallStats 10 10 :: replicate 8 (Tock 0)) s2).1.1 in
  etl_one_loop_at_a_time Scenario.two_files calls s0 = false
  ∧ sys_threads s1 = [EtlApiRunner.PcCountStore "a.csv" "a"
                        [["1"; "http://x"]; ["2"; "http://y"]] 0 ["b.csv"];
                      EtlApiRunner.PcDone]
  ∧ total_count (sys_world s1) = 3 ∧ inserted_count (sys_world s1) = 3
  ∧ total_count (sys_world s2) = 2 ∧ inserted_count (sys_world s2) = 3
  ∧ ∃ r, sys_requests s3 = [EtlApiRunner.RcDone r]
         ∧ rep_progress r = ProgressPercent (inject_Z 3 / inject_Z 2 * 100)%Q.
Proof.
  cbv zeta. split_and!; try (vm_compute; reflexivity).
  eexists. split; vm_compute; reflexivity.
Qed.



(** ** The steps of a run loop make up the function

    A run loop run step by step and alone does what
    [process_all_csv_from_spaces] does in one go. [rest_of pc] is what
    the function still does from the position [pc]; a step and the rest
    from where it leads make up the rest from where it started, and the
    steps come to an end. *)

Section Adequacy.
Context {T : Type}.
Variable step : T → World → T * World * list Event.
Variable ended : T → bool.
Variable rest_of : T → M unit.
Variable done : T.
Variable dead : Exn → T.
Hypothesis rest_step : ∀ pc w,
  finished done dead (rest_of pc w)
  = after_events (step pc w).2
      (finished done dead (rest_of (step pc w).1.1 (step pc w).1.2)).
Hypothesis rest_ended : ∀ pc w,
  ended pc = true → finished done dead (rest_of pc w) = (pc, w, []).
Hypothesis step_stays : ∀ pc w, ended pc = true → step pc w = (pc, w, []).

Lemma run_worker_rest fuel : ∀ pc w,
  finished done dead (rest_of pc w)
  = after_events (run_worker step fuel pc w).2
      (finished done dead
         (rest_of (run_worker step fuel pc w).1.1 (run_worker step fuel pc w).1.2)).
Proof.
  induction fuel as [|fuel IH]; intros pc w; simpl.
  - done.
  - rewrite (rest_step pc w). specialize (IH (step pc w).1.1 (step pc w).1.2).
    destruct (step pc w) as [[pc1 w1] ev1]. simpl in *. rewrite IH.
    destruct (run_worker step fuel pc1 w1) as [[pc2 w2] ev2]. simpl.
    unfold after_events. simpl. by rewrite app_assoc.
Qed.

Lemma run_worker_stays pc w :
  ended pc = true → ∀ fuel, run_worker step fuel pc w = (pc, w, []).
Proof.
  intros E. induction fuel as [|fuel IH]; simpl; [done|].
  by rewrite (step_stays pc w E), IH.
Qed.

Lemma run_worker_add n : ∀ k pc w,
  run_worker step (n + k) pc w
  = after_events (run_worker step n pc w).2
      (run_worker step k (run_worker step n pc w).1.1 (run_worker step n pc w).1.2).
Proof.
  induction n as [|n IH]; intros k pc w; simpl.
  - unfold after_events. by destruct (run_worker step k pc w) as [[pc' w'] ev].
  - destruct (step pc w) as [[pc1 w1] ev1]. rewrite IH.
    destruct (run_worker step n pc1 w1) as [[pc2 w2] ev2]. simpl.
    destruct (run_worker step k pc2 w2) as [[pc3 w3] ev3]. unfold after_events. simpl.
    by rewrite app_assoc.
Qed.

Lemma halts_ended pc w : ended pc = true → halts step ended pc w.
Proof. intros E. by exists 0%nat. Qed.

Lemma halts_step pc w pc1 w1 ev :
  step pc w = (pc1, w1, ev) → halts step ended pc1 w1 → halts step ended pc w.
Proof.
  intros E (fuel & H). exists (S fuel). simpl. rewrite E.
  by destruct (run_worker step fuel pc1 w1) as [[pc2 w2] ev2].
Qed.

(** A thread that comes to its end does so where the rest of the
    function ends, with the world and the events of the function, and
    stays there. *)
Lemma halts_runs_function pc w :
  halts step ended pc w →
  ∃ n, ∀ fuel, (n ≤ fuel)%nat →
    run_worker step fuel pc w = finished done dead (rest_of pc w).
Proof.
  intros (n & Hn). exists n. intros fuel Hle.
  replace fuel with (n + (fuel - n))%nat by lia.
  rewrite run_worker_add, (run_worker_rest n pc w).
  destruct (run_worker step n pc w) as [[pc1 w1] ev1]. simpl in *.
  by rewrite (run_worker_stays pc1 w1 Hn), (rest_ended pc1 w1 Hn).
Qed.

End Adequacy.


Lemma finished_advance {A T} (done : T) (dead : Exn → T) (m : M A) (k : A → T)
    (rest : T → M unit) w :
  (∀ e w, rest (dead e) w = (inl e, w, [])) →
  finished done dead (bind m (λ a, rest (k a)) w)
  = after_events (advance dead m k w).2
      (finished done dead (rest (advance dead m k w).1.1 (advance dead m k w).1.2)).
Proof.
  intros Hdead. unfold finished, after_events, advance, bind, result, world, events.
  destruct (m w) as [[[e|a] w1] ev1]; simpl.
  - rewrite Hdead. simpl. by rewrite app_nil_r.
  - by destruct (rest (k a) w1) as [[r w2] ev2].
Qed.

Lemma bind_silent {A B} (m : M A) (f : A → M B) w a :
  m w = (inr a, w, []) → bind m f w = f a w.
Proof. intros E. unfold bind. rewrite E. by destruct (f a w) as [[r w2] ev2]. Qed.

Lemma bind_raises {A B} (m : M A) (f : A → M B) w e w1 ev :
  m w = (inl e, w1, ev) → bind m f w = (inl e, w1, ev).
Proof. intros E. unfold bind. by rewrite E. Qed.

Ltac prims :=
  unfold bind, try_except, with_lock, find_one, insert_one, mongo_fault, db_find, db_append,
    print, emit, ret, raise, load_inserted_count, load_total_count, load_start_time,
    store_inserted_count, store_total_count, store_start_time, store_job_running, time_time,
    EtlApiRunner.finish_file, EtlApiRunner.row_end.

Ltac innermost :=
  match goal with
  | |- context [match ?x with _ => _ end] =>
      lazymatch x with
      | context [match _ with _ => _ end] => fail
      | _ => let E := fresh "E" in destruct x eqn:E
      end
  end.

Ltac recall :=
  repeat match goal with
         | H : ?x = _ |- context [?x] => rewrite H
         end.

Ltac crunch :=
  repeat first
    [ progress prims
    | progress (cbn [EtlApiRunner.rest_of EtlApiRunner.rest_of_file EtlApiRunner.insert_rows
                     EtlApiRunner.for_csv_files UploadFromSpace1.rest_of
                     UploadFromSpace1.insert_rows UploadFromSpace1.for_csv_files
                     fst snd app id])
    | progress recall
    | innermost ];
  repeat first [rewrite <- app_assoc | progress (cbn [app])]; try reflexivity.

(** A step inside the call of [insert_csv_from_stream]: when the step
    and what the call still does after it make up what the call still
    does, the same holds of the function. *)
Lemma etl_critical_rest env f todo (m : M EtlApiRunner.Pc) (body : M unit) w :
  (∀ w, body w = bind m (EtlApiRunner.rest_of_file) w) →
  (∀ w pc w' ev, m w = (inr pc, w', ev) →
     ∀ w, EtlApiRunner.rest_of env pc w
          = bind (try_except (EtlApiRunner.rest_of_file pc)
                    (λ _, print (MsgCritical f)))
              (λ _, bind (EtlApiRunner.for_csv_files env todo)
                      (λ _, EtlApiRunner.after_loop)) w) →
  bind (try_except body (λ _, print (MsgCritical f)))
    (λ _, bind (EtlApiRunner.for_csv_files env todo) (λ _, EtlApiRunner.after_loop)) w
  = bind (EtlApiRunner.critical f todo m) (EtlApiRunner.rest_of env) w.
Proof.
  intros Hbody Hpos. unfold EtlApiRunner.critical.
  set (K := bind (EtlApiRunner.for_csv_files env todo) (λ _, EtlApiRunner.after_loop)) in *.
  destruct (m w) as [[[e|pc] w1] ev1] eqn:Em.
  - unfold bind, try_except. rewrite Hbody. unfold bind. rewrite Em.
    unfold print, emit, ret. cbn [EtlApiRunner.rest_of]. fold K.
    destruct (K w1) as [[r w2] ev2]. simpl. by rewrite <- !app_assoc.
  - unfold bind, try_except. rewrite Hbody. unfold bind. rewrite Em. cbn beta iota.
    rewrite (Hpos w pc w1 ev1 Em w1). unfold bind, try_except.
    destruct (EtlApiRunner.rest_of_file pc w1) as [[[e|[]] w2] ev2].
    + unfold print, emit. destruct (K w2) as [[r w3] ev3]. simpl.
      by rewrite <- !app_assoc.
    + destruct (K w2) as [[r w3] ev3]. by rewrite <- !app_assoc.
Qed.

(** A step of the run loop of etl_api_runner.py and the rest of the
    function from where it leads are the rest of the function from where
    it started. *)
Lemma etl_rest_step env pc w :
  finished EtlApiRunner.PcDone EtlApiRunner.PcDead (EtlApiRunner.rest_of env pc w)
  = after_events (EtlApiRunner.worker_step env pc w).2
      (finished EtlApiRunner.PcDone EtlApiRunner.PcDead
         (EtlApiRunner.rest_of env (EtlApiRunner.worker_step env pc w).1.1
            (EtlApiRunner.worker_step env pc w).1.2)).
Proof.
  destruct pc as [| | | |[|key todo]|f cn b todo|f c rows todo|f c rows t todo
                 |f c n i [|row rows] todo|f c n i doc rows todo|f c n i rows todo
                 |f c a todo| |d|d a| |e];
    cbn [EtlApiRunner.worker_step];
    try (rewrite <- (finished_advance _ _ _ _ (EtlApiRunner.rest_of env)) by done;
         f_equal); try done.
  - (* PcStart *)
    cbn [EtlApiRunner.rest_of].
    unfold EtlApiRunner.process_all_csv_from_spaces, EtlApiRunner.run_list, s3_list_objects_v2.
    crunch.
  - (* PcStartTime *)
    cbn [EtlApiRunner.rest_of]. crunch.
  - (* PcList *)
    cbn [EtlApiRunner.rest_of]. crunch.
  - (* PcLoop [] *)
    cbn [EtlApiRunner.rest_of EtlApiRunner.for_csv_files]. unfold EtlApiRunner.after_loop.
    crunch.
  - (* PcLoop (key :: todo) *)
    cbn [EtlApiRunner.rest_of EtlApiRunner.for_csv_files]. unfold EtlApiRunner.loop_body.
    rewrite !bind_assoc. reflexivity.
  - (* PcInsert *)
    cbn [EtlApiRunner.rest_of]. unfold EtlApiRunner.loop_insert, EtlApiRunner.open_file.
    destruct b as [b|]; [|crunch].
    change (λ a : EtlApiRunner.Pc, EtlApiRunner.rest_of env (id a))
      with (EtlApiRunner.rest_of env).
    apply etl_critical_rest.
    + intros w'. unfold EtlApiRunner.insert_csv_from_stream, EtlApiRunner.insert_csv_into,
        EtlApiRunner.finish_file, EtlApiRunner.read_rows.
      rewrite bind_assoc.
      destruct (db_getitem_cases cn w') as [(c & -> & Hc & E)|(e & E & _)].
      * rewrite !(bind_silent _ _ _ _ E). crunch.
      * by rewrite !(bind_raises _ _ _ _ _ _ E).
    + intros w1 pc w2 ev E w3. unfold EtlApiRunner.read_rows in E.
      destruct (db_getitem_cases cn w1) as [(c & -> & Hc & E1)|(e & E1 & _)].
      * rewrite (bind_silent _ _ _ _ E1) in E.
        revert E. prims. destruct (csv_rows env b) as [rows|]; intros [= <- _ _].
        -- reflexivity.
        -- crunch.
      * by rewrite (bind_raises _ _ _ _ _ _ E1) in E.
  - (* PcCount *)
    cbn [EtlApiRunner.rest_of].
    change (λ a : EtlApiRunner.Pc, EtlApiRunner.rest_of env (id a))
      with (EtlApiRunner.rest_of env).
    apply etl_critical_rest.
    + intros w'. crunch.
    + intros w1 pc w2 ev [= <- _ _] w3. reflexivity.
  - (* PcCountStore *)
    cbn [EtlApiRunner.rest_of].
    change (λ a : EtlApiRunner.Pc, EtlApiRunner.rest_of env (id a))
      with (EtlApiRunner.rest_of env).
    apply etl_critical_rest.
    + intros w'. crunch.
    + intros w1 pc w2 ev [= <- _ _] w3. reflexivity.
  - (* PcRow [] *)
    cbn [EtlApiRunner.rest_of].
    change (λ a : EtlApiRunner.Pc, EtlApiRunner.rest_of env (id a))
      with (EtlApiRunner.rest_of env).
    apply etl_critical_rest.
    + intros w'. unfold EtlApiRunner.finish_file. crunch.
    + intros w1 pc w2 ev [= <- _ _] w3. reflexivity.
  - (* PcRow (row :: rows) *)
    cbn [EtlApiRunner.rest_of].
    change (λ a : EtlApiRunner.Pc, EtlApiRunner.rest_of env (id a))
      with (EtlApiRunner.rest_of env).
    apply etl_critical_rest.
    + intros w'. cbn [EtlApiRunner.rest_of_file EtlApiRunner.insert_rows].
      unfold EtlApiRunner.process_row, EtlApiRunner.try_insert, EtlApiRunner.dedup_insert,
        EtlApiRunner.lookup_row, EtlApiRunner.next_row, EtlApiRunner.row_end.
      crunch.
    + intros w1 pc w2 ev E w3.
      destruct (etl_lookup_row_cases f c n i row rows todo w1)
        as (pc' & w' & ev' & E' & _ & _ & _ & Hpc).
      rewrite E' in E. injection E as <- _ _.
      by destruct Hpc as [->|(doc & ->)].
  - (* PcRowInsert *)
    cbn [EtlApiRunner.rest_of].
    change (λ a : EtlApiRunner.Pc, EtlApiRunner.rest_of env (id a))
      with (EtlApiRunner.rest_of env).
    apply etl_critical_rest.
    + intros w'. cbn [EtlApiRunner.rest_of_file].
      unfold EtlApiRunner.insert_row, EtlApiRunner.next_row, EtlApiRunner.row_end.
      crunch.
    + intros w1 pc w2 ev E w3.
      destruct (etl_insert_row_cases f c n i doc rows todo w1)
        as (pc' & w' & ev' & E' & _ & _ & _ & Hpc).
      rewrite E' in E. injection E as <- _ _.
      by destruct Hpc as [->| ->].
  - (* PcRowCount *)
    cbn [EtlApiRunner.rest_of].
    change (λ a : EtlApiRunner.Pc, EtlApiRunner.rest_of env (id a))
      with (EtlApiRunner.rest_of env).
    apply etl_critical_rest.
    + intros w'. cbn [EtlApiRunner.rest_of_file].
      unfold EtlApiRunner.count_row, EtlApiRunner.next_row, EtlApiRunner.row_end.
      crunch.
    + intros w1 pc w2 ev E w3.
      destruct (etl_count_row_run f c n i rows todo w1) as (ev' & E').
      rewrite E' in E. by injection E as <- _ _.
  - (* PcDuration *)
    cbn [EtlApiRunner.rest_of]. crunch.
Qed.

(** The run loop comes to its end: the row loop by induction on the rows
    still to do, the loop over the keys by induction on the keys. *)
Lemma etl_halts_rows env f c n todo rows :
  (∀ w, halts (EtlApiRunner.worker_step env) EtlApiRunner.ended (EtlApiRunner.PcLoop todo) w) →
  ∀ i w, halts (EtlApiRunner.worker_step env) EtlApiRunner.ended
           (EtlApiRunner.PcRow f c n i rows todo) w.
Proof.
  intros Hloop. induction rows as [|row rows IH]; intros i w.
  - eapply halts_step; [reflexivity|]. eapply halts_step; [reflexivity|]. apply Hloop.
  - destruct (etl_lookup_row_cases f c n i row rows todo w)
      as (pc & w1 & ev & E & _ & _ & _ & Hpc).
    eapply halts_step.
    { cbn [EtlApiRunner.worker_step id]. unfold advance.
      rewrite (critical_returns _ _ _ _ _ _ _ E). reflexivity. }
    destruct Hpc as [->|(doc & ->)]; [apply IH|].
    destruct (etl_insert_row_cases f c n i doc rows todo w1)
      as (pc2 & w2 & ev2 & E2 & _ & _ & _ & Hpc2).
    eapply halts_step.
    { cbn [EtlApiRunner.worker_step id]. unfold advance.
      rewrite (critical_returns _ _ _ _ _ _ _ E2). reflexivity. }
    destruct Hpc2 as [->| ->]; [apply IH|].
    destruct (etl_count_row_run f c n i rows todo w2) as (ev3 & E3).
    eapply halts_step.
    { cbn [EtlApiRunner.worker_step id]. unfold advance.
      rewrite (critical_returns _ _ _ _ _ _ _ E3). reflexivity. }
    apply IH.
Qed.

Lemma etl_halts_loop env todo : ∀ w,
  halts (EtlApiRunner.worker_step env) EtlApiRunner.ended (EtlApiRunner.PcLoop todo) w.
Proof.
  induction todo as [|key todo IH]; intros w.
  - eapply halts_step; [reflexivity|].
    destruct (EtlApiRunner.worker_step env EtlApiRunner.PcDuration (set_job_running false w))
      as [[pc1 w1] ev1] eqn:E.
    eapply halts_step; [exact E|].
    revert E. cbn [EtlApiRunner.worker_step].
    unfold advance, bind, time_time, load_start_time, ret, raise. simpl.
    destruct (start_time w); intros [= <- <- _].
    + eapply halts_step; [reflexivity|]. eapply halts_step; [reflexivity|].
      by apply halts_ended.
    + by apply halts_ended.
  - destruct (EtlApiRunner.loop_download env key w) as [[[e|d] w1] ev1] eqn:E.
    + eapply halts_step.
      { cbn [EtlApiRunner.worker_step id]. unfold advance. rewrite E. reflexivity. }
      by apply halts_ended.
    + eapply halts_step.
      { cbn [EtlApiRunner.worker_step id]. unfold advance. rewrite E. reflexivity. }
      destruct (etl_open_file_cases env d.1.1 d.1.2 d.2 todo w1) as (pc & ev & E2 & Hpc).
      eapply halts_step.
      { cbn [EtlApiRunner.worker_step id]. unfold advance. rewrite E2. reflexivity. }
      destruct Hpc as [->|(c & b & rows & _ & _ & _ & _ & ->)]; [apply IH|].
      eapply halts_step; [reflexivity|]. eapply halts_step; [reflexivity|].
      by apply etl_halts_rows.
Qed.

Lemma etl_halts env w :
  halts (EtlApiRunner.worker_step env) EtlApiRunner.ended EtlApiRunner.PcStart w.
Proof.
  eapply halts_step; [reflexivity|]. eapply halts_step; [reflexivity|].
  set (w2 := set_start_time _ _).
  destruct (EtlApiRunner.run_list env w2) as [[[e|[ks|]] w3] ev] eqn:E.
  - eapply halts_step.
    { cbn [EtlApiRunner.worker_step id]. unfold advance. rewrite E. reflexivity. }
    by apply halts_ended.
  - eapply halts_step.
    { cbn [EtlApiRunner.worker_step id]. unfold advance. rewrite E. reflexivity. }
    apply etl_halts_loop.
  - eapply halts_step.
    { cbn [EtlApiRunner.worker_step id]. unfold advance. rewrite E. reflexivity. }
    eapply halts_step; [reflexivity|]. by apply halts_ended.
Qed.

(** With enough fuel the run loop of etl_api_runner.py, run alone from
    [PcStart], ends where the function ends. *)
Lemma etl_worker_runs_function (env : Env) (w : World) :
  ∃ n, ∀ fuel, (n ≤ fuel)%nat →
    run_worker (EtlApiRunner.worker_step env) fuel EtlApiRunner.PcStart w
    = finished EtlApiRunner.PcDone EtlApiRunner.PcDead
        (EtlApiRunner.process_all_csv_from_spaces env w).
Proof.
  apply (halts_runs_function (EtlApiRunner.worker_step env) EtlApiRunner.ended
           (EtlApiRunner.rest_of env) EtlApiRunner.PcDone EtlApiRunner.PcDead
           (etl_rest_step env)).
  - intros pc w' E. by destruct pc.
  - apply etl_step_stays.
  - apply etl_halts.
Qed.

(** The same for upload_from_space1.py. *)
Lemma upload_rest_step env pc w :
  finished UploadFromSpace1.PcDone UploadFromSpace1.PcDead (UploadFromSpace1.rest_of env pc w)
  = after_events (UploadFromSpace1.worker_step env pc w).2
      (finished UploadFromSpace1.PcDone UploadFromSpace1.PcDead
         (UploadFromSpace1.rest_of env (UploadFromSpace1.worker_step env pc w).1.1
            (UploadFromSpace1.worker_step env pc w).1.2)).
Proof.
  destruct pc as [| | | |[|key todo]|key cn stream todo|c rows todo|c rows t todo
                 |c [|row rows] todo|c rows todo| |e];
    cbn [UploadFromSpace1.worker_step];
    try (rewrite <- (finished_advance _ _ _ _ (UploadFromSpace1.rest_of env)) by done;
         f_equal); try done.
  - (* PcStart *)
    cbn [UploadFromSpace1.rest_of].
    unfold UploadFromSpace1.process_all_csv_from_spaces, UploadFromSpace1.run_list,
      s3_list_objects_v2.
    crunch.
  - (* PcStartTime *)
    cbn [UploadFromSpace1.rest_of]. crunch.
  - (* PcList *)
    cbn [UploadFromSpace1.rest_of]. crunch.
  - (* PcLoop (key :: todo) *)
    cbn [UploadFromSpace1.rest_of UploadFromSpace1.for_csv_files].
    unfold UploadFromSpace1.loop_body. rewrite !bind_assoc. reflexivity.
  - (* PcInsert *)
    cbn [UploadFromSpace1.rest_of].
    unfold UploadFromSpace1.insert_csv_from_stream, UploadFromSpace1.insert_csv_into,
      UploadFromSpace1.open_file. rewrite !bind_assoc.
    destruct (db_getitem_cases cn w) as [(c & -> & Hc & E)|(e & E & _)].
    + rewrite !(bind_silent _ _ _ _ E). unfold UploadFromSpace1.read_rows. crunch.
    + by rewrite !(bind_raises _ _ _ _ _ _ E).
  - (* PcCount *)
    cbn [UploadFromSpace1.rest_of]. crunch.
  - (* PcCountStore *)
    cbn [UploadFromSpace1.rest_of]. crunch.
  - (* PcRow [] *)
    cbn [UploadFromSpace1.rest_of UploadFromSpace1.insert_rows].
    unfold finished, after_events, result, world, events. crunch.
  - (* PcRow (row :: rows) *)
    cbn [UploadFromSpace1.rest_of UploadFromSpace1.insert_rows].
    unfold UploadFromSpace1.process_row, UploadFromSpace1.insert_row. crunch.
  - (* PcRowCount *)
    cbn [UploadFromSpace1.rest_of]. crunch.
Qed.

Lemma upload_halts_rows env c todo rows :
  (∀ w, halts (UploadFromSpace1.worker_step env) UploadFromSpace1.ended
          (UploadFromSpace1.PcLoop todo) w) →
  ∀ w, halts (UploadFromSpace1.worker_step env) UploadFromSpace1.ended
         (UploadFromSpace1.PcRow c rows todo) w.
Proof.
  intros Hloop. induction rows as [|row rows IH]; intros w.
  - eapply halts_step; [reflexivity|]. apply Hloop.
  - destruct (upload_insert_row_cases c row rows todo w)
      as (pc & w1 & ev & E & _ & _ & _ & Hpc).
    eapply halts_step.
    { cbn [UploadFromSpace1.worker_step id]. unfold advance. rewrite E. reflexivity. }
    destruct Hpc as [->| ->]; [apply IH|].
    destruct (UploadFromSpace1.worker_step env (UploadFromSpace1.PcRowCount c rows todo) w1)
      as [[pc2 w2] ev2] eqn:E2.
    eapply halts_step; [exact E2|].
    revert E2. cbn [UploadFromSpace1.worker_step]. unfold advance. prims. simpl.
    intros [= <- <- _]. apply IH.
Qed.

Lemma upload_halts_loop env todo : ∀ w,
  halts (UploadFromSpace1.worker_step env) UploadFromSpace1.ended
    (UploadFromSpace1.PcLoop todo) w.
Proof.
  induction todo as [|key todo IH]; intros w.
  - eapply halts_step; [reflexivity|]. by apply halts_ended.
  - destruct (UploadFromSpace1.loop_download env key w) as [[[e|d] w1] ev1] eqn:E.
    + eapply halts_step.
      { cbn [UploadFromSpace1.worker_step]. unfold advance. rewrite E. reflexivity. }
      by apply halts_ended.
    + eapply halts_step.
      { cbn [UploadFromSpace1.worker_step]. unfold advance. rewrite E. reflexivity. }
      destruct (upload_open_file_cases env d.1.1 d.1.2 d.2 todo w1) as (r & ev & E2 & Hr).
      destruct r as [e|pc].
      { eapply halts_step.
        { cbn [UploadFromSpace1.worker_step id]. unfold advance. rewrite E2. reflexivity. }
        by apply halts_ended. }
      eapply halts_step.
      { cbn [UploadFromSpace1.worker_step id]. unfold advance. rewrite E2. reflexivity. }
      destruct Hr as (c & rows & _ & _ & _ & ->).
      eapply halts_step; [reflexivity|]. eapply halts_step; [reflexivity|].
      by apply upload_halts_rows.
Qed.

Lemma upload_halts env w :
  halts (UploadFromSpace1.worker_step env) UploadFromSpace1.ended UploadFromSpace1.PcStart w.
Proof.
  eapply halts_step; [reflexivity|]. eapply halts_step; [reflexivity|].
  set (w2 := set_start_time _ _).
  destruct (UploadFromSpace1.run_list env w2) as [[[e|[ks|]] w3] ev] eqn:E.
  - eapply halts_step.
    { cbn [UploadFromSpace1.worker_step]. unfold advance. rewrite E. reflexivity. }
    by apply halts_ended.
  - eapply halts_step.
    { cbn [UploadFromSpace1.worker_step]. unfold advance. rewrite E. reflexivity. }
    apply upload_halts_loop.
  - eapply halts_step.
    { cbn [UploadFromSpace1.worker_step]. unfold advance. rewrite E. reflexivity. }
    eapply halts_step; [reflexivity|]. by apply halts_ended.
Qed.

Lemma upload_worker_runs_function (env : Env) (w : World) :
  ∃ n, ∀ fuel, (n ≤ fuel)%nat →
    run_worker (UploadFromSpace1.worker_step env) fuel UploadFromSpace1.PcStart w
    = finished UploadFromSpace1.PcDone UploadFromSpace1.PcDead
        (UploadFromSpace1.process_all_csv_from_spaces env w).
Proof.
  apply (halts_runs_function (UploadFromSpace1.worker_step env) UploadFromSpace1.ended
           (UploadFromSpace1.rest_of env) UploadFromSpace1.PcDone UploadFromSpace1.PcDead
           (upload_rest_step env)).
  - intros pc w' E. by destruct pc.
  - apply upload_step_stays.
  - apply upload_halts.
Qed.

(** X16. The thread of the run loop is the function: in both scripts the
    run loop started by [/start] and run alone, one access to what is
    shared at a time, comes to its end after finitely many steps, and
    then stands at [PcDone] when [process_all_csv_from_spaces] returns and
    at [PcDead e] when the exception [e] leaves it, with the world and the
    events of the function, in order; further steps change nothing. *)
Theorem worker_runs_function (env : Env) (w : World) :
  ∃ n, ∀ fuel, (n ≤ fuel)%nat →
    run_worker (EtlApiRunner.worker_step env) fuel EtlApiRunner.PcStart w
    = finished EtlApiRunner.PcDone EtlApiRunner.PcDead
        (EtlApiRunner.process_all_csv_from_spaces env w)
    ∧ run_worker (UploadFromSpace1.worker_step env) fuel UploadFromSpace1.PcStart w
      = finished UploadFromSpace1.PcDone UploadFromSpace1.PcDead
          (UploadFromSpace1.process_all_csv_from_spaces env w).
Proof.
  destruct (etl_worker_runs_function env w) as (n1 & H1).
  destruct (upload_worker_runs_function env w) as (n2 & H2).
  exists (n1 + n2)%nat. intros fuel Hle. split; [apply H1 | apply H2]; lia.
Qed.

(** ** The lock and the counters *)




(** ** [/start] *)

Lemma etl_start_job_answer env (s : EtlSys) :
  start_job_answer EtlApiRunner.PcStart (EtlApiRunner.worker_step env) EtlApiRunner.ended
    EtlApiRunner.RcStart EtlApiRunner.report_step EtlApiRunner.answer s.
Proof.
  unfold start_job_answer. split.
  - intros Hj. unfold start_job. by rewrite Hj.
  - intros Hj Hrest. cbv zeta. split_and!.
    + unfold start_job. by rewrite Hj.
    + eexists. reflexivity.
    + intros calls.
      apply (etl_exec_floor env calls
               (mkSys (sys_world s) (sys_threads s ++ [EtlApiRunner.PcStart]) (sys_requests s))).
      simpl. apply Forall_app. split.
      * apply (at_rest_up_to_date EtlApiRunner.ended); [|done]. by intros [].
      * by apply List.Forall_cons; [|apply List.Forall_nil].
Qed.

Lemma upload_start_job_answer env (s : UploadSys) :
  start_job_answer UploadFromSpace1.PcStart (UploadFromSpace1.worker_step env)
    UploadFromSpace1.ended UploadFromSpace1.RcStart UploadFromSpace1.report_step
    UploadFromSpace1.answer s.
Proof.
  unfold start_job_answer. split.
  - intros Hj. unfold start_job. by rewrite Hj.
  - intros Hj Hrest. cbv zeta. split_and!.
    + unfold start_job. by rewrite Hj.
    + eexists. reflexivity.
    + intros calls.
      apply (upload_exec_floor env calls
               (mkSys (sys_world s) (sys_threads s ++ [UploadFromSpace1.PcStart])
                  (sys_requests s))).
      simpl. apply Forall_app. split.
      * apply (at_rest_up_to_date UploadFromSpace1.ended); [|done]. by intros [].
      * by apply List.Forall_cons; [|apply List.Forall_nil].
Qed.

(** C2, as the code has it. [/start] with [job_running] set (Running)
    answers "already running" and changes nothing. With [job_running] clear
    and no run loop at work (Idle) it answers "started" and starts the run
    loop in a thread of its own, leaving the world as it is; the first two
    steps of that thread set [job_running] and [start_time], before any
    call of S3 or Mongo; and the counters are not reset: along any schedule
    after the request, whatever the requests and however many runs,
    neither [inserted_count] nor [total_count] is ever lower than it was at
    the request. With [job_running] clear and a run loop still at work
    nothing is stated. It holds for both scripts. *)
Theorem start_job_keeps_counters (env : Env) (s : EtlSys) (s' : UploadSys) :
  start_job_answer EtlApiRunner.PcStart (EtlApiRunner.worker_step env) EtlApiRunner.ended
    EtlApiRunner.RcStart EtlApiRunner.report_step EtlApiRunner.answer s
  ∧ start_job_answer UploadFromSpace1.PcStart (UploadFromSpace1.worker_step env)
      UploadFromSpace1.ended UploadFromSpace1.RcStart UploadFromSpace1.report_step
      UploadFromSpace1.answer s'.
Proof. split; [apply etl_start_job_answer | apply upload_start_job_answer]. Qed.

(** C2, the claim as stated fails: after a first run over the bucket of
    the scenario the job is idle and the counters are 3 and 3; a second
    [/start] and the first step of its thread raise the flag and leave the
    counters at 3 and 3. *)
Lemma start_does_not_reset_counters :
  let w1 := world (EtlApiRunner.process_all_csv_from_spaces Scenario.two_files Scenario.idle) in
  let s : EtlSys := mkSys w1 [EtlApiRunner.PcDone] [] in
  job_running w1 = false
  ∧ at_rest EtlApiRunner.ended s = true
  ∧ inserted_count w1 = 3 ∧ total_count w1 = 3
  ∧ ¬ start_resets_counters EtlApiRunner.PcStart
        (EtlApiRunner.worker_step Scenario.two_files) s.
Proof.
  cbv zeta. split; [reflexivity|]. split; [reflexivity|].
  split; [reflexivity|]. split; [reflexivity|].
  unfold start_resets_counters. vm_compute. intros (_ & H & _). discriminate H.
Qed.

(** ** The flag after a run of upload_from_space1.py *)

Lemma upload_insert_flag env key stream cn w :
  job_running (world (UploadFromSpace1.insert_csv_from_stream env key stream cn w))
  = job_running w.
Proof.
  unfold UploadFromSpace1.insert_csv_from_stream.
  destruct (db_getitem_cases cn w) as [(c & -> & Hc & E)|(e & E & _)].
  - destruct (upload_file_step env key stream c w) as (r & w2 & ev & added & E2 & Ha & _).
    unfold bind. rewrite E, E2. by destruct Ha as (_ & _ & _ & Hj & _).
  - unfold bind. by rewrite E.
Qed.

Lemma upload_for_csv_files_flag env csv_files : ∀ w,
  job_running (world (UploadFromSpace1.for_csv_files env csv_files w)) = job_running w.
Proof.
  induction csv_files as [|key rest IH]; intros w; [done|].
  cbn [UploadFromSpace1.for_csv_files]. unfold UploadFromSpace1.loop_body.
  pose proof (upload_loop_download_world env key w) as Hd.
  unfold bind at 1 2. unfold world in Hd.
  destruct (UploadFromSpace1.loop_download env key w) as [[[e|d] w1] ev1]; simpl in Hd; subst w1;
    [done|].
  pose proof (upload_insert_flag env d.1.1 d.2 d.1.2 w) as Hj. unfold world in Hj.
  destruct (UploadFromSpace1.insert_csv_from_stream env d.1.1 d.2 d.1.2 w) as [[[e|[]] w2] ev2];
    simpl in *; [done|].
  specialize (IH w2). unfold world in *.
  destruct (UploadFromSpace1.for_csv_files env rest w2) as [[r3 w3] ev3]. simpl in *. congruence.
Qed.

Lemma upload_process_all_listed env contents w :
  list_objects_v2 env = inr (Some contents) →
  let w1 := set_start_time (Some (now w)) (set_job_running true w) in
  let o := bind (UploadFromSpace1.for_csv_files env (csv_files_of contents))
             (λ _, UploadFromSpace1.after_loop) w1 in
  UploadFromSpace1.process_all_csv_from_spaces env w =
  (result o, world o,
   [EvWrite VJobRunning; EvWrite VStartTime; EvPrint MsgScanning; EvS3 ListObjectsV2;
    EvPrint (MsgFound (len (csv_files_of contents)))] ++ events o).
Proof.
  intros Hlist w1 o. subst o.
  unfold UploadFromSpace1.process_all_csv_from_spaces, s3_list_objects_v2. rewrite Hlist.
  unfold bind at 1 2 3 4 5 6, store_job_running at 1, time_time at 1,
    store_start_time at 1, print at 1, emit at 1 2, ret at 1.
  cbn beta iota zeta. rewrite bind_print. cbn beta.
  change (now (set_job_running true w)) with (now w). fold w1.
  by destruct (bind (UploadFromSpace1.for_csv_files env (csv_files_of contents))
            (λ _, UploadFromSpace1.after_loop) w1) as [[r3 w3] ev3].
Qed.

(** X9. In upload_from_space1.py the flag comes down exactly when the run
    returns: after [process_all_csv_from_spaces], [job_running] is false
    when the function returned and true when an exception left it (from
    the listing, a [get_object], the read, the decoding or the parse). *)
Theorem upload_flag_down_iff_run_returns (env : Env) (w : World) :
  job_running (world (UploadFromSpace1.process_all_csv_from_spaces env w))
  = match result (UploadFromSpace1.process_all_csv_from_spaces env w) with
    | inr _ => false
    | inl _ => true
    end.
Proof.
  destruct (list_objects_v2 env) as [e|[contents|]] eqn:Hlist.
  - by rewrite (upload_listing_failure env w e Hlist).
  - rewrite (upload_process_all_listed env contents w Hlist). cbv zeta.
    pose proof (upload_for_csv_files_flag env (csv_files_of contents)
                  (set_start_time (Some (now w)) (set_job_running true w))) as Hj.
    unfold bind, result, world in *.
    destruct (UploadFromSpace1.for_csv_files env (csv_files_of contents) _) as [[[e|[]] w2] ev2];
      simpl in *; [done|].
    reflexivity.
  - by rewrite (upload_no_contents env w Hlist).
Qed.

(** ** What a download gives *)

(** With a content length that is not 0, the chunk loop gives what one
    [read()] of the whole body gives, after what the buffer held. *)
Lemma etl_read_chunks_read_all key total_size chunks : ∀ downloaded buffer w,
  total_size ≠ 0 →
  result (EtlApiRunner.read_chunks key total_size chunks downloaded buffer w)
  = match UploadFromSpace1.read_all chunks with
    | inl e => inl e
    | inr data => inr (buffer ++ data)
    end.
Proof.
  induction chunks as [|c rest IH]; intros downloaded buffer w Hn.
  - unfold result. simpl. by rewrite app_nil_r.
  - cbn [EtlApiRunner.read_chunks UploadFromSpace1.read_all].
    destruct c as [[|b data]|].
    + unfold result. simpl. by rewrite app_nil_r.
    + assert ((total_size =? 0) = false) as -> by lia.
      specialize (IH (downloaded + len (b :: data)) (buffer ++ b :: data) w Hn).
      unfold bind, print, emit, result in *.
      destruct (EtlApiRunner.read_chunks _ _ _ _ _ w) as [[r w1] ev]. simpl in *.
      rewrite IH. destruct (UploadFromSpace1.read_all rest) as [e|more]; [done|].
      by rewrite <- app_assoc.
    + done.
Qed.

(** A body without data, whatever the content length. *)
Lemma etl_read_chunks_empty key total_size chunks downloaded buffer w :
  UploadFromSpace1.read_all chunks = inr [] →
  result (EtlApiRunner.read_chunks key total_size chunks downloaded buffer w) = inr buffer.
Proof.
  intros H. destruct chunks as [|[[|b data]|] rest]; simpl in *; try done.
  by destruct (UploadFromSpace1.read_all rest).
Qed.

Lemma etl_download_result env key filename w n chunks r :
  content_length (s3_object env key) = Some n →
  body (s3_object env key) = Some chunks →
  result (EtlApiRunner.read_chunks key n chunks 0 [] w) = r →
  result (EtlApiRunner.download_with_progress env key filename w)
  = inr (match r with inr buffer => Some buffer | inl _ => None end).
Proof.
  intros Hn Hb Hr.
  unfold EtlApiRunner.download_with_progress, s3_head_object, s3_get_object.
  rewrite Hn, Hb.
  unfold try_except, bind, print, emit, ret, result in *.
  destruct (EtlApiRunner.read_chunks key n chunks 0 [] w) as [[[e|buffer] w1] ev];
    simpl in *; by subst.
Qed.

(** X10. A download that succeeds gives the bytes of the object: when
    [head_object] and [get_object] answer, the body reads to its end
    without fault, and the content length is not 0 or the body is empty,
    [download_with_progress] returns a buffer holding exactly what one
    [read()] of the body gives, which is what upload_from_space1.py
    parses. *)
Theorem download_gives_the_body (env : Env) (key filename : string) (n : Z)
    (chunks : list (option bytes)) (data : bytes) (w : World) :
  content_length (s3_object env key) = Some n →
  body (s3_object env key) = Some chunks →
  UploadFromSpace1.read_all chunks = inr data →
  n ≠ 0 ∨ data = [] →
  result (EtlApiRunner.download_with_progress env key filename w) = inr (Some data).
Proof.
  intros Hn Hb Hread Hsize.
  rewrite (etl_download_result env key filename w n chunks (inr data) Hn Hb); [done|].
  destruct (decide (n = 0)) as [->|Hne].
  - destruct Hsize as [?| ->]; [done|]. by apply etl_read_chunks_empty.
  - by rewrite (etl_read_chunks_read_all key n chunks 0 [] w Hne), Hread.
Qed.

Lemma download_gives_the_body_witness :
  let data := list_byte_of_string ("1,http://z" ++ Scenario.lf) in
  content_length (s3_object Scenario.two_files "b.csv") = Some 11
  ∧ body (s3_object Scenario.two_files "b.csv") = Some [Some data]
  ∧ UploadFromSpace1.read_all [Some data] = inr data
  ∧ (11 ≠ 0 ∨ data = [])
  ∧ result (EtlApiRunner.download_with_progress Scenario.two_files "b.csv" "b.csv" Scenario.idle)
    = inr (Some data).
Proof.
  intros data.
  assert (H1 : content_length (s3_object Scenario.two_files "b.csv") = Some 11) by reflexivity.
  assert (H2 : body (s3_object Scenario.two_files "b.csv") = Some [Some data]) by reflexivity.
  assert (H3 : UploadFromSpace1.read_all [Some data] = inr data) by reflexivity.
  assert (H4 : 11 ≠ 0 ∨ data = []) by (left; lia).
  split; [exact H1|]. split; [exact H2|]. split; [exact H3|]. split; [exact H4|].
  exact (download_gives_the_body Scenario.two_files "b.csv" "b.csv" 11 [Some data] data
           Scenario.idle H1 H2 H3 H4).
Defined.

(** X11. An object whose content length is 0 while its body has data
    does not download: the first chunk makes
    [percent = (downloaded / total_size) * 100] divide by zero, the
    [except] of [download_with_progress] takes it for a failed download,
    and the function returns [None] after reporting the failure. *)
Theorem zero_length_object_with_data_fails (env : Env) (key filename : string)
    (b : Byte.byte) (data : bytes) (rest : list (option bytes)) (w : World) :
  content_length (s3_object env key) = Some 0 →
  body (s3_object env key) = Some (Some (b :: data) :: rest) →
  EtlApiRunner.download_with_progress env key filename w
  = (inr None, w,
     [EvS3 (HeadObject key); EvPrint (MsgDownloading filename 0); EvS3 (GetObject key);
      EvS3 (ReadBody key); EvPrint (MsgFailedDownload filename)]).
Proof.
  intros Hn Hb.
  unfold EtlApiRunner.download_with_progress, s3_head_object, s3_get_object.
  by rewrite Hn, Hb.
Qed.

Lemma zero_length_object_with_data_fails_witness :
  let env := mkEnv "per_file" (Some "urls") (inr (Some ["a.csv"]))
               (λ _, mkS3Object (Some 0) (Some [Some [Byte.x31]])) Scenario.csv_unquoted in
  content_length (s3_object env "a.csv") = Some 0
  ∧ body (s3_object env "a.csv") = Some (Some [Byte.x31] :: [])
  ∧ result (EtlApiRunner.download_with_progress env "a.csv" "a.csv" Scenario.idle) = inr None.
Proof.
  intros env.
  assert (H1 : content_length (s3_object env "a.csv") = Some 0) by reflexivity.
  assert (H2 : body (s3_object env "a.csv") = Some (Some [Byte.x31] :: [])) by reflexivity.
  split; [exact H1|]. split; [exact H2|].
  by rewrite (zero_length_object_with_data_fails env "a.csv" "a.csv" Byte.x31 [] []
                Scenario.idle H1 H2).
Defined.

Lemma last_cons_cons {A} (x y : A) l : last (x :: y :: l) = last (y :: l).
Proof. done. Qed.

(** X12. [download_with_progress] keeps every failure to itself: it never
    raises and never touches the globals or the database; it only prints
    and calls S3; it returns [None] exactly when its last print is the
    report of the failure, and a buffer exactly when its last print is the
    report of the end of the download. *)
Theorem download_never_raises (env : Env) (key filename : string) (w : World) :
  ∃ r evs,
    EtlApiRunner.download_with_progress env key filename w = (inr r, w, evs)
    ∧ forallb is_io evs = true
    ∧ last evs = Some (EvPrint (match r with
                                 | None => MsgFailedDownload filename
                                 | Some _ => MsgFinishedDownloading filename
                                 end)).
Proof.
  unfold EtlApiRunner.download_with_progress, s3_head_object, s3_get_object.
  destruct (content_length (s3_object env key)) as [total_size|].
  2:{ unfold try_except, raise, print, emit, ret, bind. simpl. by eexists _, _. }
  destruct (body (s3_object env key)) as [chunks|].
  2:{ unfold try_except, raise, print, emit, ret, bind. simpl. by eexists _, _. }
  destruct (etl_read_chunks_io key total_size chunks 0 [] w) as (r & ev & E & Hio).
  unfold try_except, bind, print, emit, ret. rewrite E.
  destruct r as [e|buffer]; simpl.
  - eexists _, _. split; [reflexivity|]. split.
    + simpl. rewrite List.forallb_app, Hio. reflexivity.
    + rewrite !last_cons_cons.
      change (EvS3 (GetObject key) :: ev ++ [EvPrint (MsgFailedDownload filename)])
        with ((EvS3 (GetObject key) :: ev) ++ [EvPrint (MsgFailedDownload filename)]).
      by rewrite last_snoc.
  - eexists _, _. split; [reflexivity|]. split.
    + simpl. rewrite List.forallb_app, Hio. reflexivity.
    + rewrite ?app_nil_r, !last_cons_cons.
      change (EvS3 (GetObject key) :: ev ++ [EvPrint (MsgFinishedDownloading filename)])
        with ((EvS3 (GetObject key) :: ev) ++ [EvPrint (MsgFinishedDownloading filename)]).
      by rewrite last_snoc.
Qed.

(** ** The name of the collection *)

Lemma rfind_app_some c s1 s2 i :
  rfind c s2 = Some i → rfind c (s1 ++ s2)%string = Some (String.length s1 + i)%nat.
Proof.
  intros H. induction s1 as [|a s1 IH]; simpl; [done|]. by rewrite IH.
Qed.

Lemma rfind_app_none c s1 s2 :
  rfind c s2 = None → rfind c (s1 ++ s2)%string = rfind c s1.
Proof.
  intros H. induction s1 as [|a s1 IH]; simpl; [done|]. by rewrite IH.
Qed.

Lemma string_length_app s1 s2 :
  String.length (s1 ++ s2)%string = (String.length s1 + String.length s2)%nat.
Proof. induction s1 as [|a s1 IH]; simpl; [done|]. by rewrite IH. Qed.

Lemma substring_all s : String.substring 0 (String.length s) s = s.
Proof. induction s as [|a s IH]; simpl; [done|]. by rewrite IH. Qed.

Lemma substring_app_r s1 s2 :
  String.substring (String.length s1) (String.length s2) (s1 ++ s2)%string = s2.
Proof. induction s1 as [|a s1 IH]; simpl; [apply substring_all | exact IH]. Qed.

Lemma substring_app_l s1 s2 :
  String.substring 0 (String.length s1) (s1 ++ s2)%string = s1.
Proof.
  induction s1 as [|a s1 IH]; simpl; [by destruct s2|]. by rewrite IH.
Qed.

Lemma endswith_app s suffix : endswith (s ++ suffix)%string suffix = true.
Proof.
  unfold endswith. rewrite string_length_app.
  replace (String.length s + String.length suffix - String.length suffix)%nat
    with (String.length s) by lia.
  rewrite substring_app_r, String.eqb_refl, andb_true_r.
  apply Nat.leb_le. lia.
Qed.

Lemma substring_app_r_eq s1 s2 n m :
  n = String.length s1 → m = String.length s2 →
  String.substring n m (s1 ++ s2)%string = s2.
Proof. intros -> ->. apply substring_app_r. Qed.

Lemma string_app_assoc s1 s2 s3 : ((s1 ++ s2) ++ s3 = s1 ++ (s2 ++ s3))%string.
Proof.
  induction s1 as [|a s1 IH]; [reflexivity|].
  change (String a ((s1 ++ s2) ++ s3) = String a (s1 ++ (s2 ++ s3)))%string.
  by f_equal.
Qed.

(** [basename] drops the directories. *)
Lemma basename_in_directory dir name :
  rfind "/" name = None → basename (dir ++ "/" ++ name)%string = name.
Proof.
  intros H. rewrite <- string_app_assoc. unfold basename.
  rewrite (rfind_app_none "/" (dir ++ "/") name H).
  rewrite (rfind_app_some "/" dir "/" 0 eq_refl).
  apply substring_app_r_eq; rewrite ?string_length_app; simpl; lia.
Qed.

(** [splitext] drops the extension [.csv] of a name that is not made of
    dots only. *)
Lemma splitext_root_csv name :
  rfind "/" name = None → all_dots name = false →
  splitext_root (name ++ ".csv")%string = name.
Proof.
  intros Hslash Hdots. unfold splitext_root.
  rewrite (rfind_app_some "." name ".csv" 0 eq_refl).
  rewrite (rfind_app_none "/" name ".csv" eq_refl), Hslash.
  simpl. rewrite Nat.add_0_r, Nat.sub_0_r, substring_app_l, Hdots.
  done.
Qed.

(** X13. In [per_file] mode the collection of a key is the name of its
    file without the directories and without [.csv]: for a name that holds
    no slash and is not made of dots only, the key [name.csv] and every key
    [dir/name.csv], whatever [dir], pass the [.csv] filter and go to the
    collection [name]. Files of the same name in different directories
    share one collection. *)
Theorem collection_is_file_name (env : Env) (dir name : string) :
  MODE env = "per_file" →
  rfind "/" name = None →
  all_dots name = false →
  collection_name_of env (basename (name ++ ".csv")%string) = Some name
  ∧ collection_name_of env (basename (dir ++ "/" ++ name ++ ".csv")%string) = Some name
  ∧ endswith (name ++ ".csv")%string ".csv" = true
  ∧ endswith (dir ++ "/" ++ name ++ ".csv")%string ".csv" = true.
Proof.
  intros Hmode Hslash Hdots.
  assert (Hcsv : rfind "/" (name ++ ".csv")%string = None)
    by (by rewrite (rfind_app_none "/" name ".csv" eq_refl)).
  unfold collection_name_of. rewrite Hmode. simpl.
  split_and!.
  - unfold basename at 1. rewrite Hcsv. f_equal. by apply splitext_root_csv.
  - rewrite (basename_in_directory dir _ Hcsv). f_equal. by apply splitext_root_csv.
  - apply endswith_app.
  - change (dir ++ "/" ++ name ++ ".csv")%string
      with (dir ++ ("/" ++ name) ++ ".csv")%string.
    rewrite <- string_app_assoc. apply endswith_app.
Qed.

Lemma collection_is_file_name_witness :
  MODE Scenario.two_files = "per_file"
  ∧ rfind "/" "urls" = None
  ∧ all_dots "urls" = false
  ∧ collection_name_of Scenario.two_files (basename ("urls" ++ ".csv")%string) = Some "urls"
  ∧ collection_name_of Scenario.two_files
      (basename ("2024/05" ++ "/" ++ "urls" ++ ".csv")%string) = Some "urls"
  ∧ endswith ("urls" ++ ".csv")%string ".csv" = true
  ∧ endswith ("2024/05" ++ "/" ++ "urls" ++ ".csv")%string ".csv" = true.
Proof.
  assert (H1 : MODE Scenario.two_files = "per_file") by reflexivity.
  assert (H2 : rfind "/" "urls" = None) by reflexivity.
  assert (H3 : all_dots "urls" = false) by reflexivity.
  split; [exact H1|]. split; [exact H2|]. split; [exact H3|].
  exact (collection_is_file_name Scenario.two_files "2024/05" "urls" H1 H2 H3).
Defined.

(** ** A [/stop] along a schedule *)

Section StopAlongSchedules.
Context {T R : Type}.
Variable start : T.
Variable step : T → World → T * World * list Event.
Variable request : Q → Q → R.
Variable report_step : R → World → R * World * list Event.
Variable answer : R → option (Exn + Report).
Hypothesis step_oblivious : oblivious_step step.

Lemma same_but_flag_cleared w w' :
  same_but_flag w w' → same_but_flag (set_job_running false w) (set_job_running false w').
Proof. unfold same_but_flag. intros H. by destruct w, w'. Qed.

Lemma call_oblivious c (s s' : Sys T R) :
  steps_and_stops [c] = true →
  sys_threads s = sys_threads s' → sys_requests s = sys_requests s' →
  same_but_flag (sys_world s) (sys_world s') →
  (call start step request report_step answer c s).1.1
    = (call start step request report_step answer c s').1.1
  ∧ (call start step request report_step answer c s).2
    = (call start step request report_step answer c s').2
  ∧ sys_threads (call start step request report_step answer c s).1.2
    = sys_threads (call start step request report_step answer c s').1.2
  ∧ sys_requests (call start step request report_step answer c s).1.2
    = sys_requests (call start step request report_step answer c s').1.2
  ∧ same_but_flag (sys_world (call start step request report_step answer c s).1.2)
                  (sys_world (call start step request report_step answer c s').1.2).
Proof.
  intros Hc Ht Hr Hw. destruct c as [| |cpu mem|tid|rid]; [done| |done| |done]; simpl.
  - split_and!; try done; by apply same_but_flag_cleared.
  - unfold tick. rewrite <- Ht. destruct (sys_threads s !! tid) as [pc|]; [|done].
    destruct (step_oblivious pc _ _ Hw) as (Hp & He & Hw1).
    destruct (step pc (sys_world s)) as [[pc1 w1] ev1],
             (step pc (sys_world s')) as [[pc1' w1'] ev1']. simpl in *.
    by subst.
Qed.

Lemma exec_oblivious calls : ∀ s s' : Sys T R,
  steps_and_stops calls = true →
  sys_threads s = sys_threads s' → sys_requests s = sys_requests s' →
  same_but_flag (sys_world s) (sys_world s') →
  sys_threads (exec start step request report_step answer calls s).1.1
    = sys_threads (exec start step request report_step answer calls s').1.1
  ∧ (exec start step request report_step answer calls s).1.2
    = (exec start step request report_step answer calls s').1.2
  ∧ (exec start step request report_step answer calls s).2
    = (exec start step request report_step answer calls s').2
  ∧ same_but_flag (sys_world (exec start step request report_step answer calls s).1.1)
                  (sys_world (exec start step request report_step answer calls s').1.1).
Proof.
  induction calls as [|c rest IH]; intros s s' Hc Ht Hr Hw; [done|].
  apply andb_prop in Hc as [Hc Hrest].
  assert (Hc1 : steps_and_stops [c] = true) by (simpl; by rewrite Hc).
  destruct (call_oblivious c s s' Hc1 Ht Hr Hw) as (Hres & He & Ht1 & Hr1 & Hw1).
  simpl. destruct (call start step request report_step answer c s) as [[r s1] ev1],
                  (call start step request report_step answer c s') as [[r' s1'] ev1'].
  simpl in *.
  destruct (IH s1 s1' Hrest Ht1 Hr1 Hw1) as (Ht2 & Hr2 & He2 & Hw2).
  destruct (exec start step request report_step answer rest s1) as [[s2 rs] ev2],
           (exec start step request report_step answer rest s1') as [[s2' rs'] ev2'].
  simpl in *.
  by subst.
Qed.

End StopAlongSchedules.

(** X14. A [/stop] changes no step of any run loop, in both scripts: from
    a system as it is and from the system after a [/stop], any schedule of
    steps of any number of run loops (and of further [/stop] requests)
    leaves the threads at the same places, gives the same responses and
    the same events in the same order (the same downloads, the same Mongo
    calls), and ends in worlds that differ at most in [job_running]. *)
Theorem stop_changes_no_step_of_any_schedule (env : Env) (calls : list Call)
    (s : EtlSys) (s' : UploadSys) :
  steps_and_stops calls = true →
  (let a := etl_exec env calls s in
   let b := etl_exec env calls (stop_job s).1.2 in
   sys_threads a.1.1 = sys_threads b.1.1 ∧ a.1.2 = b.1.2 ∧ a.2 = b.2
   ∧ same_but_flag (sys_world a.1.1) (sys_world b.1.1))
  ∧ (let a := upload_exec env calls s' in
     let b := upload_exec env calls (stop_job s').1.2 in
     sys_threads a.1.1 = sys_threads b.1.1 ∧ a.1.2 = b.1.2 ∧ a.2 = b.2
     ∧ same_but_flag (sys_world a.1.1) (sys_world b.1.1)).
Proof.
  intros Hc. split; cbv zeta.
  - apply exec_oblivious; [apply etl_worker_step_oblivious|done|done|done|].
    apply same_but_flag_stop.
  - apply exec_oblivious; [apply upload_worker_step_oblivious|done|done|done|].
    apply same_but_flag_stop.
Qed.

Lemma stop_changes_no_step_of_any_schedule_witness :
  let calls := [Tick 0; Tick 0; Tick 0; CallStop] ++ replicate 30 (Tick 0) in
  let s : EtlSys := mkSys (set_job_running true Scenario.idle) [EtlApiRunner.PcStart] [] in
  let s' : UploadSys :=
    mkSys (set_job_running true Scenario.idle) [UploadFromSpace1.PcStart] [] in
  steps_and_stops calls = true
  ∧ (let a := etl_exec Scenario.two_files calls s in
     let b := etl_exec Scenario.two_files calls (stop_job s).1.2 in
     sys_threads a.1.1 = sys_threads b.1.1 ∧ a.1.2 = b.1.2 ∧ a.2 = b.2
     ∧ same_but_flag (sys_world a.1.1) (sys_world b.1.1))
  ∧ (let a := upload_exec Scenario.two_files calls s' in
     let b := upload_exec Scenario.two_files calls (stop_job s').1.2 in
     sys_threads a.1.1 = sys_threads b.1.1 ∧ a.1.2 = b.1.2 ∧ a.2 = b.2
     ∧ same_but_flag (sys_world a.1.1) (sys_world b.1.1)).
Proof.
  cbv zeta. split; [reflexivity|].
  exact (stop_changes_no_step_of_any_schedule Scenario.two_files
           ([Tick 0; Tick 0; Tick 0; CallStop] ++ replicate 30 (Tick 0))
           (mkSys (set_job_running true Scenario.idle) [EtlApiRunner.PcStart] [])
           (mkSys (set_job_running true Scenario.idle) [UploadFromSpace1.PcStart] [])
           eq_refl).
Defined.

(** ** The uptime of [/stats] *)

Lemma py_int_floor (q : Q) :
  (0 <= q)%Q →
  0 ≤ py_int q ∧ (inject_Z (py_int q) <= q)%Q ∧ (q < inject_Z (py_int q) + 1)%Q.
Proof.
  destruct q as [n d]. unfold Qle, Qlt, py_int, Qplus, inject_Z. simpl. intros H.
  assert (Hn : 0 ≤ n) by lia.
  rewrite Z.quot_div_nonneg by lia.
  pose proof (Z.div_pos n (Z.pos d) Hn ltac:(lia)).
  pose proof (Z.mul_div_le n (Z.pos d) ltac:(lia)).
  pose proof (Z.mul_succ_div_gt n (Z.pos d) ltac:(lia)).
  split_and!; lia.
Qed.

Lemma uptime_of_started (w : World) (s0 : Q) :
  start_time w = Some s0 → Qeq_bool s0 0 = false →
  ∃ ev, uptime_of w = (inr (py_int (now w - s0)%Q), w, ev).
Proof.
  intros E Hs. unfold uptime_of, bind, load_start_time, time_time, ret. simpl.
  rewrite E. simpl. rewrite Hs. simpl. rewrite E. simpl. by eexists.
Qed.

Lemma uptime_of_never_started (w : World) :
  start_time w = None → ∃ ev, uptime_of w = (inr 0, w, ev).
Proof.
  intros E. unfold uptime_of, bind, load_start_time, ret. simpl.
  rewrite E. simpl. by eexists.
Qed.

(** X15. The uptime a stats request reports counts from the start of the
    latest run, whether or not a job is running: with [start_time] set to
    a time [s0] that is not 0 and not after the clock, both scripts report
    the same uptime, and it is the number of whole seconds elapsed since
    [s0], rounded down. *)
Theorem stats_uptime_is_whole_seconds (cpu mem : Q) (w : World) (s0 : Q) :
  start_time w = Some s0 →
  Qeq_bool s0 0 = false →
  (s0 <= now w)%Q →
  ∃ r r',
    result (EtlApiRunner.stats cpu mem w) = inr r
    ∧ result (UploadFromSpace1.stats cpu mem w) = inr r'
    ∧ rep_uptime_seconds r' = rep_uptime_seconds r
    ∧ 0 ≤ rep_uptime_seconds r
    ∧ (inject_Z (rep_uptime_seconds r) <= now w - s0)%Q
    ∧ (now w - s0 < inject_Z (rep_uptime_seconds r) + 1)%Q.
Proof.
  intros E Hs Hle.
  destruct (uptime_of_started w s0 E Hs) as (ev1 & Hu).
  destruct (progress_of_total w) as (ev2 & Hp & _).
  assert (H0 : (0 <= now w - s0)%Q) by (by apply (Qle_minus_iff s0 (now w))).
  destruct (py_int_floor _ H0) as (Ha & Hb & Hc).
  eexists _, _. split_and!.
  - unfold EtlApiRunner.stats, bind, load_inserted_count, load_total_count,
      load_job_running, ret, result.
    rewrite Hu. simpl. rewrite Hp. simpl. reflexivity.
  - unfold UploadFromSpace1.stats, bind, load_inserted_count, load_total_count,
      load_job_running, ret, result.
    rewrite Hu. simpl. rewrite Hp. simpl. reflexivity.
  - done.
  - exact Ha.
  - exact Hb.
  - exact Hc.
Qed.

Lemma stats_uptime_is_whole_seconds_witness :
  let w := mkWorld 4 8 false (Some (3 # 2)) ∅ [] (5 # 1) in
  start_time w = Some (3 # 2)
  ∧ Qeq_bool (3 # 2) 0 = false
  ∧ (3 # 2 <= now w)%Q
  ∧ ∃ r r',
      result (EtlApiRunner.stats 10 20 w) = inr r
      ∧ result (UploadFromSpace1.stats 10 20 w) = inr r'
      ∧ rep_uptime_seconds r' = rep_uptime_seconds r
      ∧ 0 ≤ rep_uptime_seconds r
      ∧ (inject_Z (rep_uptime_seconds r) <= now w - (3 # 2))%Q
      ∧ (now w - (3 # 2) < inject_Z (rep_uptime_seconds r) + 1)%Q.
Proof.
  cbv zeta.
  assert (H1 : (3 # 2 <= 5 # 1)%Q) by (unfold Qle; simpl; lia).
  split; [reflexivity|]. split; [reflexivity|]. split; [exact H1|].
  exact (stats_uptime_is_whole_seconds 10 20
           (mkWorld 4 8 false (Some (3 # 2)) ∅ [] (5 # 1))
           (3 # 2) eq_refl eq_refl H1).
Defined.
